(** * ReCal: event-time resolution and calendar artifacts

    A shallow embedding of the logic of [src/app/page.tsx] (the current page)
    and of [src/unnamed/part_000] (the earlier page, module [Legacy]), and
    the properties the specification states about them.

    Conventions of the embedding.
    - A JavaScript string is the list of its code units.  A code unit is
      an [ascii], so the texts covered are those whose code units are below
      256 (Latin-1); the character classes of the regular expressions of the
      source ([\d], [\w], [a-z0-9]) only contain codes below 128.
    - A JavaScript number that holds an integer is a [Z]; a number that may
      be [NaN] is an [option Z], [None] being [NaN].
    - A [Date] is its time value: milliseconds since the epoch, or [NaN]
      (the Invalid Date), as [TimeClip] leaves it.
    - Every reading of the wall clock ([new Date()], [Date.now()]) is an
      explicit argument.
    - The time zone of the host ([LocalTZA]) and the date-fns functions
      ([addWeeks], [addMonths], [addYears], and [format] as [formatLong])
      are variables of the sections that use them; module [DateFnsUTC] gives
      the instance for a host whose zone is UTC, on which the concrete
      examples are run (module [OnUTC]).
    - Module [Consumer] holds what the specification's sentences need and
      the page does not contain: the named timestamp formats and the readers
      of a calendar file and of a query string.
    - Module [Picker] holds the gestures and the effects around the
      selection (wheels, quick picks, mount, submission) as steps on a view;
      module [LegacyView] the preview and the submission of the earlier
      page.
    - Module [DateFnsAt] gives date-fns on a host with a fixed offset from
      UTC, and [OnEast] the page on a host at UTC+05:30, where local and UTC
      fields differ; module [Reader] adds to [Consumer] a reader of UTF-8 and
      the first match of the token's pattern said without the matcher. *)

From Stdlib Require Import ZArith List Ascii String Bool Lia.
Import ListNotations.
Local Open Scope Z_scope.
Local Abbreviation length := (@Datatypes.length _).

(** ** JavaScript strings and numbers *)

Module Js.

Definition jsstring := list ascii.

(** A string literal of the source. *)
Definition lit (s : string) : jsstring := list_ascii_of_string s.

Definition code (c : ascii) : Z := Z.of_N (N_of_ascii c).
Definition chr (n : Z) : ascii := ascii_of_N (Z.to_N n).

Definition LF : ascii := "010"%char.
Definition CR : ascii := "013"%char.
Definition BACKSLASH : ascii := "092"%char.
Definition CRLF : jsstring := [CR; LF].

Definition between (lo hi : Z) (c : ascii) : bool :=
  (lo <=? code c) && (code c <=? hi).

(** [\d] *)
Definition isDigit (c : ascii) : bool := between 48 57 c.
Definition isLower (c : ascii) : bool := between 97 122 c.
Definition isUpper (c : ascii) : bool := between 65 90 c.
(** [\w], that is [A-Za-z0-9_] *)
Definition isWord (c : ascii) : bool :=
  isUpper c || isLower c || isDigit c || Ascii.eqb c "_".
(** [a-z0-9] *)
Definition isLowerAlnum (c : ascii) : bool := isLower c || isDigit c.

(** [===] on strings. *)
Fixpoint str_eqb (a b : jsstring) : bool :=
  match a, b with
  | [], [] => true
  | x :: a', y :: b' => Ascii.eqb x y && str_eqb a' b'
  | _, _ => false
  end.

(** [a.startsWith(p)] *)
Fixpoint startsWith (p s : jsstring) : bool :=
  match p, s with
  | [], _ => true
  | x :: p', y :: s' => Ascii.eqb x y && startsWith p' s'
  | _ :: _, [] => false
  end.

(** [s.endsWith(p)] *)
Definition endsWith (p s : jsstring) : bool := startsWith (rev p) (rev s).

(** [lines.join(sep)] *)
Fixpoint join (sep : jsstring) (lines : list jsstring) : jsstring :=
  match lines with
  | [] => []
  | [l] => l
  | l :: rest => l ++ sep ++ join sep rest
  end.

(** *** Numbers as text *)

Definition digitChar (d : Z) : ascii := chr (48 + d).

Fixpoint decimalAux (fuel : nat) (n : Z) (acc : jsstring) : jsstring :=
  match fuel with
  | O => acc
  | S f =>
      if n <? 10 then digitChar n :: acc
      else decimalAux f (n / 10) (digitChar (n mod 10) :: acc)
  end.

(** The decimal digits of a natural number: a division by ten per digit,
    and a number has no more decimal digits than binary ones. *)
Definition decimal (n : Z) : jsstring :=
  decimalAux (S (Z.to_nat (Z.log2 n))) n [].

(** [String(n)] for an integer [n] (below 10^21 in absolute value, where
    JavaScript still prints every digit). *)
Definition intToString (n : Z) : jsstring :=
  if n <? 0 then "-"%char :: decimal (- n) else decimal n.

(** [String(x)] for a number that may be [NaN]. *)
Definition numberToString (x : option Z) : jsstring :=
  match x with
  | Some n => intToString n
  | None => lit "NaN"
  end.

(** [s.padStart(n, c)] for a one-character filler. *)
Definition padStart (n : nat) (c : ascii) (s : jsstring) : jsstring :=
  repeat c (n - length s) ++ s.

(** [parseInt(s)] on a run of decimal digits: the integer the digits
    denote.  JavaScript turns it into a Number, which is that integer up to
    2^53 and a rounding of it beyond.  The only consumers of a count are the
    functions of date-fns, so the rounding is left to them: [addWeeks d n]
    stands for [addWeeks(d, x)] with [x] the Number for [n].  (In
    [DateFnsUTC] a count from 2^53 on yields the Invalid Date, rounded or
    not: it is further than 10^8 days away.) *)
Definition digitValue (c : ascii) : Z := code c - 48.
Definition parseInt (s : jsstring) : Z :=
  fold_left (fun acc c => 10 * acc + digitValue c) s 0.

(** *** The string methods and regular expressions of the source *)

(** [s.toLowerCase()]: on code units below 256 the letters with a lower
    case are A-Z and the Latin-1 capitals 192-222 except the multiplication
    sign 215; each maps 32 code units up. *)
Definition lowerChar (c : ascii) : ascii :=
  if isUpper c || (between 192 222 c && negb (code c =? 215))
  then chr (code c + 32) else c.
Definition toLowerCase (s : jsstring) : jsstring := map lowerChar s.

(** [s.slice(0, n)] *)
Definition slice0 (n : nat) (s : jsstring) : jsstring := firstn n s.

(** [s.replace(/[-:]/g, "")] *)
Definition removeDashColon (s : jsstring) : jsstring :=
  filter (fun c => negb (Ascii.eqb c "-" || Ascii.eqb c ":")) s.

(** [/\.\d{3}/] matches at the head of [s]. *)
Definition threeDigitsAhead (s : jsstring) : bool :=
  match s with
  | a :: b :: c :: _ => isDigit a && isDigit b && isDigit c
  | _ => false
  end.
Definition millisAtHead (s : jsstring) : bool :=
  match s with
  | d :: rest => Ascii.eqb d "." && threeDigitsAhead rest
  | [] => false
  end.

(** [s.replace(/\.\d{3}/, "")]: no [g] flag, so only the leftmost match
    is removed. *)
Fixpoint removeMillis (s : jsstring) : jsstring :=
  match s with
  | [] => []
  | c :: rest => if millisAtHead s then skipn 4 s else c :: removeMillis rest
  end.

(** [s.replace(/\n/g, "\\n")]: every line feed becomes the two characters
    backslash and n. *)
Definition escapeNewlines (s : jsstring) : jsstring :=
  flat_map (fun c => if Ascii.eqb c LF then [BACKSLASH; "n"%char] else [c]) s.

(** [s.replace(/[^a-z0-9]+/g, "-")].  The scan emits one hyphen where a
    run of characters outside [a-z0-9] starts and drops the rest of the run;
    [inRun] tells that the previous character belonged to such a run. *)
Fixpoint collapseRuns (inRun : bool) (s : jsstring) : jsstring :=
  match s with
  | [] => []
  | c :: rest =>
      if isLowerAlnum c then c :: collapseRuns false rest
      else if inRun then collapseRuns true rest
      else "-"%char :: collapseRuns true rest
  end.
Definition hyphenate (s : jsstring) : jsstring := collapseRuns false s.

(** [s.replace(/(^-|-$)/g, "")].  [^-] can only match at index 0 and [-$]
    only at the last index; the scan is from the left, so a match at index 0
    is consumed before the rest is tried. *)
Fixpoint dropLastHyphen (s : jsstring) : jsstring :=
  match s with
  | [] => []
  | c :: rest =>
      match rest with
      | [] => if Ascii.eqb c "-" then [] else [c]
      | _ :: _ => c :: dropLastHyphen rest
      end
  end.
Definition stripEdgeHyphens (s : jsstring) : jsstring :=
  match s with
  | c :: rest => if Ascii.eqb c "-" then dropLastHyphen rest else dropLastHyphen s
  | [] => []
  end.

(** **** [td.match(/(\d+)(\w+)/)]

    A greedy [+] first takes the longest run and gives characters back one
    at a time when what follows fails.  [plusSplits p s] lists, in that
    order, the ways [p+] can match at the head of [s]: the pairs (matched
    text, rest), longest match first. *)
Fixpoint plusSplits (p : ascii -> bool) (s : jsstring)
  : list (jsstring * jsstring) :=
  match s with
  | [] => []
  | c :: rest =>
      if p c
      then map (fun sp => (c :: fst sp, snd sp)) (plusSplits p rest) ++ [([c], rest)]
      else []
  end.

(** The first way, in backtracking order, to match [(\d+)(\w+)] at the head
    of [s]: the captures of the two groups. *)
Fixpoint firstWithWord (splits : list (jsstring * jsstring))
  : option (jsstring * jsstring) :=
  match splits with
  | [] => None
  | (ds, rest) :: more =>
      match plusSplits isWord rest with
      | (ws, _) :: _ => Some (ds, ws)
      | [] => firstWithWord more
      end
  end.
Definition matchHere (s : jsstring) : option (jsstring * jsstring) :=
  firstWithWord (plusSplits isDigit s).

(** The match itself: the leftmost index at which the pattern matches.
    [None] is JavaScript's [null]; [Some (g1, g2)] holds [m[1]] and [m[2]]. *)
Fixpoint regexMatch (s : jsstring) : option (jsstring * jsstring) :=
  match matchHere s with
  | Some m => Some m
  | None =>
      match s with
      | [] => None
      | _ :: rest => regexMatch rest
      end
  end.

End Js.

(** ** The [Date] object *)

Module JsDate.
Import Js.

(** A time value: [Some t] is [t] milliseconds since 1970-01-01T00:00:00Z,
    [None] is [NaN]. *)
Definition Date := option Z.

Definition msPerDay : Z := 86400000.
Definition maxTime : Z := 8640000000000000.

(** [TimeClip]: a time value further than 10^8 days from the epoch is [NaN]. *)
Definition TimeClip (t : Z) : Date :=
  if Z.abs t <=? maxTime then Some t else None.

(** [new Date(x)] for a number [x]. *)
Definition newDateOf (x : option Z) : Date :=
  match x with
  | Some t => TimeClip t
  | None => None
  end.

(** [new Date()] when the wall clock reads [clock]. *)
Definition newDate (clock : Z) : Date := TimeClip clock.

(** [d.getTime()] *)
Definition getTime (d : Date) : option Z := d.

(** [x + k] on numbers, for an integer [k]. *)
Definition numAdd (x : option Z) (k : Z) : option Z :=
  option_map (fun t => t + k) x.

(** *** Calendar fields of a time value (ECMAScript, Date objects) *)

Definition Day (t : Z) : Z := t / msPerDay.
Definition TimeWithinDay (t : Z) : Z := t mod msPerDay.
Definition HourFromTime (t : Z) : Z := (t / 3600000) mod 24.
Definition MinFromTime (t : Z) : Z := (t / 60000) mod 60.
Definition SecFromTime (t : Z) : Z := (t / 1000) mod 60.
Definition msFromTime (t : Z) : Z := t mod 1000.

(** Day number to (year, month 0..11, day of the month 1..31) in the
    proleptic Gregorian calendar.  Days are counted from 1 March of year 0
    in eras of 400 years (146097 days); within an era the century, the
    four-year group and the year are cut off in turn, the last of each being
    the one that may hold the extra day. *)
Definition civil (day : Z) : Z * Z * Z :=
  let z := day + 719468 in
  let era := z / 146097 in
  let doe := z mod 146097 in
  let c := Z.min (doe / 36524) 3 in
  let doc := doe - c * 36524 in
  let q := doc / 1461 in
  let doq := doc mod 1461 in
  let yq := Z.min (doq / 365) 3 in
  let doy := doq - yq * 365 in
  let mp := (5 * doy + 2) / 153 in
  let d := doy - (153 * mp + 2) / 5 + 1 in
  let m := if mp <? 10 then mp + 3 else mp - 9 in
  let y := 400 * era + 100 * c + 4 * q + yq + (if m <=? 2 then 1 else 0) in
  (y, m - 1, d).

Definition YearFromTime (t : Z) : Z := fst (fst (civil (Day t))).
Definition MonthFromTime (t : Z) : Z := snd (fst (civil (Day t))).
Definition DateFromTime (t : Z) : Z := snd (civil (Day t)).

(** [MakeDay(year, month, 1)]: the day number of the first of a month,
    [month] being any integer (years carry). *)
Definition dayOfMonthStart (year month : Z) : Z :=
  let ym := year + month / 12 in
  let mn := month mod 12 in
  let y := if mn <? 2 then ym - 1 else ym in
  let era := y / 400 in
  let yoe := y mod 400 in
  let mp := if mn <? 2 then mn + 10 else mn - 2 in
  let doy := (153 * mp + 2) / 5 in
  let doe := yoe * 365 + yoe / 4 - yoe / 100 + doy in
  era * 146097 + doe - 719468.

(** [MakeDate(MakeDay(year, month, date), time)] *)
Definition MakeTime (year month date time : Z) : Z :=
  (dayOfMonthStart year month + date - 1) * msPerDay + time.

(** **** The fields in UTC and in the zone of the host

    [LocalTZA t] is the offset of local time from UTC, in milliseconds, at
    the instant [t]. *)

Section Zone.
Variable LocalTZA : Z -> Z.

Definition LocalTime (t : Z) : Z := t + LocalTZA t.

Definition getFullYear (d : Date) : option Z :=
  option_map (fun t => YearFromTime (LocalTime t)) d.
Definition getMonth (d : Date) : option Z :=
  option_map (fun t => MonthFromTime (LocalTime t)) d.
Definition getDate (d : Date) : option Z :=
  option_map (fun t => DateFromTime (LocalTime t)) d.
Definition getHours (d : Date) : option Z :=
  option_map (fun t => HourFromTime (LocalTime t)) d.
Definition getMinutes (d : Date) : option Z :=
  option_map (fun t => MinFromTime (LocalTime t)) d.
Definition getSeconds (d : Date) : option Z :=
  option_map (fun t => SecFromTime (LocalTime t)) d.

End Zone.

(** The year of [toISOString]: four digits from 0 to 9999, otherwise a sign
    and six digits. *)
Definition isoYear (y : Z) : jsstring :=
  if (0 <=? y) && (y <=? 9999) then padStart 4 "0" (decimal y)
  else (if y <? 0 then "-"%char else "+"%char) :: padStart 6 "0" (decimal (Z.abs y)).

Definition pad2 (n : Z) : jsstring := padStart 2 "0" (intToString n).
Definition pad3 (n : Z) : jsstring := padStart 3 "0" (intToString n).

(** [d.toISOString()]: [YYYY-MM-DDTHH:mm:ss.sssZ] in UTC; [None] is the
    [RangeError] thrown on the Invalid Date. *)
Definition toISOString (d : Date) : option jsstring :=
  match d with
  | None => None
  | Some t =>
      Some (isoYear (YearFromTime t) ++ lit "-" ++ pad2 (MonthFromTime t + 1)
            ++ lit "-" ++ pad2 (DateFromTime t)
            ++ lit "T" ++ pad2 (HourFromTime t)
            ++ lit ":" ++ pad2 (MinFromTime t)
            ++ lit ":" ++ pad2 (SecFromTime t)
            ++ lit "." ++ pad3 (msFromTime t) ++ lit "Z")
  end.

End JsDate.

(** ** [URLSearchParams] *)

Module JsUrl.
Import Js.

(** UTF-8 of a string whose code units are below 256: one byte below 128,
    two bytes from there on. *)
Definition utf8 (s : jsstring) : list ascii :=
  flat_map (fun c => if code c <? 128 then [c]
                     else [chr (192 + code c / 64); chr (128 + code c mod 64)]) s.

Definition hexDigit (n : Z) : ascii :=
  if n <? 10 then chr (48 + n) else chr (55 + n).

(** The bytes the [application/x-www-form-urlencoded] serializer leaves as
    they are: ASCII letters and digits, [*], [-], [.] and [_]. *)
Definition formSafe (b : ascii) : bool :=
  isDigit b || isUpper b || isLower b
  || Ascii.eqb b "*" || Ascii.eqb b "-" || Ascii.eqb b "." || Ascii.eqb b "_".

Definition formEncodeByte (b : ascii) : jsstring :=
  if Ascii.eqb b " " then ["+"%char]
  else if formSafe b then [b]
  else ["%"%char; hexDigit (code b / 16); hexDigit (code b mod 16)].

Definition formEncode (s : jsstring) : jsstring :=
  flat_map formEncodeByte (utf8 s).

(** [new URLSearchParams(entries).toString()] *)
Definition URLSearchParams_toString (entries : list (jsstring * jsstring))
  : jsstring :=
  join (lit "&")
       (map (fun e => formEncode (fst e) ++ lit "=" ++ formEncode (snd e)) entries).

End JsUrl.

(** ** date-fns on a host in UTC

    date-fns is a dependency of the page, not code of the repository.  The
    module follows the library (v3 and v4): [addDays] is
    [setDate(getDate() + amount)], [addWeeks] adds seven times as many days,
    [addMonths] computes the last day of the target month with
    [setMonth(getMonth() + amount + 1, 0)] and clamps the day of the month to
    it, [addYears] adds twelve times as many months; every function returns
    the date itself for an amount of 0 and the Invalid Date on the Invalid
    Date.  The host's zone is UTC, where the local fields that [setDate],
    [setMonth] and [setFullYear] work on are the UTC fields.  The general
    theorems do not depend on this module: there the functions are
    variables. *)

Module DateFnsUTC.
Import Js JsDate.

Definition LocalTZA (t : Z) : Z := 0.

(** [addDays]: [_date.setDate(_date.getDate() + amount)]. *)
Definition addDays (d : Date) (amount : Z) : Date :=
  match d with
  | None => None
  | Some t =>
      if amount =? 0 then Some t
      else TimeClip (MakeTime (YearFromTime t) (MonthFromTime t)
                              (DateFromTime t + amount) (TimeWithinDay t))
  end.

(** [addWeeks(date, amount) = addDays(date, amount * 7)] *)
Definition addWeeks (d : Date) (amount : Z) : Date := addDays d (amount * 7).

(** [addMonths]: the last day of the target month is computed first
    ([setMonth(month + amount + 1, 0)]); a day of the month beyond it is
    clamped to it. *)
Definition addMonths (d : Date) (amount : Z) : Date :=
  match d with
  | None => None
  | Some t =>
      if amount =? 0 then Some t
      else
        let dayOfMonth := DateFromTime t in
        let endOfDesiredMonth :=
          TimeClip (MakeTime (YearFromTime t) (MonthFromTime t + amount + 1) 0
                             (TimeWithinDay t)) in
        match endOfDesiredMonth with
        | None => None
        | Some e =>
            if DateFromTime e <=? dayOfMonth then Some e
            else TimeClip (MakeTime (YearFromTime e) (MonthFromTime e) dayOfMonth
                                    (TimeWithinDay t))
        end
  end.

(** [addYears(date, amount) = addMonths(date, amount * 12)] *)
Definition addYears (d : Date) (amount : Z) : Date := addMonths d (amount * 12).

End DateFnsUTC.

(** ** The page: [src/app/page.tsx] *)

Module Page.
Import Js JsDate JsUrl.

Record FormData := {
  title : jsstring;
  content : option jsstring;   (* [z.string().optional()] *)
  timeDelay : jsstring
}.

(** An entry of [units]; [fn] reads the clock when it is called. *)
Record UnitOption := {
  label : jsstring;
  value : jsstring;
  fn : Z -> Date
}.

(** The state [useState] holds. *)
Record State := {
  selectedNumber : Z;
  selectedUnit : jsstring;
  recentDelays : list jsstring
}.

(** What a handler does to the browser, in order. *)
Inductive Effect :=
| Download (filename body : jsstring)
| OpenTab (url : jsstring)
| ClipboardWrite (text : jsstring)
| ToastSuccess (message : jsstring)
| StoreRecents (next : list jsstring).

(** The readings of the wall clock during one call, in order. *)
Definition Clock := nat -> Z.

(** [data.content || ""] *)
Definition contentOrEmpty (data : FormData) : jsstring :=
  match content data with
  | Some c => c
  | None => []
  end.

(** [updateTimeDelay]: the token handed to [form.setValue]. *)
Definition updateTimeDelay (number : Z) (unit : jsstring) : jsstring :=
  intToString number ++ unit.

(** [parseTimeDelay] *)
Definition parseTimeDelay (td : jsstring) : Z * jsstring :=
  let m := regexMatch td in
  let number := match m with Some (g1, _) => parseInt g1 | None => 1 end in
  let unit := match m with Some (_, g2) => g2 | None => lit "weeks" end in
  (number, unit).

(** [updateRecents]: the updater handed to [setRecentDelays]. *)
Definition nextRecents (timeDelay : jsstring) (prev : list jsstring)
  : list jsstring :=
  firstn 3 (timeDelay :: filter (fun v => negb (str_eqb v timeDelay)) prev).

Definition updateRecents (timeDelay : jsstring) (st : State)
  : State * list Effect :=
  let next := nextRecents timeDelay (recentDelays st) in
  ({| selectedNumber := selectedNumber st;
      selectedUnit := selectedUnit st;
      recentDelays := next |},
   [StoreRecents next]).

(** The file name of the download. *)
Definition slug (t : jsstring) : jsstring :=
  stripEdgeHyphens (hyphenate (slice0 30 (toLowerCase t))).
Definition downloadName (data : FormData) : jsstring :=
  lit "recal-" ++ slug (title data) ++ lit ".ics".

(** [iso.replace(/[-:]/g, "").replace(/\.\d{3}/, "")] *)
Definition stripIso (iso : jsstring) : jsstring :=
  removeMillis (removeDashColon iso).

(** [formatGoogleDate] *)
Definition formatGoogleDate (d : Date) : option jsstring :=
  option_map stripIso (toISOString d).

(** [formatOutlookDate] *)
Definition formatOutlookDate (d : Date) : option jsstring :=
  option_map (slice0 19) (toISOString d).

Section Home.

Variable LocalTZA : Z -> Z.
Variables addWeeks addMonths addYears : Date -> Z -> Date.
(** [format(date, "PPP 'at' p")] of date-fns; [None] is its [RangeError]. *)
Variable formatLong : Date -> option jsstring.
(** The four pictographs of the clipboard text (code units above 255). *)
Variables calendarSign dateSign timerSign memoSign : jsstring.

Definition units (clock : Z) : list UnitOption :=
  [ {| label := lit "weeks"; value := lit "weeks";
       fn := fun num => addWeeks (newDate clock) num |};
    {| label := lit "months"; value := lit "months";
       fn := fun num => addMonths (newDate clock) num |};
    {| label := lit "years"; value := lit "years";
       fn := fun num => addYears (newDate clock) num |} ].

(** The function of date-fns behind each entry of [units]. *)
Definition calendar : list (jsstring * (Date -> Z -> Date)) :=
  [ (lit "weeks", addWeeks); (lit "months", addMonths); (lit "years", addYears) ].

Definition getEventDates (data : FormData) (clock : Z) : Date * Date :=
  let m := regexMatch (timeDelay data) in
  let number := match m with Some (g1, _) => parseInt g1 | None => 1 end in
  let unit := match m with Some (_, g2) => g2 | None => lit "weeks" end in
  let selectedUnit := find (fun u => str_eqb (value u) unit) (units clock) in
  let startDate :=
    match selectedUnit with
    | Some u => fn u number
    | None => addWeeks (newDate clock) 1
    end in
  let endDate := newDateOf (numAdd (getTime startDate) (30 * 60000)) in
  (startDate, endDate).

(** [formatDate] of [generateICS]: the fields of local time. *)
Definition formatDate (date : Date) : jsstring :=
  let year := getFullYear LocalTZA date in
  let month := padStart 2 "0" (numberToString (numAdd (getMonth LocalTZA date) 1)) in
  let day := padStart 2 "0" (numberToString (getDate LocalTZA date)) in
  let hours := padStart 2 "0" (numberToString (getHours LocalTZA date)) in
  let minutes := padStart 2 "0" (numberToString (getMinutes LocalTZA date)) in
  let seconds := padStart 2 "0" (numberToString (getSeconds LocalTZA date)) in
  numberToString year ++ month ++ day ++ lit "T" ++ hours ++ minutes ++ seconds.

(** The records of the calendar file, before they are joined. *)
Definition icsLines (data : FormData) (clock : Clock) : option (list jsstring) :=
  let now := newDate (clock 0%nat) in
  let uid := intToString (clock 1%nat) ++ lit "@recal.app" in
  match option_map stripIso (toISOString now) with
  | None => None
  | Some dtstamp =>
      let '(startDate, endDate) := getEventDates data (clock 2%nat) in
      Some [ lit "BEGIN:VCALENDAR";
             lit "VERSION:2.0";
             lit "PRODID:-//ReCal//ReCal 1.0//EN";
             lit "CALSCALE:GREGORIAN";
             lit "METHOD:PUBLISH";
             lit "BEGIN:VEVENT";
             lit "UID:" ++ uid;
             lit "DTSTAMP:" ++ dtstamp;
             lit "DTSTART:" ++ formatDate startDate;
             lit "DTEND:" ++ formatDate endDate;
             lit "SUMMARY:" ++ title data;
             lit "DESCRIPTION:" ++ escapeNewlines (contentOrEmpty data);
             lit "END:VEVENT";
             lit "END:VCALENDAR" ]
  end.

(** [generateICS]; [None] when [toISOString] throws. *)
Definition generateICS (data : FormData) (clock : Clock) : option jsstring :=
  option_map (join CRLF) (icsLines data clock).

Definition downloadICS (data : FormData) (clock : Clock) (st : State)
  : option (State * list Effect) :=
  match generateICS data clock with
  | None => None
  | Some icsContent =>
      let '(st', stored) := updateRecents (timeDelay data) st in
      Some (st',
            [ Download (downloadName data) icsContent;
              ToastSuccess (lit "Calendar file downloaded! Works with Apple Calendar, Outlook desktop, and other calendar apps.") ]
            ++ stored)
  end.

Definition googleUrl (data : FormData) (clock : Clock) : option jsstring :=
  let '(startDate, endDate) := getEventDates data (clock 0%nat) in
  match formatGoogleDate startDate, formatGoogleDate endDate with
  | Some s, Some e =>
      let params := URLSearchParams_toString
        [ (lit "action", lit "TEMPLATE");
          (lit "text", title data);
          (lit "dates", s ++ lit "/" ++ e);
          (lit "details", contentOrEmpty data);
          (lit "trp", lit "false") ] in
      Some (lit "https://calendar.google.com/calendar/render?" ++ params)
  | _, _ => None
  end.

Definition addToGoogleCalendar (data : FormData) (clock : Clock) (st : State)
  : option (State * list Effect) :=
  match googleUrl data clock with
  | None => None
  | Some url =>
      let '(st', stored) := updateRecents (timeDelay data) st in
      Some (st', [ OpenTab url; ToastSuccess (lit "Opening Google Calendar...") ] ++ stored)
  end.

Definition outlookUrls (data : FormData) (clock : Clock) : option (list jsstring) :=
  let '(startDate, endDate) := getEventDates data (clock 0%nat) in
  match formatOutlookDate startDate, formatOutlookDate endDate with
  | Some s, Some e =>
      let params := URLSearchParams_toString
        [ (lit "path", lit "/calendar/action/compose");
          (lit "rru", lit "addevent");
          (lit "startdt", s);
          (lit "enddt", e);
          (lit "subject", title data);
          (lit "body", contentOrEmpty data) ] in
      Some [ lit "https://outlook.live.com/calendar/deeplink/compose?" ++ params;
             lit "https://outlook.office.com/calendar/deeplink/compose?" ++ params ]
  | _, _ => None
  end.

Definition addToOutlook (data : FormData) (clock : Clock) (st : State)
  : option (State * list Effect) :=
  match outlookUrls data clock with
  | None => None
  | Some urls =>
      let '(st', stored) := updateRecents (timeDelay data) st in
      Some (st', [ OpenTab (nth 0 urls []); ToastSuccess (lit "Opening Outlook Calendar...") ]
                 ++ stored)
  end.

(** The clipboard text; the toast of [copyEventDetails] waits for the
    clipboard's promise and is no part of the synchronous call. *)
Definition eventText (data : FormData) (clock : Clock) : option jsstring :=
  let '(startDate, _) := getEventDates data (clock 0%nat) in
  match formatLong startDate with
  | None => None
  | Some when =>
      Some (calendarSign ++ lit " " ++ title data ++ [LF]
            ++ dateSign ++ lit " " ++ when ++ [LF]
            ++ timerSign ++ lit " Duration: 30 minutes" ++ [LF]
            ++ match contentOrEmpty data with
               | [] => []
               | c => [LF] ++ memoSign ++ lit " " ++ c
               end)
  end.

Definition copyEventDetails (data : FormData) (clock : Clock) (st : State)
  : option (State * list Effect) :=
  match eventText data clock with
  | None => None
  | Some text =>
      let '(st', stored) := updateRecents (timeDelay data) st in
      Some (st', [ ClipboardWrite text ] ++ stored)
  end.

(** The four handlers that generate an artifact. *)
Inductive Action := DownloadICS | AddToGoogleCalendar | AddToOutlook | CopyEventDetails.

Definition run (a : Action) (data : FormData) (clock : Clock) (st : State)
  : option (State * list Effect) :=
  match a with
  | DownloadICS => downloadICS data clock st
  | AddToGoogleCalendar => addToGoogleCalendar data clock st
  | AddToOutlook => addToOutlook data clock st
  | CopyEventDetails => copyEventDetails data clock st
  end.

End Home.

End Page.

(** ** The earlier page: [src/unnamed/part_000] *)

Module Legacy.
Import Js JsDate.

Record FormData := {
  title : jsstring;
  content : jsstring;          (* [z.string().min(1, ...)] *)
  timeDelay : jsstring
}.

Section Home.

Variable LocalTZA : Z -> Z.
Variables addWeeks addMonths addYears : Date -> Z -> Date.

(** [formatDate] is the same function in both pages. *)
Definition formatDate : Date -> jsstring := Page.formatDate LocalTZA.

Definition units (clock : Z) : list Page.UnitOption :=
  [ {| Page.label := lit "weeks"; Page.value := lit "weeks";
       Page.fn := fun num => addWeeks (newDate clock) num |};
    {| Page.label := lit "months"; Page.value := lit "months";
       Page.fn := fun num => addMonths (newDate clock) num |};
    {| Page.label := lit "years"; Page.value := lit "years";
       Page.fn := fun num => addYears (newDate clock) num |} ].

(** [startDate] and [endDate] as [generateICS] computes them in its body. *)
Definition eventDates (data : FormData) (clock : Z) : Date * Date :=
  let m := regexMatch (timeDelay data) in
  let number := match m with Some (g1, _) => parseInt g1 | None => 1 end in
  let unit := match m with Some (_, g2) => g2 | None => lit "weeks" end in
  let selectedUnit := find (fun u => str_eqb (Page.value u) unit) (units clock) in
  let startDate :=
    match selectedUnit with
    | Some u => Page.fn u number
    | None => addWeeks (newDate clock) 1
    end in
  let endDate := newDateOf (numAdd (getTime startDate) (30 * 60000)) in
  (startDate, endDate).

Definition icsLines (data : FormData) (clock : Page.Clock) : option (list jsstring) :=
  let now := newDate (clock 0%nat) in
  let uid := intToString (clock 1%nat) ++ lit "@recal.app" in
  match option_map Page.stripIso (toISOString now) with
  | None => None
  | Some dtstamp =>
      let '(startDate, endDate) := eventDates data (clock 2%nat) in
      Some [ lit "BEGIN:VCALENDAR";
             lit "VERSION:2.0";
             lit "PRODID:-//ReCal//ReCal 1.0//EN";
             lit "CALSCALE:GREGORIAN";
             lit "METHOD:PUBLISH";
             lit "BEGIN:VEVENT";
             lit "UID:" ++ uid;
             lit "DTSTAMP:" ++ dtstamp;
             lit "DTSTART:" ++ formatDate startDate;
             lit "DTEND:" ++ formatDate endDate;
             lit "SUMMARY:" ++ title data;
             lit "DESCRIPTION:" ++ escapeNewlines (content data);
             lit "END:VEVENT";
             lit "END:VCALENDAR" ]
  end.

Definition generateICS (data : FormData) (clock : Page.Clock) : option jsstring :=
  option_map (join CRLF) (icsLines data clock).

End Home.

End Legacy.

(** ** The two pages on a host in UTC

    The instance on which the concrete examples are run. *)

Module OnUTC.
Import Js JsDate.

Definition getEventDates : Page.FormData -> Z -> Date * Date :=
  Page.getEventDates DateFnsUTC.addWeeks DateFnsUTC.addMonths DateFnsUTC.addYears.
Definition icsLines : Page.FormData -> Page.Clock -> option (list jsstring) :=
  Page.icsLines DateFnsUTC.LocalTZA
                DateFnsUTC.addWeeks DateFnsUTC.addMonths DateFnsUTC.addYears.
Definition generateICS : Page.FormData -> Page.Clock -> option jsstring :=
  Page.generateICS DateFnsUTC.LocalTZA
                   DateFnsUTC.addWeeks DateFnsUTC.addMonths DateFnsUTC.addYears.
Definition googleUrl : Page.FormData -> Page.Clock -> option jsstring :=
  Page.googleUrl DateFnsUTC.addWeeks DateFnsUTC.addMonths DateFnsUTC.addYears.
Definition outlookUrls : Page.FormData -> Page.Clock -> option (list jsstring) :=
  Page.outlookUrls DateFnsUTC.addWeeks DateFnsUTC.addMonths DateFnsUTC.addYears.
Definition legacyICS : Legacy.FormData -> Page.Clock -> option jsstring :=
  Legacy.generateICS DateFnsUTC.LocalTZA
                     DateFnsUTC.addWeeks DateFnsUTC.addMonths DateFnsUTC.addYears.

(** A clock that reads 2026-01-01T00:00:00.123Z throughout a call. *)
Definition newYear : Page.Clock := fun _ => 1767225600123.

Definition form (title : string) (content : option jsstring) (timeDelay : string)
  : Page.FormData :=
  {| Page.title := lit title; Page.content := content; Page.timeDelay := lit timeDelay |}.

Definition oldForm (title : string) (content : jsstring) (timeDelay : string)
  : Legacy.FormData :=
  {| Legacy.title := lit title; Legacy.content := content;
     Legacy.timeDelay := lit timeDelay |}.

End OnUTC.

(** ** The formats the specification names, and a consumer's readers

    Nothing in this module is code of the page.  The specification speaks of
    timestamp formats ([YYYYMMDDTHHMMSS], [YYYY-MM-DDTHH:MM:SS]), of parsing
    the generated calendar file and of standard query-string encoding; the
    definitions below follow those words, and the theorems compare the
    page's output with them. *)

Module Consumer.
Import Js JsDate.

(** The calendar fields of a timestamp, the month counted from 1. *)
Record Fields := {
  year : Z;
  month : Z;
  day : Z;
  hours : Z;
  minutes : Z;
  seconds : Z
}.

(** The fields of the time value [t] read as UTC; the fields of local time
    are those of [LocalTime t]. *)
Definition fieldsOf (t : Z) : Fields :=
  {| year := YearFromTime t;
     month := MonthFromTime t + 1;
     day := DateFromTime t;
     hours := HourFromTime t;
     minutes := MinFromTime t;
     seconds := SecFromTime t |}.

(** The instant the fields name, read as UTC: the inverse reading of
    [fieldsOf], to the second. *)
Definition instantOf (f : Fields) : Z :=
  MakeTime (year f) (month f - 1) (day f)
           (hours f * 3600000 + minutes f * 60000 + seconds f * 1000).

Definition twoDigits (n : Z) : jsstring :=
  [digitChar (n / 10); digitChar (n mod 10)].
Definition fourDigits (n : Z) : jsstring :=
  [digitChar (n / 1000); digitChar (n / 100 mod 10);
   digitChar (n / 10 mod 10); digitChar (n mod 10)].

Definition threeDigits (n : Z) : jsstring :=
  [digitChar (n / 100); digitChar (n / 10 mod 10); digitChar (n mod 10)].

(** Basic format, [YYYYMMDDTHHMMSS]. *)
Definition basicFormat (f : Fields) : jsstring :=
  fourDigits (year f) ++ twoDigits (month f) ++ twoDigits (day f)
  ++ lit "T" ++ twoDigits (hours f) ++ twoDigits (minutes f) ++ twoDigits (seconds f).

(** Extended format, [YYYY-MM-DDTHH:MM:SS]. *)
Definition extendedFormat (f : Fields) : jsstring :=
  fourDigits (year f) ++ lit "-" ++ twoDigits (month f) ++ lit "-" ++ twoDigits (day f)
  ++ lit "T" ++ twoDigits (hours f) ++ lit ":" ++ twoDigits (minutes f)
  ++ lit ":" ++ twoDigits (seconds f).

(** A timestamp in basic format read back: fifteen characters, digits but
    for the [T] in the middle. *)
Definition readBasic (s : jsstring) : option Fields :=
  match s with
  | [y1; y2; y3; y4; m1; m2; d1; d2; t; h1; h2; n1; n2; s1; s2] =>
      if Ascii.eqb t "T"
         && forallb isDigit [y1; y2; y3; y4; m1; m2; d1; d2; h1; h2; n1; n2; s1; s2]
      then Some {| year := parseInt [y1; y2; y3; y4];
                   month := parseInt [m1; m2];
                   day := parseInt [d1; d2];
                   hours := parseInt [h1; h2];
                   minutes := parseInt [n1; n2];
                   seconds := parseInt [s1; s2] |}
      else None
  | _ => None
  end.

(** *** The pattern of an offset token *)

(** [s] contains a match of "one or more digits followed by one or more
    word characters". *)
Definition HasMatch (s : jsstring) : Prop :=
  exists pre ds ws post,
    s = pre ++ ds ++ ws ++ post
    /\ ds <> [] /\ Forall (fun c => isDigit c = true) ds
    /\ ws <> [] /\ Forall (fun c => isWord c = true) ws.

(** The three units of an offset token. *)
Definition recognized (unit : jsstring) : Prop :=
  unit = lit "weeks" \/ unit = lit "months" \/ unit = lit "years".

(** A digit directly followed by a word character, somewhere in [s]. *)
Definition adjacentPair (s : jsstring) : Prop :=
  exists pre d w post,
    s = pre ++ d :: w :: post /\ isDigit d = true /\ isWord w = true.

(** *** The shape of a file-name slug *)

(** No two hyphens in a row. *)
Fixpoint singleHyphens (s : jsstring) : bool :=
  match s with
  | [] => true
  | c :: rest =>
      match rest with
      | d :: _ => negb (Ascii.eqb c "-" && Ascii.eqb d "-") && singleHyphens rest
      | [] => true
      end
  end.

(** A character of [a-z0-9-]. *)
Definition isSlugChar (c : ascii) : bool := isLowerAlnum c || Ascii.eqb c "-".

(** *** Reading a calendar file *)

(** [s] holds a CR immediately followed by a LF. *)
Fixpoint hasCRLF (s : jsstring) : bool :=
  match s with
  | [] => false
  | c :: rest =>
      match rest with
      | d :: _ => (Ascii.eqb c CR && Ascii.eqb d LF) || hasCRLF rest
      | [] => false
      end
  end.

(** [s] holds a backslash immediately followed by the letter n. *)
Fixpoint hasEscapedNewline (s : jsstring) : bool :=
  match s with
  | [] => false
  | c :: rest =>
      match rest with
      | d :: _ => (Ascii.eqb c BACKSLASH && Ascii.eqb d "n") || hasEscapedNewline rest
      | [] => false
      end
  end.

Definition consHead (c : ascii) (ls : list jsstring) : list jsstring :=
  match ls with
  | l :: more => (c :: l) :: more
  | [] => [[c]]
  end.

(** The records of a document: the text between consecutive CRLF pairs. *)
Fixpoint splitCRLF (s : jsstring) : list jsstring :=
  match s with
  | [] => [[]]
  | c :: rest =>
      match rest with
      | d :: rest' =>
          if Ascii.eqb c CR && Ascii.eqb d LF then [] :: splitCRLF rest'
          else consHead c (splitCRLF rest)
      | [] => [[c]]
      end
  end.

(** The value of the first record named [name]. *)
Definition property (name : jsstring) (records : list jsstring) : option jsstring :=
  option_map (skipn (length (name ++ lit ":")))
             (find (startsWith (name ++ lit ":")) records).

(** Every backslash-n pair back to a line feed. *)
Fixpoint unescapeNewlines (s : jsstring) : jsstring :=
  match s with
  | [] => []
  | c :: rest =>
      match rest with
      | d :: rest' =>
          if Ascii.eqb c BACKSLASH && Ascii.eqb d "n" then LF :: unescapeNewlines rest'
          else c :: unescapeNewlines rest
      | [] => [c]
      end
  end.

(** What a reader takes from the event of a calendar file. *)
Record Event := {
  summary : option jsstring;
  description : option jsstring;
  dtstart : option jsstring;
  dtend : option jsstring
}.

Definition readICS (doc : jsstring) : Event :=
  let records := splitCRLF doc in
  {| summary := property (lit "SUMMARY") records;
     description := option_map unescapeNewlines (property (lit "DESCRIPTION") records);
     dtstart := property (lit "DTSTART") records;
     dtend := property (lit "DTEND") records |}.

(** A character that is not a line feed. *)
Definition noLF (c : ascii) : Prop := Ascii.eqb c LF = false.

(** The records of a calendar file that holds one event. *)
Definition envelope (uid stamp starts ends title text : jsstring) : list jsstring :=
  [ lit "BEGIN:VCALENDAR";
    lit "VERSION:2.0";
    lit "PRODID:-//ReCal//ReCal 1.0//EN";
    lit "CALSCALE:GREGORIAN";
    lit "METHOD:PUBLISH";
    lit "BEGIN:VEVENT";
    lit "UID:" ++ uid;
    lit "DTSTAMP:" ++ stamp;
    lit "DTSTART:" ++ starts;
    lit "DTEND:" ++ ends;
    lit "SUMMARY:" ++ title;
    lit "DESCRIPTION:" ++ text;
    lit "END:VEVENT";
    lit "END:VCALENDAR" ].

(** *** Reading a query string ([application/x-www-form-urlencoded]) *)






(** A code unit of ASCII. *)
Definition isAscii (c : ascii) : bool := code c <? 128.


End Consumer.

(** ** Tactics *)

(** Case analysis on the 256 values of a code unit. *)
Ltac each_char c :=
  destruct c as [[|] [|] [|] [|] [|] [|] [|] [|]].

(** Case analysis on a decimal digit. *)
Ltac each_digit d :=
  let H := fresh in
  assert (H : d = 0 \/ d = 1 \/ d = 2 \/ d = 3 \/ d = 4 \/ d = 5 \/ d = 6
              \/ d = 7 \/ d = 8 \/ d = 9) by lia;
  repeat (destruct H as [H | H]; [subst d | ]); [.. | subst d].

(** Equal lists of digits: equal numbers, position by position. *)
Ltac digits_eq :=
  simpl; change "0"%char with (Js.digitChar 0);
  repeat (f_equal; try (Z.to_euclidean_division_equations; lia)).

(** ** The picker of the current page

    The gestures that change the selection, and the two effects that keep
    it in [localStorage].  A [View] is what one render holds: the state of
    [useState] and the field [timeDelay] of the form.  A handler that
    throws is [None].  Events come one render apart: a handler reads the
    state its render closed over, which is the state the event before it
    left.

    [JSON.parse] is not embedded: the mount effect takes what it returned
    as an argument ([Saved]); an array with an element that is no string
    is outside the model, the state being typed [string[]]. *)

Module Picker.
Import Js JsDate.

(** [numbers] *)
Definition numbers : list Z := [1; 2; 3; 4; 5; 6; 7; 8; 9].

(** [a[idx]] for an integer [idx]; [None] is [undefined]. *)
Definition at_ {A : Type} (a : list A) (idx : Z) : option A :=
  if idx <? 0 then None else nth_error a (Z.to_nat idx).

(** [a[idx] ?? a[0]] *)
Definition orFirst {A : Type} (a : list A) (idx : Z) : option A :=
  match at_ a idx with
  | Some x => Some x
  | None => at_ a 0
  end.

(** [a.indexOf(x)] on numbers, and [a.findIndex(p)]; [-1] when there is
    none. *)
Fixpoint indexOfFrom (i : Z) (a : list Z) (x : Z) : Z :=
  match a with
  | [] => -1
  | y :: rest => if y =? x then i else indexOfFrom (i + 1) rest x
  end.
Definition indexOf (a : list Z) (x : Z) : Z := indexOfFrom 0 a x.

Fixpoint findIndexFrom {A : Type} (i : Z) (p : A -> bool) (a : list A) : Z :=
  match a with
  | [] => -1
  | y :: rest => if p y then i else findIndexFrom (i + 1) p rest
  end.
Definition findIndex {A : Type} (p : A -> bool) (a : list A) : Z := findIndexFrom 0 p a.

Record View := {
  state : Page.State;
  timeDelay : jsstring
}.

(** The first render: the arguments of [useState] and [defaultValues]. *)
Definition initial : View :=
  {| state := {| Page.selectedNumber := 1;
                 Page.selectedUnit := lit "weeks";
                 Page.recentDelays := [] |};
     timeDelay := lit "1weeks" |}.

Definition setSelectedNumber (number : Z) (st : Page.State) : Page.State :=
  {| Page.selectedNumber := number;
     Page.selectedUnit := Page.selectedUnit st;
     Page.recentDelays := Page.recentDelays st |}.

Definition setSelectedUnit (unit : jsstring) (st : Page.State) : Page.State :=
  {| Page.selectedNumber := Page.selectedNumber st;
     Page.selectedUnit := unit;
     Page.recentDelays := Page.recentDelays st |}.

Definition setRecentDelays (arr : list jsstring) (st : Page.State) : Page.State :=
  {| Page.selectedNumber := Page.selectedNumber st;
     Page.selectedUnit := Page.selectedUnit st;
     Page.recentDelays := arr |}.

(** [onChange] of the wheel of numbers. *)
Definition onNumberChange (idx : Z) (v : View) : View :=
  let num := match at_ numbers idx with Some n => n | None => 1 end in
  {| state := setSelectedNumber num (state v);
     timeDelay := Page.updateTimeDelay num (Page.selectedUnit (state v)) |}.

(** [selectedIndex] of the wheel of numbers. *)
Definition numberIndex (v : View) : Z :=
  indexOf numbers (Page.selectedNumber (state v)).

(** The button of a recent pick [td], when it is clicked. *)
Definition onPick (td : jsstring) (v : View) : View :=
  let '(number, unit) := Page.parseTimeDelay td in
  {| state := setSelectedUnit unit (setSelectedNumber number (state v));
     timeDelay := Page.updateTimeDelay number unit |}.

(** The text on that button. *)
Definition pickLabel (td : jsstring) : jsstring :=
  let '(number, unit) := Page.parseTimeDelay td in
  intToString number ++ lit " " ++ unit.

(** The first half of the mount effect; [last] is
    [localStorage.getItem(LAST_KEY)], which an empty text makes falsy too. *)
Definition restoreLast (last : option jsstring) (v : View) : View :=
  match last with
  | Some (c :: r) =>
      let '(number, unit) := Page.parseTimeDelay (c :: r) in
      {| state := setSelectedUnit unit (setSelectedNumber number (state v));
         timeDelay := Page.updateTimeDelay number unit |}
  | _ =>
      {| state := state v;
         timeDelay := Page.updateTimeDelay (Page.selectedNumber (state v))
                                           (Page.selectedUnit (state v)) |}
  end.

(** What the second half of the mount effect finds under [RECENTS_KEY]. *)
Inductive Saved :=
| Absent                          (* [null] or the empty text *)
| Malformed                       (* [JSON.parse] throws *)
| NoArray                         (* a value that is no array *)
| Strings (arr : list jsstring).  (* an array of strings *)

Definition loadRecents (saved : Saved) (v : View) : View :=
  match saved with
  | Strings arr =>
      {| state := setRecentDelays (firstn 3 arr) (state v);
         timeDelay := timeDelay v |}
  | _ => v
  end.

(** The mount effect. *)
Definition mount (last : option jsstring) (saved : Saved) (v : View) : View :=
  loadRecents saved (restoreLast last v).

(** The second effect: the text it stores under [LAST_KEY]. *)
Definition lastToken (st : Page.State) : jsstring :=
  intToString (Page.selectedNumber st) ++ Page.selectedUnit st.

Section Home.

Variable LocalTZA : Z -> Z.
Variables addWeeks addMonths addYears : Date -> Z -> Date.
Variable formatLong : Date -> option jsstring.
Variables calendarSign dateSign timerSign memoSign : jsstring.

(** [onChange] of the wheel of units; an entry of [units] is given by its
    [value] and the function behind its [fn]. *)
Definition onUnitChange (idx : Z) (v : View) : option View :=
  match orFirst (Page.calendar addWeeks addMonths addYears) idx with
  | None => None
  | Some u =>
      Some {| state := setSelectedUnit (fst u) (state v);
              timeDelay := Page.updateTimeDelay (Page.selectedNumber (state v)) (fst u) |}
  end.

(** [selectedIndex] of the wheel of units. *)
Definition unitIndex (v : View) : Z :=
  findIndex (fun u => str_eqb (fst u) (Page.selectedUnit (state v)))
            (Page.calendar addWeeks addMonths addYears).

(** [form.handleSubmit(handler)()]: the handler runs on the values of the
    form when they pass [formSchema], whose only constraint is
    [title.min(1)]. *)
Definition handleSubmit (a : Page.Action) (title : jsstring) (content : option jsstring)
    (clock : Page.Clock) (v : View) : option (View * list Page.Effect) :=
  match title with
  | [] => Some (v, [])
  | _ =>
      match Page.run LocalTZA addWeeks addMonths addYears formatLong
                     calendarSign dateSign timerSign memoSign a
                     {| Page.title := title; Page.content := content;
                        Page.timeDelay := timeDelay v |} clock (state v) with
      | None => None
      | Some (st', effects) => Some ({| state := st'; timeDelay := timeDelay v |}, effects)
      end
  end.

(** What can happen to a view. *)
Inductive Event :=
| Mount (last : option jsstring) (saved : Saved)
| NumberWheel (idx : Z)
| UnitWheel (idx : Z)
| QuickPick (i : nat)
| Submit (a : Page.Action) (title : jsstring) (content : option jsstring)
         (clock : Page.Clock).

(** One event; the view stays as it is when the handler throws, and when
    there is no button number [i] among the recent picks. *)
Definition step (v : View) (e : Event) : View :=
  match e with
  | Mount last saved => mount last saved v
  | NumberWheel idx => onNumberChange idx v
  | UnitWheel idx =>
      match onUnitChange idx v with Some v' => v' | None => v end
  | QuickPick i =>
      match nth_error (Page.recentDelays (state v)) i with
      | Some td => onPick td v
      | None => v
      end
  | Submit a title content clock =>
      match handleSubmit a title content clock v with
      | Some (v', _) => v'
      | None => v
      end
  end.

Definition steps (v : View) (es : list Event) : View := fold_left step es v.

End Home.

(** The largest integer up to which every integer is a JavaScript number
    ([Number.MAX_SAFE_INTEGER]): up to it [parseInt] and the template
    literal of [updateTimeDelay] are exact, as the embedding has them. *)
Definition maxSafe : Z := 9007199254740991.

(** A word that can follow a count without joining it: characters of [\w],
    the first of them no digit. *)
Definition unitWord (unit : jsstring) : Prop :=
  unit <> [] /\ Forall (fun c => isWord c = true) unit
  /\ forall c r, unit = c :: r -> isDigit c = false.

(** A token of the two wheels: a number of [numbers] before a value of
    [units]. *)
Definition wheelToken (td : jsstring) : Prop :=
  exists n unit, 1 <= n <= 9 /\ Consumer.recognized unit
                 /\ td = Page.updateTimeDelay n unit.

(** A view the wheels can have produced. *)
Definition Wheeled (v : View) : Prop :=
  1 <= Page.selectedNumber (state v) <= 9
  /\ Consumer.recognized (Page.selectedUnit (state v))
  /\ timeDelay v = lastToken (state v)
  /\ Forall wheelToken (Page.recentDelays (state v)).

(** An event that brings nothing in from [localStorage] but tokens of the
    wheels, which is what the page stores there from such views. *)
Definition ownStorage (e : Event) : Prop :=
  match e with
  | Mount last saved =>
      match last with
      | Some (c :: r) => wheelToken (c :: r)
      | _ => True
      end
      /\ match saved with
         | Strings arr => Forall wheelToken arr
         | _ => True
         end
  | _ => True
  end.

(** An event that brings no array with a repeated entry in from
    [localStorage]. *)
Definition distinctStorage (e : Event) : Prop :=
  match e with
  | Mount _ (Strings arr) => NoDup arr
  | _ => True
  end.

End Picker.

(** ** The earlier page: preview and submission *)

Module LegacyView.
Import Js JsDate.

Section Home.

Variable LocalTZA : Z -> Z.
Variables addWeeks addMonths addYears : Date -> Z -> Date.

(** [previewDate]; [clock] is the reading of [new Date()] by the branch
    that runs. *)
Definition previewDate (selectedNumber : Z) (selectedUnit : jsstring) (clock : Z) : Date :=
  let selectedUnitObj :=
    find (fun u => str_eqb (Page.value u) selectedUnit)
         (Legacy.units addWeeks addMonths addYears clock) in
  match selectedUnitObj with
  | Some u => Page.fn u selectedNumber
  | None => addWeeks (newDate clock) selectedNumber
  end.

(** [onSubmit] *)
Definition onSubmit (data : Legacy.FormData) (clock : Page.Clock)
  : option (list Page.Effect) :=
  match Legacy.generateICS LocalTZA addWeeks addMonths addYears data clock with
  | None => None
  | Some icsContent =>
      Some [ Page.Download (lit "recal-" ++ Page.slug (Legacy.title data) ++ lit ".ics")
                           icsContent;
             Page.ToastSuccess (lit "Calendar reminder created!") ]
  end.

End Home.

(** The values of the earlier form, as values of the current one. *)
Definition asCurrent (old : Legacy.FormData) : Page.FormData :=
  {| Page.title := Legacy.title old;
     Page.content := Some (Legacy.content old);
     Page.timeDelay := Legacy.timeDelay old |}.

End LegacyView.

(** ** date-fns on a host with a fixed offset from UTC

    The functions of [DateFnsUTC] for a host whose zone is [offset]
    milliseconds ahead of UTC all year: [setDate], [setMonth] and
    [setFullYear] work on the fields of local time, and the time value they
    leave is the UTC of the local time they compose. *)

Module DateFnsAt.
Import Js JsDate.

Section Zone.

Variable offset : Z.

Definition LocalTZA (t : Z) : Z := offset.

Definition addDays (d : Date) (amount : Z) : Date :=
  match d with
  | None => None
  | Some t =>
      if amount =? 0 then Some t
      else
        let l := t + offset in
        TimeClip (MakeTime (YearFromTime l) (MonthFromTime l)
                           (DateFromTime l + amount) (TimeWithinDay l) - offset)
  end.

Definition addWeeks (d : Date) (amount : Z) : Date := addDays d (amount * 7).

Definition addMonths (d : Date) (amount : Z) : Date :=
  match d with
  | None => None
  | Some t =>
      if amount =? 0 then Some t
      else
        let l := t + offset in
        let dayOfMonth := DateFromTime l in
        let endOfDesiredMonth :=
          TimeClip (MakeTime (YearFromTime l) (MonthFromTime l + amount + 1) 0
                             (TimeWithinDay l) - offset) in
        match endOfDesiredMonth with
        | None => None
        | Some e =>
            let le := e + offset in
            if DateFromTime le <=? dayOfMonth then Some e
            else TimeClip (MakeTime (YearFromTime le) (MonthFromTime le) dayOfMonth
                                    (TimeWithinDay l) - offset)
        end
  end.

Definition addYears (d : Date) (amount : Z) : Date := addMonths d (amount * 12).

End Zone.

End DateFnsAt.

(** ** The current page on a host five and a half hours ahead of UTC

    A second instance for the concrete examples, on which the fields of
    local time and those of UTC differ. *)

Module OnEast.
Import Js JsDate.

Definition offset : Z := 19800000.
Definition LocalTZA : Z -> Z := DateFnsAt.LocalTZA offset.
Definition addWeeks : Date -> Z -> Date := DateFnsAt.addWeeks offset.
Definition addMonths : Date -> Z -> Date := DateFnsAt.addMonths offset.
Definition addYears : Date -> Z -> Date := DateFnsAt.addYears offset.

Definition getEventDates : Page.FormData -> Z -> Date * Date :=
  Page.getEventDates addWeeks addMonths addYears.
Definition icsLines : Page.FormData -> Page.Clock -> option (list jsstring) :=
  Page.icsLines LocalTZA addWeeks addMonths addYears.
Definition generateICS : Page.FormData -> Page.Clock -> option jsstring :=
  Page.generateICS LocalTZA addWeeks addMonths addYears.
Definition googleUrl : Page.FormData -> Page.Clock -> option jsstring :=
  Page.googleUrl addWeeks addMonths addYears.
Definition outlookUrls : Page.FormData -> Page.Clock -> option (list jsstring) :=
  Page.outlookUrls addWeeks addMonths addYears.

End OnEast.

(** ** More of what the specification's sentences need

    Like [Consumer], nothing here is code of the page: a reader of UTF-8, a
    reader of a query string that gives text back, the characters a query
    string may hold, and the first occurrence of the pattern of a token, said
    without the matcher. *)

Module Reader.
Import Js JsDate Consumer.




(** The first occurrence in [s] of one or more digits followed by one or
    more word characters, as a leftmost, greedy matcher that gives back
    takes it: [pre] holds no digit directly followed by a word character,
    not even its last character before the first digit of the count; the
    unit [g2] runs as far as word characters go; and either the count [g1] is
    followed by a word character that is no digit, or the run of digits is
    followed by none, and then its last digit is the unit. *)
Definition firstMatch (s g1 g2 : jsstring) : Prop :=
  exists pre post,
    s = pre ++ g1 ++ g2 ++ post
    /\ ~ adjacentPair (pre ++ firstn 1 g1)
    /\ g1 <> [] /\ Forall (fun c => isDigit c = true) g1
    /\ g2 <> [] /\ Forall (fun c => isWord c = true) g2
    /\ (forall c r, post = c :: r -> isWord c = false)
    /\ ((forall c r, g2 = c :: r -> isDigit c = false)
        \/ exists d, g2 = [d] /\ isDigit d = true).

(** A unit [parseTimeDelay] can return: word characters that do not begin
    with a digit, or one digit alone. *)
Definition shownUnit (unit : jsstring) : Prop :=
  Picker.unitWord unit \/ exists d, unit = [d] /\ isDigit d = true.

End Reader.

(** The components of an invariant of a view, each by what is at hand. *)
Ltac view_parts :=
  repeat split; simpl; first [assumption | lia | reflexivity].

(** * Properties *)

(** ** Characters and numbers as text *)

Module JsFacts.
Import Js.

Lemma digitChar_isDigit (d : Z) : 0 <= d < 10 -> isDigit (digitChar d) = true.
Proof. intros Hd. each_digit d; reflexivity. Qed.

Lemma digitValue_digitChar (d : Z) : 0 <= d < 10 -> digitValue (digitChar d) = d.
Proof. intros Hd. each_digit d; reflexivity. Qed.

Lemma isDigit_isWord (c : ascii) : isDigit c = true -> isWord c = true.
Proof. unfold isWord. intros ->. now rewrite !orb_true_r. Qed.

Lemma isDigit_not_sep (c : ascii) :
  isDigit c = true ->
  Ascii.eqb c "-" = false /\ Ascii.eqb c ":" = false /\ Ascii.eqb c "." = false
  /\ Ascii.eqb c CR = false /\ Ascii.eqb c LF = false.
Proof. each_char c; intros H; try discriminate H; repeat split; reflexivity. Qed.

Lemma str_eqb_eq (a b : jsstring) : str_eqb a b = true <-> a = b.
Proof.
  revert b. induction a as [|x a IH]; intros [|y b]; simpl; split;
    try congruence; try discriminate.
  - rewrite andb_true_iff, Ascii.eqb_eq, IH. now intros [-> ->].
  - intros [= -> ->]. rewrite Ascii.eqb_refl. now apply IH.
Qed.

Lemma str_eqb_refl (a : jsstring) : str_eqb a a = true.
Proof. now apply str_eqb_eq. Qed.

Lemma str_eqb_neq (a b : jsstring) : str_eqb a b = false <-> a <> b.
Proof.
  destruct (str_eqb a b) eqn:E.
  - apply str_eqb_eq in E. split; [discriminate | contradiction].
  - split; [| reflexivity]. intros _ H. apply str_eqb_eq in H. congruence.
Qed.

(** *** Decimal digits *)

Lemma decimalAux_app (fuel : nat) (n : Z) (acc : jsstring) :
  decimalAux fuel n acc = decimalAux fuel n [] ++ acc.
Proof.
  revert n acc. induction fuel as [|f IH]; intros n acc; simpl.
  - reflexivity.
  - destruct (n <? 10); [reflexivity |].
    rewrite IH. rewrite (IH _ [_]). now rewrite <- app_assoc.
Qed.

Lemma decimalAux_digits (fuel : nat) (n : Z) (acc : jsstring) :
  0 <= n -> Forall (fun c => isDigit c = true) acc ->
  Forall (fun c => isDigit c = true) (decimalAux fuel n acc).
Proof.
  revert n acc. induction fuel as [|f IH]; intros n acc Hn Hacc; simpl.
  - assumption.
  - destruct (Z.ltb_spec n 10).
    + constructor; [apply digitChar_isDigit; lia | assumption].
    + apply IH.
      * apply Z.div_pos; lia.
      * constructor; [| assumption].
        apply digitChar_isDigit. apply Z.mod_pos_bound. lia.
Qed.

Lemma decimal_digits (n : Z) :
  0 <= n -> Forall (fun c => isDigit c = true) (decimal n).
Proof. intros Hn. now apply decimalAux_digits. Qed.

Lemma decimal_nonempty (n : Z) : decimal n <> [].
Proof.
  unfold decimal. simpl. destruct (n <? 10); [discriminate |].
  rewrite decimalAux_app. intros H. apply app_eq_nil in H. destruct H; discriminate.
Qed.

Lemma parseInt_app (a : jsstring) (c : ascii) :
  parseInt (a ++ [c]) = 10 * parseInt a + digitValue c.
Proof. unfold parseInt. now rewrite fold_left_app. Qed.

Lemma parseInt_decimalAux (fuel : nat) (n : Z) :
  0 <= n < 2 ^ Z.of_nat fuel -> parseInt (decimalAux fuel n []) = n.
Proof.
  revert n. induction fuel as [|f IH]; intros n Hn.
  - simpl in Hn. assert (n = 0) by lia. now subst.
  - simpl decimalAux. destruct (Z.ltb_spec n 10).
    + unfold parseInt. simpl. rewrite digitValue_digitChar; lia.
    + rewrite decimalAux_app, parseInt_app.
      rewrite digitValue_digitChar by (apply Z.mod_pos_bound; lia).
      rewrite IH.
      * pose proof (Z.div_mod n 10). lia.
      * rewrite Nat2Z.inj_succ, Z.pow_succ_r in Hn by lia.
        split; [apply Z.div_pos; lia |].
        apply Z.div_lt_upper_bound; lia.
Qed.

(** [parseInt] reads back what [String] printed. *)
Lemma parseInt_decimal (n : Z) : 0 <= n -> parseInt (decimal n) = n.
Proof.
  intros Hn. unfold decimal. apply parseInt_decimalAux.
  destruct (Z.eq_dec n 0) as [-> | Hz]; [simpl; lia |].
  split; [assumption |].
  rewrite Nat2Z.inj_succ, Z2Nat.id by apply Z.log2_nonneg.
  apply Z.log2_spec. lia.
Qed.

Lemma decimal_1 (n : Z) : 0 <= n < 10 -> decimal n = [digitChar n].
Proof.
  intros Hn. unfold decimal. simpl.
  destruct (Z.ltb_spec n 10); [reflexivity | lia].
Qed.

Lemma fuel_of_log2 (n k : Z) :
  0 <= k -> 2 ^ k <= n ->
  exists f, S (Z.to_nat (Z.log2 n)) = (S (Z.to_nat k) + f)%nat.
Proof.
  intros Hk Hn.
  assert (k <= Z.log2 n) by (apply Z.log2_le_pow2; lia).
  exists (Z.to_nat (Z.log2 n) - Z.to_nat k)%nat. lia.
Qed.

Lemma decimal_2 (n : Z) :
  10 <= n < 100 -> decimal n = [digitChar (n / 10); digitChar (n mod 10)].
Proof.
  intros Hn. unfold decimal.
  destruct (fuel_of_log2 n 3) as [f ->]; [lia | simpl; lia |].
  simpl Nat.add. simpl decimalAux.
  destruct (Z.ltb_spec n 10); [lia |].
  destruct (Z.ltb_spec (n / 10) 10); [reflexivity |].
  exfalso. assert (n / 10 < 10) by (apply Z.div_lt_upper_bound; lia). lia.
Qed.

Lemma decimal_3 (n : Z) :
  100 <= n < 1000 ->
  decimal n = [digitChar (n / 10 / 10); digitChar (n / 10 mod 10); digitChar (n mod 10)].
Proof.
  intros Hn. unfold decimal.
  destruct (fuel_of_log2 n 6) as [f ->]; [lia | simpl; lia |].
  simpl Nat.add. simpl decimalAux.
  assert (10 <= n / 10 < 100)
    by (split; [apply Z.div_le_lower_bound | apply Z.div_lt_upper_bound]; lia).
  assert (n / 10 / 10 < 10) by (apply Z.div_lt_upper_bound; lia).
  destruct (Z.ltb_spec n 10); [lia |].
  destruct (Z.ltb_spec (n / 10) 10); [lia |].
  destruct (Z.ltb_spec (n / 10 / 10) 10); [reflexivity | lia].
Qed.

Lemma decimal_4 (n : Z) :
  1000 <= n < 10000 ->
  decimal n = [digitChar (n / 10 / 10 / 10); digitChar (n / 10 / 10 mod 10);
               digitChar (n / 10 mod 10); digitChar (n mod 10)].
Proof.
  intros Hn. unfold decimal.
  destruct (fuel_of_log2 n 9) as [f ->]; [lia | simpl; lia |].
  simpl Nat.add. simpl decimalAux.
  assert (100 <= n / 10 < 1000)
    by (split; [apply Z.div_le_lower_bound | apply Z.div_lt_upper_bound]; lia).
  assert (10 <= n / 10 / 10 < 100)
    by (split; [apply Z.div_le_lower_bound | apply Z.div_lt_upper_bound]; lia).
  assert (n / 10 / 10 / 10 < 10) by (apply Z.div_lt_upper_bound; lia).
  destruct (Z.ltb_spec n 10); [lia |].
  destruct (Z.ltb_spec (n / 10) 10); [lia |].
  destruct (Z.ltb_spec (n / 10 / 10) 10); [lia |].
  destruct (Z.ltb_spec (n / 10 / 10 / 10) 10); [reflexivity | lia].
Qed.

End JsFacts.

(** ** Calendar fields and [toISOString] *)

Module DateFacts.
Import Js JsDate Consumer JsFacts.

Lemma civil_bounds (day : Z) :
  0 <= snd (fst (civil day)) <= 11 /\ 1 <= snd (civil day) <= 31.
Proof.
  unfold civil. cbv zeta. cbn [fst snd].
  set (z := day + 719468).
  set (doe := z mod 146097).
  assert (Hdoe : 0 <= doe < 146097) by (apply Z.mod_pos_bound; lia).
  set (c := Z.min (doe / 36524) 3).
  assert (Hc : 0 <= c <= 3).
  { unfold c. assert (0 <= doe / 36524) by (apply Z.div_pos; lia). lia. }
  set (doc := doe - c * 36524).
  assert (Hdoc : 0 <= doc <= 36524).
  { unfold doc, c. destruct (Z.min_spec (doe / 36524) 3) as [[Hlt ->] | [Hge ->]].
    - pose proof (Z.div_mod doe 36524). pose proof (Z.mod_pos_bound doe 36524). lia.
    - assert (3 * 36524 <= doe); [| lia].
      pose proof (Z.div_mod doe 36524). pose proof (Z.mod_pos_bound doe 36524). nia. }
  set (doq := doc mod 1461).
  assert (Hdoq : 0 <= doq < 1461) by (apply Z.mod_pos_bound; lia).
  set (yq := Z.min (doq / 365) 3).
  set (doy := doq - yq * 365).
  assert (Hdoy : 0 <= doy <= 365).
  { unfold doy, yq. destruct (Z.min_spec (doq / 365) 3) as [[Hlt ->] | [Hge ->]].
    - pose proof (Z.div_mod doq 365). pose proof (Z.mod_pos_bound doq 365). lia.
    - pose proof (Z.div_mod doq 365). pose proof (Z.mod_pos_bound doq 365). nia. }
  set (mp := (5 * doy + 2) / 153).
  assert (Hmp : 0 <= mp <= 11).
  { unfold mp. split; [apply Z.div_pos; lia |].
    assert ((5 * doy + 2) / 153 < 12) by (apply Z.div_lt_upper_bound; lia). lia. }
  assert (Hd : 1 <= doy - (153 * mp + 2) / 5 + 1 <= 31).
  { unfold mp. pose proof (Z.div_mod (5 * doy + 2) 153).
    pose proof (Z.mod_pos_bound (5 * doy + 2) 153).
    fold mp in H, H0 |- *.
    pose proof (Z.div_mod (153 * mp + 2) 5).
    pose proof (Z.mod_pos_bound (153 * mp + 2) 5). lia. }
  split; [| exact Hd].
  destruct (Z.ltb_spec mp 10); lia.
Qed.

(** The day number is that of the date its fields name. *)
Lemma civil_inverse (day : Z) :
  dayOfMonthStart (fst (fst (civil day))) (snd (fst (civil day))) + snd (civil day) - 1
  = day.
Proof.
  unfold civil. cbv zeta. cbn [fst snd].
  set (z := day + 719468).
  set (era := z / 146097).
  set (doe := z mod 146097).
  assert (Hz : z = 146097 * era + doe) by (apply Z.div_mod; lia).
  assert (Hdoe : 0 <= doe < 146097) by (apply Z.mod_pos_bound; lia).
  set (c := Z.min (doe / 36524) 3).
  assert (Hc : 0 <= c <= 3).
  { unfold c. assert (0 <= doe / 36524) by (apply Z.div_pos; lia). lia. }
  set (doc := doe - c * 36524).
  assert (Hdoc : 0 <= doc <= 36524).
  { unfold doc, c. destruct (Z.min_spec (doe / 36524) 3) as [[Hlt ->] | [Hge ->]].
    - pose proof (Z.div_mod doe 36524). pose proof (Z.mod_pos_bound doe 36524). lia.
    - pose proof (Z.div_mod doe 36524). pose proof (Z.mod_pos_bound doe 36524). nia. }
  set (q := doc / 1461).
  set (doq := doc mod 1461).
  assert (Hq : doc = 1461 * q + doq) by (apply Z.div_mod; lia).
  assert (Hdoq : 0 <= doq < 1461) by (apply Z.mod_pos_bound; lia).
  assert (Hq24 : 0 <= q <= 24) by lia.
  set (yq := Z.min (doq / 365) 3).
  assert (Hyq : 0 <= yq <= 3).
  { unfold yq. assert (0 <= doq / 365) by (apply Z.div_pos; lia). lia. }
  set (doy := doq - yq * 365).
  assert (Hdoy : 0 <= doy <= 365).
  { unfold doy, yq. destruct (Z.min_spec (doq / 365) 3) as [[Hlt ->] | [Hge ->]].
    - pose proof (Z.div_mod doq 365). pose proof (Z.mod_pos_bound doq 365). lia.
    - pose proof (Z.div_mod doq 365). pose proof (Z.mod_pos_bound doq 365). nia. }
  set (mp := (5 * doy + 2) / 153).
  assert (Hmp : 0 <= mp <= 11).
  { unfold mp. split; [apply Z.div_pos; lia |].
    assert ((5 * doy + 2) / 153 < 12) by (apply Z.div_lt_upper_bound; lia). lia. }
  set (yoe := 100 * c + 4 * q + yq).
  assert (Hyoe : 0 <= yoe <= 399) by (unfold yoe; lia).
  assert (Hleap : yoe * 365 + yoe / 4 - yoe / 100 = 36524 * c + 1461 * q + 365 * yq).
  { assert (yoe / 4 = 25 * c + q) by (unfold yoe; Z.to_euclidean_division_equations; lia).
    assert (yoe / 100 = c) by (unfold yoe; Z.to_euclidean_division_equations; lia).
    unfold yoe in *. lia. }
  unfold dayOfMonthStart. cbv zeta.
  destruct (Z.ltb_spec mp 10) as [Hlt | Hge].
  - (* March to December: the calendar year is the year counted from March *)
    replace (mp + 3 - 1) with (mp + 2) by lia.
    destruct (Z.leb_spec (mp + 3) 2); [lia |].
    rewrite Z.add_0_r.
    assert (Hm12 : (mp + 2) / 12 = 0) by (apply Z.div_small; lia).
    assert (Hmn : (mp + 2) mod 12 = mp + 2) by (apply Z.mod_small; lia).
    rewrite Hm12, Hmn, Z.add_0_r.
    destruct (Z.ltb_spec (mp + 2) 2); [lia |].
    replace (400 * era + 100 * c + 4 * q + yq) with (yoe + era * 400) by (unfold yoe; lia).
    rewrite Z.div_add, Z.mod_add by lia.
    rewrite (Z.div_small yoe 400), (Z.mod_small yoe 400) by lia.
    replace (mp + 2 - 2) with mp by lia.
    unfold doy, doc in *. lia.
  - (* January and February: one calendar year later *)
    replace (mp - 9 - 1) with (mp - 10) by lia.
    destruct (Z.leb_spec (mp - 9) 2); [| lia].
    assert (Hm12 : (mp - 10) / 12 = 0) by (apply Z.div_small; lia).
    assert (Hmn : (mp - 10) mod 12 = mp - 10) by (apply Z.mod_small; lia).
    rewrite Hm12, Hmn, Z.add_0_r.
    destruct (Z.ltb_spec (mp - 10) 2); [| lia].
    replace (400 * era + 100 * c + 4 * q + yq + 1 - 1) with (yoe + era * 400)
      by (unfold yoe; lia).
    rewrite Z.div_add, Z.mod_add by lia.
    rewrite (Z.div_small yoe 400), (Z.mod_small yoe 400) by lia.
    replace (mp - 10 + 10) with mp by lia.
    unfold doy, doc in *. lia.
Qed.

Lemma time_of_day (t : Z) :
  HourFromTime t * 3600000 + MinFromTime t * 60000 + SecFromTime t * 1000
  = TimeWithinDay t - msFromTime t.
Proof.
  unfold HourFromTime, MinFromTime, SecFromTime, TimeWithinDay, msFromTime, msPerDay.
  Z.to_euclidean_division_equations. lia.
Qed.

(** The fields of a time value name that instant, without its
    milliseconds. *)
Lemma instantOf_fieldsOf (t : Z) : instantOf (fieldsOf t) = t - msFromTime t.
Proof.
  unfold instantOf, fieldsOf, MakeTime. cbn [year month day hours minutes seconds].
  replace (MonthFromTime t + 1 - 1) with (MonthFromTime t) by lia.
  unfold YearFromTime, MonthFromTime, DateFromTime.
  rewrite civil_inverse, time_of_day.
  unfold Day, TimeWithinDay, msPerDay.
  pose proof (Z.div_mod t 86400000). lia.
Qed.

(** On a host in UTC [addDays] shifts the time value by whole days, and
    [addWeeks] by whole weeks. *)
Lemma addDays_shift (t amount : Z) :
  Z.abs t <= maxTime ->
  DateFnsUTC.addDays (Some t) amount = TimeClip (t + amount * msPerDay).
Proof.
  intros Ht. unfold DateFnsUTC.addDays. destruct (Z.eqb_spec amount 0) as [-> | Hn].
  - rewrite Z.add_0_r. unfold TimeClip.
    destruct (Z.leb_spec (Z.abs t) maxTime); [reflexivity | lia].
  - f_equal. unfold MakeTime, YearFromTime, MonthFromTime, DateFromTime.
    replace (dayOfMonthStart (fst (fst (civil (Day t)))) (snd (fst (civil (Day t))))
             + (snd (civil (Day t)) + amount) - 1)
      with (dayOfMonthStart (fst (fst (civil (Day t)))) (snd (fst (civil (Day t))))
            + snd (civil (Day t)) - 1 + amount) by lia.
    rewrite civil_inverse. unfold Day, TimeWithinDay, msPerDay.
    pose proof (Z.div_mod t 86400000). lia.
Qed.

Lemma addWeeks_shift (clock amount : Z) :
  Z.abs clock <= maxTime ->
  DateFnsUTC.addWeeks (newDate clock) amount = TimeClip (clock + amount * 604800000).
Proof.
  intros Ht. unfold DateFnsUTC.addWeeks, newDate, TimeClip at 1.
  destruct (Z.leb_spec (Z.abs clock) maxTime); [| lia].
  rewrite addDays_shift by assumption. f_equal. unfold msPerDay. lia.
Qed.

(** The fields of any time value are those of a calendar date and a time
    of day. *)
Lemma fieldsOf_bounds (t : Z) :
  1 <= month (fieldsOf t) <= 12 /\ 1 <= day (fieldsOf t) <= 31
  /\ 0 <= hours (fieldsOf t) <= 23 /\ 0 <= minutes (fieldsOf t) <= 59
  /\ 0 <= seconds (fieldsOf t) <= 59.
Proof.
  unfold fieldsOf. cbn [month day hours minutes seconds].
  unfold MonthFromTime, DateFromTime, HourFromTime, MinFromTime, SecFromTime.
  pose proof (civil_bounds (Day t)).
  pose proof (Z.mod_pos_bound (t / 3600000) 24).
  pose proof (Z.mod_pos_bound (t / 60000) 60).
  pose proof (Z.mod_pos_bound (t / 1000) 60).
  lia.
Qed.

Lemma pad2_twoDigits (n : Z) : 0 <= n <= 99 -> pad2 n = twoDigits n.
Proof.
  intros Hn. unfold pad2, intToString, twoDigits, padStart.
  destruct (Z.ltb_spec n 0); [lia |].
  destruct (Z_lt_ge_dec n 10).
  - rewrite decimal_1 by lia. digits_eq.
  - rewrite decimal_2 by lia. reflexivity.
Qed.

Lemma number_pad2 (n : Z) :
  0 <= n <= 99 -> padStart 2 "0" (numberToString (Some n)) = twoDigits n.
Proof. exact (pad2_twoDigits n). Qed.

Lemma pad3_threeDigits (n : Z) : 0 <= n <= 999 -> pad3 n = threeDigits n.
Proof.
  intros Hn. unfold pad3, intToString, threeDigits, padStart.
  destruct (Z.ltb_spec n 0); [lia |].
  destruct (Z_lt_ge_dec n 10); [| destruct (Z_lt_ge_dec n 100)].
  - rewrite decimal_1 by lia. digits_eq.
  - rewrite decimal_2 by lia. digits_eq.
  - rewrite decimal_3 by lia. digits_eq.
Qed.

Lemma decimal_fourDigits (y : Z) : 1000 <= y <= 9999 -> decimal y = fourDigits y.
Proof.
  intros Hy. rewrite decimal_4 by lia. unfold fourDigits. digits_eq.
Qed.

Lemma isoYear_fourDigits (y : Z) : 0 <= y <= 9999 -> isoYear y = fourDigits y.
Proof.
  intros Hy. unfold isoYear.
  destruct (Z.leb_spec 0 y); [| lia]. destruct (Z.leb_spec y 9999); [| lia].
  cbn [andb]. unfold padStart, fourDigits.
  destruct (Z_lt_ge_dec y 10); [| destruct (Z_lt_ge_dec y 100);
                                   [| destruct (Z_lt_ge_dec y 1000)]].
  - rewrite decimal_1 by lia. digits_eq.
  - rewrite decimal_2 by lia. digits_eq.
  - rewrite decimal_3 by lia. digits_eq.
  - rewrite decimal_fourDigits by lia. reflexivity.
Qed.

Lemma twoDigits_digits (n : Z) :
  0 <= n <= 99 -> Forall (fun c => isDigit c = true) (twoDigits n).
Proof.
  intros Hn. unfold twoDigits.
  repeat constructor; apply digitChar_isDigit.
  - split; [apply Z.div_pos; lia | apply Z.div_lt_upper_bound; lia].
  - apply Z.mod_pos_bound. lia.
Qed.

Lemma threeDigits_digits (n : Z) :
  0 <= n <= 999 -> Forall (fun c => isDigit c = true) (threeDigits n).
Proof.
  intros Hn. unfold threeDigits.
  repeat constructor; apply digitChar_isDigit.
  - split; [apply Z.div_pos; lia | apply Z.div_lt_upper_bound; lia].
  - apply Z.mod_pos_bound. lia.
  - apply Z.mod_pos_bound. lia.
Qed.

Lemma fourDigits_digits (n : Z) :
  0 <= n <= 9999 -> Forall (fun c => isDigit c = true) (fourDigits n).
Proof.
  intros Hn. unfold fourDigits.
  repeat constructor; apply digitChar_isDigit;
    try (apply Z.mod_pos_bound; lia).
  split; [apply Z.div_pos; lia | apply Z.div_lt_upper_bound; lia].
Qed.

Lemma twoDigits_digits_all (n : Z) :
  0 <= n <= 99 -> forallb isDigit (twoDigits n) = true.
Proof.
  intros Hn. apply forallb_forall. intros c Hc.
  pose proof (twoDigits_digits n Hn) as F. rewrite Forall_forall in F. auto.
Qed.

Lemma fourDigits_digits_all (n : Z) :
  0 <= n <= 9999 -> forallb isDigit (fourDigits n) = true.
Proof.
  intros Hn. apply forallb_forall. intros c Hc.
  pose proof (fourDigits_digits n Hn) as F. rewrite Forall_forall in F. auto.
Qed.

(** [toISOString] on a year of four digits, field by field. *)
Lemma toISOString_fields (t : Z) :
  0 <= YearFromTime t <= 9999 ->
  toISOString (Some t)
  = Some (fourDigits (year (fieldsOf t)) ++ lit "-" ++ twoDigits (month (fieldsOf t))
          ++ lit "-" ++ twoDigits (day (fieldsOf t))
          ++ lit "T" ++ twoDigits (hours (fieldsOf t))
          ++ lit ":" ++ twoDigits (minutes (fieldsOf t))
          ++ lit ":" ++ twoDigits (seconds (fieldsOf t))
          ++ lit "." ++ threeDigits (msFromTime t) ++ lit "Z").
Proof.
  intros Hy. pose proof (fieldsOf_bounds t) as Hb.
  unfold fieldsOf in *. cbn [year month day hours minutes seconds] in *.
  unfold toISOString.
  rewrite isoYear_fourDigits by assumption.
  rewrite !pad2_twoDigits by lia.
  rewrite pad3_threeDigits; [reflexivity |].
  unfold msFromTime. pose proof (Z.mod_pos_bound t 1000). lia.
Qed.

End DateFacts.

(** ** The match of [/(\d+)(\w+)/] *)

Module RegexFacts.
Import Js Consumer JsFacts.

Lemma firstWithWord_app (l1 l2 : list (jsstring * jsstring)) :
  firstWithWord (l1 ++ l2)
  = match firstWithWord l1 with
    | Some r => Some r
    | None => firstWithWord l2
    end.
Proof.
  induction l1 as [|[ds rest] l1 IH]; simpl; [reflexivity |].
  destruct (plusSplits isWord rest) as [|[ws ?] ?]; [exact IH | reflexivity].
Qed.

Lemma firstWithWord_cons (c : ascii) (l : list (jsstring * jsstring)) :
  firstWithWord (map (fun sp => (c :: fst sp, snd sp)) l)
  = option_map (fun m => (c :: fst m, snd m)) (firstWithWord l).
Proof.
  induction l as [|[ds rest] l IH]; simpl; [reflexivity |].
  destruct (plusSplits isWord rest) as [|[ws ?] ?]; [exact IH | reflexivity].
Qed.

(** What backtracking amounts to at one index: the digits go on as long as
    a match is still possible behind them. *)
Lemma matchHere_cons (c : ascii) (rest : jsstring) :
  matchHere (c :: rest)
  = if isDigit c then
      match matchHere rest with
      | Some m => Some (c :: fst m, snd m)
      | None =>
          match plusSplits isWord rest with
          | (ws, _) :: _ => Some ([c], ws)
          | [] => None
          end
      end
    else None.
Proof.
  unfold matchHere. simpl. destruct (isDigit c); [| reflexivity].
  rewrite firstWithWord_app, firstWithWord_cons.
  fold (matchHere rest). destruct (matchHere rest); reflexivity.
Qed.

Lemma plusSplits_nil_iff (p : ascii -> bool) (s : jsstring) :
  plusSplits p s = [] <-> (forall c r, s = c :: r -> p c = false).
Proof.
  destruct s as [|c r]; simpl.
  - split; [discriminate | reflexivity].
  - destruct (p c) eqn:E.
    + split.
      * intros H. apply app_eq_nil in H. destruct H; discriminate.
      * intros H. specialize (H c r eq_refl). congruence.
    + split; [| reflexivity]. now intros _ c' r' [= <- <-].
Qed.

(** At one index the pattern matches exactly when a digit stands there and
    a word character behind it. *)
Lemma matchHere_some_iff (s : jsstring) :
  matchHere s <> None
  <-> exists d w r, s = d :: w :: r /\ isDigit d = true /\ isWord w = true.
Proof.
  induction s as [|c rest IH].
  - split; [now intros [] | intros (d & w & r & H & _); discriminate].
  - rewrite matchHere_cons. split.
    + destruct (isDigit c) eqn:Ec; [| now intros []].
      destruct (matchHere rest) eqn:Em.
      * intros _. destruct IH as [IH _].
        destruct IH as (d & w & r & -> & Hd & _); [discriminate |].
        exists c, d, (w :: r). auto using isDigit_isWord.
      * destruct (plusSplits isWord rest) as [|[ws ?] ?] eqn:Ep; [now intros [] |].
        intros _. destruct rest as [|w r]; [discriminate |].
        exists c, w, r. repeat split; auto.
        simpl in Ep. destruct (isWord w); [reflexivity | discriminate].
    + intros (d & w & r & [= -> ->] & Hd & Hw). rewrite Hd.
      destruct (matchHere (w :: r)); [discriminate |].
      destruct (plusSplits isWord (w :: r)) as [|[ws ?] ?] eqn:Ep; [| discriminate].
      exfalso. pose proof (proj1 (plusSplits_nil_iff isWord (w :: r)) Ep w r eq_refl).
      congruence.
Qed.

Lemma matchHere_none_iff (s : jsstring) :
  matchHere s = None
  <-> ~ exists d w r, s = d :: w :: r /\ isDigit d = true /\ isWord w = true.
Proof.
  rewrite <- matchHere_some_iff. destruct (matchHere s); split; intros H.
  - discriminate.
  - exfalso. apply H. discriminate.
  - intros H'. now apply H'.
  - reflexivity.
Qed.

Lemma regexMatch_none_iff (s : jsstring) :
  regexMatch s = None <-> ~ adjacentPair s.
Proof.
  induction s as [|c rest IH].
  - simpl. split; [| reflexivity]. intros _ (pre & d & w & post & H & _).
    destruct pre; discriminate.
  - cbn [regexMatch]. destruct (matchHere (c :: rest)) eqn:Em.
    + split; [discriminate |]. intros H. exfalso. apply H.
      assert (Hm : matchHere (c :: rest) <> None) by congruence.
      apply matchHere_some_iff in Hm. destruct Hm as (d & w & r & E & Hd & Hw).
      exists [], d, w, r. auto.
    + rewrite IH. apply matchHere_none_iff in Em. split.
      * intros Hrest (pre & d & w & post & E & Hd & Hw).
        destruct pre as [|x pre]; simpl in E.
        -- apply Em. exists d, w, post. auto.
        -- injection E as -> ->. apply Hrest. exists pre, d, w, post. auto.
      * intros H (pre & d & w & post & -> & Hd & Hw).
        apply H. exists (c :: pre), d, w, post. auto.
Qed.

Lemma HasMatch_adjacentPair (s : jsstring) : HasMatch s <-> adjacentPair s.
Proof.
  split.
  - intros (pre & ds & ws & post & -> & Hds & Fds & Hws & Fws).
    destruct (exists_last Hds) as (ds' & d & ->).
    destruct ws as [|w ws']; [contradiction |].
    exists (pre ++ ds'), d, w, (ws' ++ post). repeat split.
    + now rewrite <- !app_assoc.
    + apply Forall_app in Fds. destruct Fds as [_ Fd]. now inversion Fd.
    + now inversion Fws.
  - intros (pre & d & w & post & -> & Hd & Hw).
    exists pre, [d], [w], post. repeat split; auto; discriminate.
Qed.

(** The match is [null] exactly on the texts that hold no match of the
    pattern. *)
Lemma regexMatch_none_HasMatch (s : jsstring) :
  regexMatch s = None <-> ~ HasMatch s.
Proof. rewrite regexMatch_none_iff. now rewrite HasMatch_adjacentPair. Qed.

Lemma regexMatch_some_HasMatch (s : jsstring) (m : jsstring * jsstring) :
  regexMatch s = Some m -> HasMatch s.
Proof.
  intros E. apply HasMatch_adjacentPair.
  destruct (regexMatch_none_iff s) as [_ H0].
  induction s as [|c rest IH].
  - simpl in E. discriminate.
  - cbn [regexMatch] in E. destruct (matchHere (c :: rest)) eqn:Em.
    + assert (Hm : matchHere (c :: rest) <> None) by congruence.
      apply matchHere_some_iff in Hm. destruct Hm as (d & w & r & Ecr & Hd & Hw).
      exists [], d, w, r. auto.
    + destruct IH as (pre & d & w & post & -> & Hd & Hw).
      * exact E.
      * intros H. apply regexMatch_none_iff in H. congruence.
      * exists (c :: pre), d, w, post. auto.
Qed.

(** *** What the groups capture on a well-formed token *)

Lemma plusSplits_longest (p : ascii -> bool) (ws post : jsstring) :
  ws <> [] -> Forall (fun c => p c = true) ws ->
  (forall c r, post = c :: r -> p c = false) ->
  exists more, plusSplits p (ws ++ post) = (ws, post) :: more.
Proof.
  intros Hne Hall Hpost. induction ws as [|w ws IH]; [contradiction |].
  inversion Hall as [|? ? Hw Hws]; subst. simpl. rewrite Hw.
  destruct ws as [|w' ws'].
  - simpl. rewrite (proj2 (plusSplits_nil_iff p post) Hpost). simpl. eauto.
  - destruct IH as [more ->]; [discriminate | assumption |]. simpl. eauto.
Qed.

Lemma matchHere_token (ds ws post : jsstring) :
  ds <> [] -> Forall (fun c => isDigit c = true) ds ->
  ws <> [] -> Forall (fun c => isWord c = true) ws ->
  (forall c r, ws = c :: r -> isDigit c = false) ->
  (forall c r, post = c :: r -> isWord c = false) ->
  matchHere (ds ++ ws ++ post) = Some (ds, ws).
Proof.
  intros Hds Fds Hws Fws Hhead Hpost.
  induction ds as [|d ds IH]; [contradiction |].
  inversion Fds as [|? ? Hd Fds']; subst.
  simpl app. rewrite matchHere_cons, Hd.
  destruct ds as [|d' ds'].
  - simpl app.
    replace (matchHere (ws ++ post)) with (@None (jsstring * jsstring)).
    + destruct (plusSplits_longest isWord ws post Hws Fws Hpost) as [more ->].
      reflexivity.
    + symmetry. destruct ws as [|w ws']; [contradiction |].
      simpl app. rewrite matchHere_cons. now rewrite (Hhead w ws' eq_refl).
  - rewrite IH by (assumption || discriminate). reflexivity.
Qed.

Lemma regexMatch_skip (pre s : jsstring) :
  Forall (fun c => isDigit c = false) pre ->
  regexMatch (pre ++ s) = regexMatch s.
Proof.
  intros H. induction H as [|c pre Hc _ IH]; [reflexivity |].
  simpl app. cbn [regexMatch]. rewrite matchHere_cons, Hc. exact IH.
Qed.

(** The pattern is not anchored: text without digits before the token, and
    text behind it that does not go on with a word character, leave the
    captures as they are. *)
Lemma regexMatch_token (pre ds ws post : jsstring) :
  Forall (fun c => isDigit c = false) pre ->
  ds <> [] -> Forall (fun c => isDigit c = true) ds ->
  ws <> [] -> Forall (fun c => isWord c = true) ws ->
  (forall c r, ws = c :: r -> isDigit c = false) ->
  (forall c r, post = c :: r -> isWord c = false) ->
  regexMatch (pre ++ ds ++ ws ++ post) = Some (ds, ws).
Proof.
  intros Hpre Hds Fds Hws Fws Hhead Hpost.
  rewrite regexMatch_skip by assumption.
  destruct ds as [|d ds']; [contradiction |].
  simpl app. cbn [regexMatch].
  change (d :: ds' ++ ws ++ post) with ((d :: ds') ++ ws ++ post).
  now rewrite matchHere_token.
Qed.

(** *** The first match, said without the matcher *)

(** The first split of a greedy run is the whole run. *)
Lemma plusSplits_run (p : ascii -> bool) (s ws r : jsstring)
      (more : list (jsstring * jsstring)) :
  plusSplits p s = (ws, r) :: more ->
  ws <> [] /\ Forall (fun c => p c = true) ws /\ s = ws ++ r
  /\ (forall c r', r = c :: r' -> p c = false).
Proof.
  revert ws r more. induction s as [|c rest IH]; intros ws r more H; [discriminate |].
  simpl in H. destruct (p c) eqn:Hc; [| discriminate].
  destruct (plusSplits p rest) as [|[ws0 r0] more0] eqn:E.
  - simpl in H. injection H as <- <- <-.
    split; [discriminate |]. split; [now repeat constructor |].
    split; [reflexivity |].
    intros c' r' ->. apply (proj1 (plusSplits_nil_iff p _) E c' r' eq_refl).
  - simpl in H. injection H as <- <- <-.
    destruct (IH _ _ _ eq_refl) as (_ & Hall & Hs & Hr).
    split; [discriminate |]. split; [now constructor |].
    split; [simpl; now f_equal | assumption].
Qed.

(** A run of digits that no word character follows gives its last digit
    to the unit. *)
Lemma matchHere_giveback (ds : jsstring) (d : ascii) (post : jsstring) :
  ds <> [] -> Forall (fun c => isDigit c = true) ds -> isDigit d = true ->
  (forall c r, post = c :: r -> isWord c = false) ->
  matchHere (ds ++ [d] ++ post) = Some (ds, [d]).
Proof.
  intros Hne Hall Hd Hpost.
  assert (Hnone : matchHere (d :: post) = None).
  { rewrite matchHere_cons, Hd.
    rewrite (proj2 (plusSplits_nil_iff isWord post) Hpost).
    destruct post as [|c r]; [reflexivity |].
    rewrite matchHere_cons.
    destruct (isDigit c) eqn:Hc; [| reflexivity].
    apply isDigit_isWord in Hc. rewrite (Hpost c r eq_refl) in Hc. discriminate. }
  induction ds as [|c rest IH]; [contradiction |].
  inversion Hall as [|? ? Hc Hrest]; subst.
  simpl app. rewrite matchHere_cons, Hc.
  destruct rest as [|c' rest'].
  - simpl app. rewrite Hnone.
    destruct (plusSplits_longest isWord [d] post) as [more E];
      [discriminate | constructor; [now apply isDigit_isWord | constructor] | assumption |].
    simpl app in E. now rewrite E.
  - change ([d] ++ post) with (d :: post) in IH.
    rewrite IH; [reflexivity | discriminate | assumption].
Qed.

(** What a match at the head of [s] takes. *)
Lemma matchHere_first (s g1 g2 : jsstring) :
  matchHere s = Some (g1, g2) ->
  exists post,
    s = g1 ++ g2 ++ post
    /\ g1 <> [] /\ Forall (fun c => isDigit c = true) g1
    /\ g2 <> [] /\ Forall (fun c => isWord c = true) g2
    /\ (forall c r, post = c :: r -> isWord c = false)
    /\ ((forall c r, g2 = c :: r -> isDigit c = false)
        \/ exists d, g2 = [d] /\ isDigit d = true).
Proof.
  revert g1 g2. induction s as [|c rest IH]; intros g1 g2 H; [discriminate |].
  rewrite matchHere_cons in H.
  destruct (isDigit c) eqn:Hc; [| discriminate].
  destruct (matchHere rest) as [[h1 h2]|] eqn:E.
  - injection H as <- <-.
    destruct (IH _ _ eq_refl) as (post & Hs & _ & Hd & Hrest).
    exists post. split; [simpl; now f_equal |].
    split; [discriminate |]. split; [now constructor | exact Hrest].
  - destruct (plusSplits isWord rest) as [|[ws r] more] eqn:Ew; [discriminate |].
    injection H as <- <-.
    destruct (plusSplits_run _ _ _ _ _ Ew) as (Hne & Hall & Hs & Hr).
    exists r. split; [simpl; now f_equal |].
    split; [discriminate |]. split; [now repeat constructor |].
    split; [assumption |]. split; [assumption |]. split; [assumption |].
    destruct ws as [|w ws']; [contradiction |].
    destruct (isDigit w) eqn:Hw.
    + right. exists w. split; [| assumption].
      destruct ws' as [|w2 ws2]; [reflexivity |].
      exfalso. apply (proj1 (matchHere_none_iff _) E).
      exists w, w2, (ws2 ++ r). split; [exact Hs |]. split; [assumption |].
      inversion Hall as [|? ? _ Hall']; subst. now inversion Hall'.
    + left. intros c0 r0 [= <- <-]. assumption.
Qed.

(** The match is the leftmost one: it sits at the head of a suffix, and no
    longer suffix has a match at its head. *)
Lemma regexMatch_leftmost (s : jsstring) (m : jsstring * jsstring) :
  regexMatch s = Some m ->
  exists pre rest,
    s = pre ++ rest /\ matchHere rest = Some m
    /\ forall a b, pre = a ++ b -> b <> [] -> matchHere (b ++ rest) = None.
Proof.
  induction s as [|c rest IH]; cbn [regexMatch].
  - destruct (matchHere []) eqn:E; [| discriminate]. discriminate E.
  - destruct (matchHere (c :: rest)) as [m'|] eqn:E.
    + intros [= <-]. exists [], (c :: rest). split; [reflexivity |].
      split; [assumption |]. intros a b Hab Hb.
      symmetry in Hab. apply app_eq_nil in Hab. destruct Hab as [_ ->]. contradiction.
    + intros H. destruct (IH H) as (pre & r & -> & Hm & Hnone).
      exists (c :: pre), r. split; [reflexivity |]. split; [assumption |].
      intros a b Hab Hb. destruct a as [|x a'].
      * simpl in Hab. subst b. exact E.
      * injection Hab as _ Hab. now apply Hnone with a'.
Qed.

Lemma regexMatch_skip_none (pre rest : jsstring) :
  (forall a b, pre = a ++ b -> b <> [] -> matchHere (b ++ rest) = None) ->
  regexMatch (pre ++ rest) = regexMatch rest.
Proof.
  induction pre as [|c pre IH]; intros H; [reflexivity |].
  simpl app. cbn [regexMatch].
  change (c :: pre ++ rest) with ((c :: pre) ++ rest).
  rewrite (H [] (c :: pre) eq_refl) by discriminate.
  apply IH. intros a b -> Hb. now apply (H (c :: a) b).
Qed.

Lemma app_one_split {A : Type} (pre l r : list A) (x d w : A) :
  pre ++ [x] = l ++ d :: w :: r ->
  exists tail, pre = l ++ d :: tail /\ tail ++ [x] = w :: r.
Proof.
  revert pre. induction l as [|c l IH]; intros pre H.
  - destruct pre as [|p pre']; [discriminate H |].
    injection H as -> H. now exists pre'.
  - destruct pre as [|p pre'].
    + injection H as _ H. destruct l; discriminate H.
    + injection H as -> H. destruct (IH _ H) as (tail & -> & Ht).
      now exists tail.
Qed.

(** No digit of [pre] is directly followed by a word character, the first
    digit of the count included: no suffix of [pre] has a match at its
    head. *)
Lemma no_pair_no_match (pre : jsstring) (x : ascii) (more : jsstring) :
  ~ adjacentPair (pre ++ [x]) <->
  (forall a b, pre = a ++ b -> b <> [] -> matchHere (b ++ x :: more) = None).
Proof.
  split.
  - intros Hn a b -> Hb. apply matchHere_none_iff.
    intros (d & w & r & E & Hd & Hw). apply Hn.
    destruct b as [|d' b']; [contradiction |].
    simpl in E. injection E as -> E.
    destruct b' as [|w' b''].
    + simpl in E. injection E as -> _.
      exists a, d, w, []. split; [now rewrite <- app_assoc | now split].
    + simpl in E. injection E as -> _.
      exists a, d, w, (b'' ++ [x]).
      split; [now rewrite <- app_assoc | now split].
  - intros H (l & d & w & r & E & Hd & Hw).
    destruct (app_one_split _ _ _ _ _ _ E) as (tail & -> & Ht).
    specialize (H l (d :: tail) eq_refl ltac:(discriminate)).
    apply (proj1 (matchHere_none_iff _) H).
    destruct tail as [|t tail'].
    + simpl in Ht. injection Ht as -> _.
      exists d, w, more. now repeat split.
    + simpl in Ht. injection Ht as -> _.
      exists d, w, (tail' ++ x :: more). now repeat split.
Qed.

(** The matcher finds the first match, and nothing else. *)
Lemma regexMatch_firstMatch (s g1 g2 : jsstring) :
  regexMatch s = Some (g1, g2) <-> Reader.firstMatch s g1 g2.
Proof.
  split.
  - intros H. destruct (regexMatch_leftmost _ _ H) as (pre & rest & -> & Hm & Hnone).
    destruct (matchHere_first _ _ _ Hm) as (post & -> & Hne & Hd & Hne2 & Hw & Hp & Hshape).
    exists pre, post. split; [reflexivity |].
    split; [| now repeat split].
    destruct g1 as [|x g1']; [contradiction |].
    cbn [firstn]. now apply (no_pair_no_match pre x (g1' ++ g2 ++ post)).
  - intros (pre & post & -> & Hn & Hne & Hd & Hne2 & Hw & Hp & Hshape).
    destruct g1 as [|x g1']; [contradiction |].
    cbn [firstn] in Hn.
    rewrite regexMatch_skip_none
      by (apply (proj1 (no_pair_no_match pre x (g1' ++ g2 ++ post))); exact Hn).
    assert (M : matchHere ((x :: g1') ++ g2 ++ post) = Some (x :: g1', g2)).
    { destruct Hshape as [Hhead | (d & -> & Hdig)].
      - now apply matchHere_token.
      - now apply matchHere_giveback. }
    simpl app in *. cbn [regexMatch]. now rewrite M.
Qed.

End RegexFacts.

(** ** The offset resolver: [getEventDates] *)

Module Resolver.
Import Js JsDate Consumer JsFacts RegexFacts.

Section Resolve.

Variables addWeeks addMonths addYears : Date -> Z -> Date.

Local Abbreviation getEventDates := (Page.getEventDates addWeeks addMonths addYears).
Local Abbreviation eventDates := (Legacy.eventDates addWeeks addMonths addYears).

Local Abbreviation calendar := (Page.calendar addWeeks addMonths addYears).

(** The earlier page resolves a token as the current one does. *)
Lemma eventDates_getEventDates (old : Legacy.FormData) (data : Page.FormData) (clock : Z) :
  Legacy.timeDelay old = Page.timeDelay data ->
  eventDates old clock = getEventDates data clock.
Proof. unfold Legacy.eventDates, Page.getEventDates. now intros ->. Qed.

Lemma endDate_of_startDate (data : Page.FormData) (clock : Z) :
  snd (getEventDates data clock)
  = newDateOf (numAdd (getTime (fst (getEventDates data clock))) (30 * 60000)).
Proof. reflexivity. Qed.

Lemma find_unit (unit : jsstring) (clock : Z) :
  option_map (fun u => Page.fn u)
             (find (fun u => str_eqb (Page.value u) unit)
                   (Page.units addWeeks addMonths addYears clock))
  = if str_eqb (lit "weeks") unit then Some (addWeeks (newDate clock))
    else if str_eqb (lit "months") unit then Some (addMonths (newDate clock))
    else if str_eqb (lit "years") unit then Some (addYears (newDate clock))
    else None.
Proof.
  unfold Page.units. cbn [find Page.value].
  destruct (str_eqb (lit "weeks") unit); [reflexivity |].
  destruct (str_eqb (lit "months") unit); [reflexivity |].
  destruct (str_eqb (lit "years") unit); reflexivity.
Qed.

(** The start, case by case. *)
Lemma startDate_cases (data : Page.FormData) (clock : Z) :
  fst (getEventDates data clock)
  = match regexMatch (Page.timeDelay data) with
    | None => addWeeks (newDate clock) 1
    | Some (g1, g2) =>
        if str_eqb (lit "weeks") g2 then addWeeks (newDate clock) (parseInt g1)
        else if str_eqb (lit "months") g2 then addMonths (newDate clock) (parseInt g1)
        else if str_eqb (lit "years") g2 then addYears (newDate clock) (parseInt g1)
        else addWeeks (newDate clock) 1
    end.
Proof.
  unfold Page.getEventDates. cbn [fst].
  destruct (regexMatch (Page.timeDelay data)) as [[g1 g2] |].
  - pose proof (find_unit g2 clock) as Hf.
    destruct (find _ _) as [u |]; cbn [option_map] in Hf;
      destruct (str_eqb (lit "weeks") g2);
      [ now injection Hf as -> | | discriminate | ];
      destruct (str_eqb (lit "months") g2);
      [ now injection Hf as -> | | discriminate | ];
      destruct (str_eqb (lit "years") g2);
      [ now injection Hf as -> | discriminate | discriminate | reflexivity ].
  - reflexivity.
Qed.

Lemma startDate_recognized (data : Page.FormData) (clock : Z)
      (g1 g2 : jsstring) (f : Date -> Z -> Date) :
  regexMatch (Page.timeDelay data) = Some (g1, g2) ->
  In (g2, f) calendar ->
  fst (getEventDates data clock) = f (newDate clock) (parseInt g1).
Proof.
  intros Hm Hin. rewrite startDate_cases, Hm.
  destruct Hin as [[= <- <-] | [[= <- <-] | [[= <- <-] | []]]]; reflexivity.
Qed.

Lemma startDate_unrecognized (data : Page.FormData) (clock : Z) (g1 g2 : jsstring) :
  regexMatch (Page.timeDelay data) = Some (g1, g2) ->
  ~ recognized g2 ->
  fst (getEventDates data clock) = addWeeks (newDate clock) 1.
Proof.
  intros Hm Hn. rewrite startDate_cases, Hm. unfold recognized in Hn.
  destruct (str_eqb (lit "weeks") g2) eqn:E1;
    [apply str_eqb_eq in E1; subst g2; exfalso; apply Hn; auto |].
  destruct (str_eqb (lit "months") g2) eqn:E2;
    [apply str_eqb_eq in E2; subst g2; exfalso; apply Hn; auto |].
  destruct (str_eqb (lit "years") g2) eqn:E3;
    [apply str_eqb_eq in E3; subst g2; exfalso; apply Hn; auto |].
  reflexivity.
Qed.

(** A token as the wheels build it, a count and one of the three units,
    resolves to that unit's function applied to that count. *)
Lemma canonical_token (data : Page.FormData) (clock n : Z)
      (unit : jsstring) (f : Date -> Z -> Date) :
  0 <= n ->
  Page.timeDelay data = Page.updateTimeDelay n unit ->
  In (unit, f) calendar ->
  fst (getEventDates data clock) = f (newDate clock) n.
Proof.
  intros Hn E Hin.
  rewrite <- (parseInt_decimal n Hn).
  apply startDate_recognized with (g2 := unit); [| assumption].
  rewrite E. unfold Page.updateTimeDelay, intToString.
  destruct (Z.ltb_spec n 0); [lia |].
  replace (decimal n ++ unit) with ([] ++ decimal n ++ unit ++ [])
    by (now rewrite app_nil_r).
  apply regexMatch_token.
  - constructor.
  - apply decimal_nonempty.
  - now apply decimal_digits.
  - destruct Hin as [[= <- <-] | [[= <- <-] | [[= <- <-] | []]]]; discriminate.
  - destruct Hin as [[= <- <-] | [[= <- <-] | [[= <- <-] | []]]]; repeat constructor.
  - destruct Hin as [[= <- <-] | [[= <- <-] | [[= <- <-] | []]]];
      intros c r [= <- <-]; reflexivity.
  - discriminate.
Qed.

(** C1, as amended.  The end is the start plus 30 minutes (1,800,000 ms)
    whatever the title, the content and the token, in the current page and in
    the earlier one, whenever the start is a valid date and the instant 30
    minutes later is still a time value a [Date] can hold.  Otherwise, past
    that bound or on an invalid start, the end is the Invalid Date. *)
Theorem end_is_start_plus_30_minutes
        (data : Page.FormData) (old : Legacy.FormData) (clock s : Z) :
  let thirty (dates : Date * Date) :=
    (fst dates = Some s -> Z.abs (s + 1800000) <= maxTime ->
     snd dates = Some (s + 1800000))
    /\ (fst dates = Some s -> maxTime < Z.abs (s + 1800000) -> snd dates = None)
    /\ (fst dates = None -> snd dates = None) in
  thirty (getEventDates data clock) /\ thirty (eventDates old clock).
Proof.
  intros thirty.
  assert (H : forall d : Date * Date,
             snd d = newDateOf (numAdd (getTime (fst d)) (30 * 60000)) -> thirty d).
  { intros d E. unfold thirty. rewrite E. change (30 * 60000) with 1800000.
    split; [| split].
    - intros -> Hs. cbn [getTime numAdd option_map newDateOf]. unfold TimeClip.
      destruct (Z.leb_spec (Z.abs (s + 1800000)) maxTime); [reflexivity | lia].
    - intros -> Hs. cbn [getTime numAdd option_map newDateOf]. unfold TimeClip.
      destruct (Z.leb_spec (Z.abs (s + 1800000)) maxTime); [lia | reflexivity].
    - intros ->. reflexivity. }
  split; apply H; reflexivity.
Qed.


(** C10, as amended.  The match is not anchored: it is found wherever the
    token holds a digit directly followed by a word character, and it is the
    first such place from the left.  The count is the run of digits from
    there and the unit the run of word characters after it, unless no word
    character follows the run of digits: then the run gives its last digit to
    the unit.  What stands before may hold digits and word characters, as long
    as none of its digits is directly followed by a word character.  The
    start is computed from that count and unit when the unit is one of
    weeks, months, years, and is the one-week fallback when it is not.  So
    "x3weeks" and "7 3weeks" resolve to now plus 3 weeks and "1.5months" to
    now plus 5 months; in "12.5weeks" the match is "12", with count 1 and unit
    "2", and the start is the one-week fallback. *)
Theorem match_is_not_anchored (data : Page.FormData) (clock : Z) :
  (HasMatch (Page.timeDelay data)
   <-> exists g1 g2, regexMatch (Page.timeDelay data) = Some (g1, g2))
  /\ (forall g1 g2,
        regexMatch (Page.timeDelay data) = Some (g1, g2)
        <-> Reader.firstMatch (Page.timeDelay data) g1 g2)
  /\ (forall g1 g2 f,
        Reader.firstMatch (Page.timeDelay data) g1 g2 -> In (g2, f) calendar ->
        fst (getEventDates data clock) = f (newDate clock) (parseInt g1))
  /\ (forall g1 g2,
        Reader.firstMatch (Page.timeDelay data) g1 g2 -> ~ recognized g2 ->
        fst (getEventDates data clock) = addWeeks (newDate clock) 1)
  /\ (Page.timeDelay data = lit "x3weeks" ->
      fst (getEventDates data clock) = addWeeks (newDate clock) 3)
  /\ (Page.timeDelay data = lit "7 3weeks" ->
      fst (getEventDates data clock) = addWeeks (newDate clock) 3)
  /\ (Page.timeDelay data = lit "1.5months" ->
      fst (getEventDates data clock) = addMonths (newDate clock) 5)
  /\ (Page.timeDelay data = lit "12.5weeks" ->
      regexMatch (Page.timeDelay data) = Some (lit "1", lit "2")
      /\ fst (getEventDates data clock) = addWeeks (newDate clock) 1).
Proof.
  split; [| split; [| split; [| split; [| split; [| split; [| split]]]]]].
  - split.
    + intros Hm. destruct (regexMatch (Page.timeDelay data)) as [[g1 g2] |] eqn:E.
      * eauto.
      * apply regexMatch_none_HasMatch in E. contradiction.
    + intros (g1 & g2 & E). eapply regexMatch_some_HasMatch. exact E.
  - intros g1 g2. apply regexMatch_firstMatch.
  - intros g1 g2 f Hm Hin. apply regexMatch_firstMatch in Hm.
    now apply startDate_recognized with (g2 := g2).
  - intros g1 g2 Hm Hn. apply regexMatch_firstMatch in Hm.
    now apply startDate_unrecognized with (g1 := g1) (g2 := g2).
  - intros E. rewrite startDate_cases, E. reflexivity.
  - intros E. rewrite startDate_cases, E. reflexivity.
  - intros E. rewrite startDate_cases, E. reflexivity.
  - intros E. split; [now rewrite E |].
    rewrite startDate_cases, E. reflexivity.
Qed.

End Resolve.

(** The hypotheses of [end_is_start_plus_30_minutes] are met: the token
    "3weeks" on 1 January 2026, on a host in UTC. *)
Lemma end_is_start_plus_30_minutes_witness :
  snd (OnUTC.getEventDates (OnUTC.form "Revisit" None "3weeks") 1767225600000)
  = Some (1769040000000 + 1800000).
Proof.
  apply (proj1 (proj1 (end_is_start_plus_30_minutes
                         DateFnsUTC.addWeeks DateFnsUTC.addMonths DateFnsUTC.addYears
                         (OnUTC.form "Revisit" None "3weeks")
                         (OnUTC.oldForm "Revisit" (lit "why") "3weeks")
                         1767225600000 1769040000000))).
  - vm_compute. reflexivity.
  - vm_compute. discriminate.
Defined.

(** C1 as stated fails.  On Friday 2 January 2026, 23:45 UTC, the token
    "14282792weeks" resolves to a valid start, 12 September 275760 at 23:45
    UTC, 15 minutes before the last instant a [Date] can hold; the end is the
    Invalid Date, not the start plus 30 minutes. *)
Lemma end_is_start_plus_30_minutes_counterexample :
  fst (OnUTC.getEventDates (OnUTC.form "Revisit" None "14282792weeks") 1767397500000)
  = Some 8639999999100000
  /\ snd (OnUTC.getEventDates (OnUTC.form "Revisit" None "14282792weeks") 1767397500000)
     = None
  /\ snd (OnUTC.getEventDates (OnUTC.form "Revisit" None "14282792weeks") 1767397500000)
     <> Some (8639999999100000 + 1800000).
Proof. repeat split; vm_compute; (reflexivity || discriminate). Qed.


(** The general case of [match_is_not_anchored] at the token
    "v2: 3weeks!": the digit of "v2:" is followed by no word character, so the
    first match is "3weeks". *)
Lemma match_is_not_anchored_witness :
  Reader.firstMatch (lit "v2: 3weeks!") (lit "3") (lit "weeks")
  /\ fst (OnUTC.getEventDates (OnUTC.form "Revisit" None "v2: 3weeks!") 1767225600000)
     = DateFnsUTC.addWeeks (newDate 1767225600000) (parseInt (lit "3")).
Proof.
  assert (M : Reader.firstMatch (lit "v2: 3weeks!") (lit "3") (lit "weeks")).
  { exists (lit "v2: "), (lit "!"). split; [reflexivity |].
    split; [apply regexMatch_none_iff; reflexivity |].
    split; [discriminate |]. split; [repeat constructor |].
    split; [discriminate |]. split; [repeat constructor |].
    split; [intros c r [= <- <-]; reflexivity |].
    left. intros c r [= <- <-]. reflexivity. }
  split; [exact M |].
  apply (proj1 (proj2 (proj2 (match_is_not_anchored
                                 DateFnsUTC.addWeeks DateFnsUTC.addMonths
                                 DateFnsUTC.addYears
                                 (OnUTC.form "Revisit" None "v2: 3weeks!")
                                 1767225600000)))
               (lit "3") (lit "weeks")).
  - exact M.
  - simpl. auto.
Defined.

(** C10 as stated fails: "12.5weeks" does not resolve with count 5 and unit
    "weeks".  The match is "12", with count 1 and unit "2", and the start is
    now plus one week, not now plus five weeks. *)
Lemma match_is_not_anchored_counterexample :
  regexMatch (lit "12.5weeks") = Some (lit "1", lit "2")
  /\ fst (OnUTC.getEventDates (OnUTC.form "Revisit" None "12.5weeks") 1767225600000)
     = Some (1767225600000 + 1 * 604800000)
  /\ fst (OnUTC.getEventDates (OnUTC.form "Revisit" None "12.5weeks") 1767225600000)
     <> DateFnsUTC.addWeeks (newDate 1767225600000) 5.
Proof. repeat split; vm_compute; (reflexivity || discriminate). Qed.

End Resolver.

(** ** Recent selections: [updateRecents] *)

Module Recents.
Import Js JsDate JsFacts.

Lemma NoDup_firstn_of {A : Type} (n : nat) (l : list A) : NoDup l -> NoDup (firstn n l).
Proof.
  intros H. rewrite <- (firstn_skipn n l) in H. now apply NoDup_app_remove_r in H.
Qed.

Lemma In_others (t x : jsstring) (prev : list jsstring) :
  In x (filter (fun v => negb (str_eqb v t)) prev) <-> In x prev /\ x <> t.
Proof.
  rewrite filter_In, negb_true_iff, str_eqb_neq. reflexivity.
Qed.

Lemma others_absent (t : jsstring) (prev : list jsstring) :
  ~ In t prev -> filter (fun v => negb (str_eqb v t)) prev = prev.
Proof.
  induction prev as [|x prev IH]; intros Hn; simpl; [reflexivity |].
  destruct (str_eqb x t) eqn:E.
  - apply str_eqb_eq in E. subst. exfalso. apply Hn. now left.
  - simpl. f_equal. apply IH. intros H. apply Hn. now right.
Qed.

Lemma others_present (t : jsstring) (prev : list jsstring) :
  NoDup prev -> In t prev ->
  S (length (filter (fun v => negb (str_eqb v t)) prev)) = length prev.
Proof.
  induction 1 as [|x prev Hx Hnd IH]; intros Hin; [destruct Hin |].
  simpl. destruct (str_eqb x t) eqn:E.
  - apply str_eqb_eq in E. subst. simpl. now rewrite others_absent.
  - simpl. f_equal. apply IH. destruct Hin as [-> | Hin]; [| assumption].
    rewrite str_eqb_refl in E. discriminate.
Qed.

Lemma nextRecents_cons (t : jsstring) (prev : list jsstring) :
  Page.nextRecents t prev
  = t :: firstn 2 (filter (fun v => negb (str_eqb v t)) prev).
Proof. reflexivity. Qed.

Lemma nextRecents_length (t : jsstring) (prev : list jsstring) :
  (length (Page.nextRecents t prev) <= 3)%nat.
Proof. apply firstn_le_length. Qed.

Lemma nextRecents_NoDup (t : jsstring) (prev : list jsstring) :
  NoDup prev -> NoDup (Page.nextRecents t prev).
Proof.
  intros H. apply NoDup_firstn_of. constructor.
  - rewrite In_others. now intros [_ Hne].
  - now apply NoDup_filter.
Qed.

Lemma nextRecents_move_to_front (t : jsstring) (prev : list jsstring) :
  NoDup prev -> In t prev -> (length prev <= 3)%nat ->
  length (Page.nextRecents t prev) = length prev.
Proof.
  intros Hnd Hin Hlen. unfold Page.nextRecents.
  pose proof (others_present t prev Hnd Hin) as E.
  rewrite firstn_all2; simpl; lia.
Qed.

Lemma nextRecents_evict (t a b c : jsstring) :
  ~ In t [a; b; c] -> Page.nextRecents t [a; b; c] = [t; a; b].
Proof.
  intros Hn. unfold Page.nextRecents. now rewrite others_absent.
Qed.

Section Handlers.

Variable LocalTZA : Z -> Z.
Variables addWeeks addMonths addYears : Date -> Z -> Date.
Variable formatLong : Date -> option jsstring.
Variables calendarSign dateSign timerSign memoSign : jsstring.

Local Abbreviation run :=
  (Page.run LocalTZA addWeeks addMonths addYears formatLong
            calendarSign dateSign timerSign memoSign).

(** A handler that succeeds ends with [updateRecents(data.timeDelay)]. *)
Lemma run_updates_recents (a : Page.Action) (data : Page.FormData)
      (clock : Page.Clock) (st st' : Page.State) (effects : list Page.Effect) :
  run a data clock st = Some (st', effects) ->
  Page.recentDelays st' = Page.nextRecents (Page.timeDelay data) (Page.recentDelays st)
  /\ Page.selectedNumber st' = Page.selectedNumber st
  /\ Page.selectedUnit st' = Page.selectedUnit st
  /\ In (Page.StoreRecents (Page.recentDelays st')) effects.
Proof.
  destruct a; cbn [Page.run];
    unfold Page.downloadICS, Page.addToGoogleCalendar, Page.addToOutlook,
      Page.copyEventDetails, Page.updateRecents;
    match goal with
    | |- match ?x with _ => _ end = _ -> _ => destruct x; [| discriminate]
    end;
    intros [= <- <-]; cbn [Page.recentDelays Page.selectedNumber Page.selectedUnit];
    (split; [reflexivity | split; [reflexivity | split; [reflexivity |]]]);
    simpl; tauto.
Qed.

(** C5.  After any artifact-generation handler that succeeds with token
    [t], the recent selections are [t] followed by the first two of the
    previous ones other than [t], in their previous order: at most three
    entries, without duplicates when there were none; a token that was present
    moves to the front and the list does not grow; a fourth distinct token
    evicts the oldest. *)
Theorem recents_after_action (a : Page.Action) (data : Page.FormData)
        (clock : Page.Clock) (st st' : Page.State) (effects : list Page.Effect) :
  run a data clock st = Some (st', effects) ->
  let t := Page.timeDelay data in
  let prev := Page.recentDelays st in
  let next := Page.recentDelays st' in
  next = firstn 3 (t :: filter (fun v => negb (str_eqb v t)) prev)
  /\ next = t :: firstn 2 (filter (fun v => negb (str_eqb v t)) prev)
  /\ (length next <= 3)%nat
  /\ (NoDup prev -> NoDup next)
  /\ (NoDup prev -> In t prev -> (length prev <= 3)%nat ->
      length next = length prev /\ hd_error next = Some t)
  /\ (forall x y z, prev = [x; y; z] -> ~ In t prev -> next = [t; x; y]).
Proof.
  intros Hrun t prev next.
  destruct (run_updates_recents a data clock st st' effects Hrun) as (E & _).
  subst t prev next. rewrite E. repeat split.
  - apply nextRecents_length.
  - apply nextRecents_NoDup.
  - now apply nextRecents_move_to_front.
  - intros x y z -> Hn. now apply nextRecents_evict.
Qed.

End Handlers.

(** The hypothesis of [recents_after_action] is met: a download with the
    token "2months" while "1weeks", "2months" and "3years" are the recent
    selections; "2months" moves to the front. *)
Lemma recents_after_action_witness :
  exists st' effects,
    Page.run DateFnsUTC.LocalTZA DateFnsUTC.addWeeks DateFnsUTC.addMonths
             DateFnsUTC.addYears (fun _ => None) [] [] [] []
             Page.DownloadICS
             {| Page.title := lit "Revisit"; Page.content := None;
                Page.timeDelay := lit "2months" |}
             (fun _ => 1767225600000)
             {| Page.selectedNumber := 2; Page.selectedUnit := lit "months";
                Page.recentDelays := [lit "1weeks"; lit "2months"; lit "3years"] |}
    = Some (st', effects)
    /\ Page.recentDelays st' = [lit "2months"; lit "1weeks"; lit "3years"].
Proof.
  eexists. eexists. split.
  - vm_compute. reflexivity.
  - exact (proj1 (recents_after_action
                    DateFnsUTC.LocalTZA DateFnsUTC.addWeeks DateFnsUTC.addMonths
                    DateFnsUTC.addYears (fun _ => None) [] [] [] []
                    Page.DownloadICS
                    {| Page.title := lit "Revisit"; Page.content := None;
                       Page.timeDelay := lit "2months" |}
                    (fun _ => 1767225600000)
                    {| Page.selectedNumber := 2; Page.selectedUnit := lit "months";
                       Page.recentDelays := [lit "1weeks"; lit "2months"; lit "3years"] |}
                    _ _ eq_refl)).
Defined.

End Recents.

(** ** The file name of the download *)

Module Slug.
Import Js Consumer JsFacts.

Lemma isLowerAlnum_not_hyphen (c : ascii) :
  isLowerAlnum c = true -> Ascii.eqb c "-" = false.
Proof. each_char c; intros H; try discriminate H; reflexivity. Qed.

Lemma isLowerAlnum_isSlugChar (c : ascii) : isLowerAlnum c = true -> isSlugChar c = true.
Proof. unfold isSlugChar. now intros ->. Qed.

(** *** Collapsing the runs *)

Lemma collapseRuns_chars (inRun : bool) (s : jsstring) :
  Forall (fun c => isSlugChar c = true) (collapseRuns inRun s).
Proof.
  revert inRun. induction s as [|c rest IH]; intros inRun; simpl; [constructor |].
  destruct (isLowerAlnum c) eqn:E.
  - constructor; [now apply isLowerAlnum_isSlugChar | apply IH].
  - destruct inRun; [apply IH |]. constructor; [reflexivity | apply IH].
Qed.

Lemma collapseRuns_single (inRun : bool) (s : jsstring) :
  singleHyphens (collapseRuns inRun s) = true
  /\ (inRun = true -> hd "a"%char (collapseRuns inRun s) <> "-"%char).
Proof.
  revert inRun. induction s as [|c rest IH]; intros inRun.
  - simpl. split; [reflexivity | discriminate].
  - simpl. destruct (isLowerAlnum c) eqn:E.
    + pose proof (isLowerAlnum_not_hyphen c E) as Hc.
      destruct (IH false) as [Hs _]. split.
      * simpl. destruct (collapseRuns false rest); [reflexivity |].
        now rewrite Hc.
      * intros _. simpl. intros ->. discriminate Hc.
    + destruct inRun; [apply IH |].
      destruct (IH true) as [Hs Hh]. split; [| discriminate].
      simpl. destruct (collapseRuns true rest) as [|d more]; [reflexivity |].
      simpl in Hh. rewrite Hs, andb_true_r.
      destruct (Ascii.eqb_spec d "-"); [exfalso; now apply Hh | reflexivity].
Qed.

Lemma collapseRuns_length (inRun : bool) (s : jsstring) :
  (length (collapseRuns inRun s) <= length s)%nat.
Proof.
  revert inRun. induction s as [|c rest IH]; intros inRun; simpl; [lia |].
  destruct (isLowerAlnum c); [specialize (IH false); simpl; lia |].
  destruct inRun; specialize (IH true); simpl; lia.
Qed.

(** Only characters outside [a-z0-9] are dropped or replaced. *)
Lemma collapseRuns_keeps (inRun : bool) (s : jsstring) :
  filter isLowerAlnum (collapseRuns inRun s) = filter isLowerAlnum s.
Proof.
  revert inRun. induction s as [|c rest IH]; intros inRun; simpl; [reflexivity |].
  destruct (isLowerAlnum c) eqn:E.
  - simpl. rewrite E. f_equal. apply IH.
  - destruct inRun; [apply IH |]. simpl. apply IH.
Qed.

(** *** Stripping the edges *)

Lemma dropLastHyphen_nil (s : jsstring) :
  dropLastHyphen s = [] -> s = [] \/ s = ["-"%char].
Proof.
  destruct s as [|c [|d rest]]; simpl; auto.
  - destruct (Ascii.eqb_spec c "-"); [subst; auto | discriminate].
  - discriminate.
Qed.

Lemma dropLastHyphen_chars (P : ascii -> Prop) (s : jsstring) :
  Forall P s -> Forall P (dropLastHyphen s).
Proof.
  induction 1 as [|c rest Hc Hrest IH]; [constructor |].
  simpl. destruct rest as [|d more].
  - destruct (Ascii.eqb c "-"); auto.
  - constructor; assumption.
Qed.

Lemma dropLastHyphen_hd (s : jsstring) :
  hd "a"%char s <> "-"%char -> hd "a"%char (dropLastHyphen s) <> "-"%char.
Proof.
  destruct s as [|c [|d rest]]; simpl; auto.
  destruct (Ascii.eqb c "-"); simpl; auto. discriminate.
Qed.

Lemma dropLastHyphen_last (s : jsstring) :
  singleHyphens s = true -> last (dropLastHyphen s) "a"%char <> "-"%char.
Proof.
  induction s as [|c rest IH]; [discriminate |].
  destruct rest as [|d more].
  - intros _. simpl. destruct (Ascii.eqb_spec c "-"); simpl; [discriminate | assumption].
  - intros Hs. change (singleHyphens (c :: d :: more))
      with (negb (Ascii.eqb c "-" && Ascii.eqb d "-") && singleHyphens (d :: more)) in Hs.
    apply andb_true_iff in Hs. destruct Hs as [Hcd Hs]. specialize (IH Hs).
    change (dropLastHyphen (c :: d :: more)) with (c :: dropLastHyphen (d :: more)).
    destruct (dropLastHyphen (d :: more)) as [|x xs] eqn:E.
    + apply dropLastHyphen_nil in E. destruct E as [E | E]; [discriminate |].
      injection E as -> ->. simpl in Hcd. simpl.
      destruct (Ascii.eqb_spec c "-"); [discriminate | assumption].
    + exact IH.
Qed.

Lemma dropLastHyphen_single (s : jsstring) :
  singleHyphens s = true -> singleHyphens (dropLastHyphen s) = true.
Proof.
  induction s as [|c rest IH]; [reflexivity |].
  destruct rest as [|d more].
  - intros _. simpl. destruct (Ascii.eqb c "-"); reflexivity.
  - intros Hs. change (singleHyphens (c :: d :: more))
      with (negb (Ascii.eqb c "-" && Ascii.eqb d "-") && singleHyphens (d :: more)) in Hs.
    apply andb_true_iff in Hs. destruct Hs as [Hcd Hs]. specialize (IH Hs).
    change (dropLastHyphen (c :: d :: more)) with (c :: dropLastHyphen (d :: more)).
    destruct more as [|e more'].
    + simpl. destruct (Ascii.eqb d "-") eqn:Ed; simpl; [reflexivity |].
      now rewrite Ed, andb_false_r.
    + change (dropLastHyphen (d :: e :: more')) with (d :: dropLastHyphen (e :: more')) in *.
      change (singleHyphens (c :: d :: dropLastHyphen (e :: more')))
        with (negb (Ascii.eqb c "-" && Ascii.eqb d "-")
              && singleHyphens (d :: dropLastHyphen (e :: more'))).
      now rewrite Hcd, IH.
Qed.

Lemma dropLastHyphen_length (s : jsstring) :
  (length (dropLastHyphen s) <= length s)%nat.
Proof.
  induction s as [|c [|d more] IH]; simpl in *; try lia.
  destruct (Ascii.eqb c "-"); simpl; lia.
Qed.

Lemma dropLastHyphen_keeps (s : jsstring) :
  filter isLowerAlnum (dropLastHyphen s) = filter isLowerAlnum s.
Proof.
  induction s as [|c [|d more] IH]; [reflexivity | |].
  - simpl. destruct (Ascii.eqb_spec c "-"); [subst; reflexivity | reflexivity].
  - change (dropLastHyphen (c :: d :: more)) with (c :: dropLastHyphen (d :: more)).
    cbn [filter]. rewrite IH. reflexivity.
Qed.

Lemma singleHyphens_tail (c : ascii) (s : jsstring) :
  singleHyphens (c :: s) = true -> singleHyphens s = true.
Proof.
  destruct s as [|d more]; [reflexivity |].
  change (singleHyphens (c :: d :: more))
    with (negb (Ascii.eqb c "-" && Ascii.eqb d "-") && singleHyphens (d :: more)).
  intros H. apply andb_true_iff in H. tauto.
Qed.

Lemma singleHyphens_second (s : jsstring) :
  singleHyphens ("-"%char :: s) = true -> hd "a"%char s <> "-"%char.
Proof.
  destruct s as [|d more]; [discriminate |].
  change (singleHyphens ("-"%char :: d :: more))
    with (negb (Ascii.eqb "-" "-" && Ascii.eqb d "-") && singleHyphens (d :: more)).
  simpl. destruct (Ascii.eqb_spec d "-"); [discriminate | auto].
Qed.

Lemma stripEdgeHyphens_edges (s : jsstring) :
  singleHyphens s = true ->
  hd "a"%char (stripEdgeHyphens s) <> "-"%char
  /\ last (stripEdgeHyphens s) "a"%char <> "-"%char
  /\ singleHyphens (stripEdgeHyphens s) = true.
Proof.
  intros Hs. destruct s as [|c rest]; [repeat split; discriminate |].
  unfold stripEdgeHyphens. destruct (Ascii.eqb_spec c "-") as [-> | Hc].
  - pose proof (singleHyphens_tail _ _ Hs). repeat split.
    + apply dropLastHyphen_hd. now apply singleHyphens_second.
    + now apply dropLastHyphen_last.
    + now apply dropLastHyphen_single.
  - repeat split.
    + now apply dropLastHyphen_hd.
    + now apply dropLastHyphen_last.
    + now apply dropLastHyphen_single.
Qed.

Lemma stripEdgeHyphens_chars (P : ascii -> Prop) (s : jsstring) :
  Forall P s -> Forall P (stripEdgeHyphens s).
Proof.
  intros H. destruct s as [|c rest]; [constructor |].
  unfold stripEdgeHyphens. destruct (Ascii.eqb c "-").
  - apply dropLastHyphen_chars. now inversion H.
  - now apply dropLastHyphen_chars.
Qed.

Lemma stripEdgeHyphens_length (s : jsstring) :
  (length (stripEdgeHyphens s) <= length s)%nat.
Proof.
  destruct s as [|c rest]; [simpl; lia |].
  unfold stripEdgeHyphens. destruct (Ascii.eqb c "-").
  - pose proof (dropLastHyphen_length rest). simpl. lia.
  - apply dropLastHyphen_length.
Qed.

Lemma stripEdgeHyphens_keeps (s : jsstring) :
  filter isLowerAlnum (stripEdgeHyphens s) = filter isLowerAlnum s.
Proof.
  destruct s as [|c rest]; [reflexivity |].
  unfold stripEdgeHyphens. destruct (Ascii.eqb_spec c "-") as [-> | Hc].
  - rewrite dropLastHyphen_keeps. reflexivity.
  - apply dropLastHyphen_keeps.
Qed.

(** C6.  The name of the download is the prefix, the slug of the title
    and the suffix ".ics"; the slug is the title in lower case, cut to 30
    characters, with every run of characters outside [a-z0-9] replaced by one
    hyphen and the hyphens at the two ends removed.  So the slug only holds
    characters of [a-z0-9-], neither starts nor ends with a hyphen, has no two
    hyphens in a row, is at most 30 characters long, and keeps the characters
    of [a-z0-9] of the cut title as they are. *)
Theorem slug_of_title (data : Page.FormData) :
  let s := Page.slug (Page.title data) in
  Page.downloadName data = lit "recal-" ++ s ++ lit ".ics"
  /\ s = stripEdgeHyphens (hyphenate (slice0 30 (toLowerCase (Page.title data))))
  /\ Forall (fun c => isSlugChar c = true) s
  /\ hd "a"%char s <> "-"%char
  /\ last s "a"%char <> "-"%char
  /\ singleHyphens s = true
  /\ (length s <= 30)%nat
  /\ filter isLowerAlnum s
     = filter isLowerAlnum (slice0 30 (toLowerCase (Page.title data)))
  /\ Page.slug (lit "Revisit: My Decision!!") = lit "revisit-my-decision".
Proof.
  intros s. subst s. unfold Page.slug, hyphenate.
  set (cut := slice0 30 (toLowerCase (Page.title data))).
  destruct (collapseRuns_single false cut) as [Hs _].
  destruct (stripEdgeHyphens_edges _ Hs) as (Hh & Hl & Hss).
  split; [reflexivity |]. split; [reflexivity |].
  split; [apply stripEdgeHyphens_chars, collapseRuns_chars |].
  split; [exact Hh |]. split; [exact Hl |]. split; [exact Hss |].
  split; [| split; [| reflexivity]].
  - pose proof (stripEdgeHyphens_length (collapseRuns false cut)).
    pose proof (collapseRuns_length false cut).
    assert (length cut <= 30)%nat by apply firstn_le_length.
    lia.
  - now rewrite stripEdgeHyphens_keeps, collapseRuns_keeps.
Qed.

(** The download carries that name. *)
Lemma downloadICS_name (LocalTZA : Z -> Z)
      (addWeeks addMonths addYears : JsDate.Date -> Z -> JsDate.Date)
      (data : Page.FormData) (clock : Page.Clock) (st st' : Page.State)
      (effects : list Page.Effect) :
  Page.downloadICS LocalTZA addWeeks addMonths addYears data clock st
  = Some (st', effects) ->
  exists body,
    Page.generateICS LocalTZA addWeeks addMonths addYears data clock = Some body
    /\ hd_error effects = Some (Page.Download (Page.downloadName data) body).
Proof.
  unfold Page.downloadICS.
  destruct (Page.generateICS _ _ _ _ data clock) as [body |]; [| discriminate].
  intros [= <- <-]. eauto.
Qed.

End Slug.

(** ** Records, line ends and escapes of a calendar file *)

Module Records.
Import Js Consumer JsFacts DateFacts.

(** A joined list is every record but the last followed by the separator,
    and then the last record. *)
Lemma join_removelast (sep : jsstring) (records : list jsstring) :
  records <> [] ->
  join sep records
  = flat_map (fun r => r ++ sep) (removelast records) ++ last records [].
Proof.
  induction records as [|r [|r' more] IH]; intros Hne.
  - contradiction.
  - simpl. reflexivity.
  - change (join sep (r :: r' :: more)) with (r ++ sep ++ join sep (r' :: more)).
    rewrite IH by discriminate.
    change (removelast (r :: r' :: more)) with (r :: removelast (r' :: more)).
    change (last (r :: r' :: more) []) with (last (r' :: more) []).
    simpl flat_map. now rewrite <- !app_assoc.
Qed.

Lemma endsWith_app (p s : jsstring) : endsWith p (s ++ p) = true.
Proof.
  unfold endsWith. rewrite rev_app_distr.
  induction (rev p) as [|c r IH]; simpl; [reflexivity |].
  now rewrite Ascii.eqb_refl.
Qed.

(** *** Splitting at CRLF *)

Lemma splitCRLF_single (l : jsstring) : hasCRLF l = false -> splitCRLF l = [l].
Proof.
  induction l as [|c rest IH]; [reflexivity |].
  destruct rest as [|d more]; [reflexivity |].
  change (hasCRLF (c :: d :: more))
    with ((Ascii.eqb c CR && Ascii.eqb d LF) || hasCRLF (d :: more)).
  intros H. apply orb_false_iff in H. destruct H as [Hcd Hrest].
  change (splitCRLF (c :: d :: more))
    with (if Ascii.eqb c CR && Ascii.eqb d LF then [] :: splitCRLF more
          else consHead c (splitCRLF (d :: more))).
  rewrite Hcd, IH by assumption. reflexivity.
Qed.

Lemma splitCRLF_app (l s : jsstring) :
  hasCRLF l = false -> splitCRLF (l ++ CRLF ++ s) = l :: splitCRLF s.
Proof.
  induction l as [|c rest IH]; [reflexivity |].
  destruct rest as [|d more].
  - intros _. simpl app.
    change (splitCRLF (c :: CR :: LF :: s))
      with (if Ascii.eqb c CR && Ascii.eqb CR LF then [] :: splitCRLF (LF :: s)
            else consHead c (splitCRLF (CR :: LF :: s))).
    rewrite andb_false_r. reflexivity.
  - change (hasCRLF (c :: d :: more))
      with ((Ascii.eqb c CR && Ascii.eqb d LF) || hasCRLF (d :: more)).
    intros H. apply orb_false_iff in H. destruct H as [Hcd Hrest].
    change (splitCRLF ((c :: d :: more) ++ CRLF ++ s))
      with (if Ascii.eqb c CR && Ascii.eqb d LF
            then [] :: splitCRLF (more ++ CRLF ++ s)
            else consHead c (splitCRLF ((d :: more) ++ CRLF ++ s))).
    rewrite Hcd, IH by assumption. reflexivity.
Qed.

(** Records that hold no CRLF are what a reader splits the joined text
    into. *)
Lemma splitCRLF_join (records : list jsstring) :
  records <> [] -> Forall (fun r => hasCRLF r = false) records ->
  splitCRLF (join CRLF records) = records.
Proof.
  induction records as [|r [|r' more] IH]; intros Hne Hall.
  - contradiction.
  - simpl. apply splitCRLF_single. now inversion Hall.
  - change (join CRLF (r :: r' :: more)) with (r ++ CRLF ++ join CRLF (r' :: more)).
    inversion Hall as [|? ? Hr Hmore]; subst.
    rewrite splitCRLF_app by assumption.
    now rewrite IH by (assumption || discriminate).
Qed.

Lemma hasCRLF_no_LF (s : jsstring) :
  Forall (fun c => Ascii.eqb c LF = false) s -> hasCRLF s = false.
Proof.
  induction 1 as [|c rest Hc Hrest IH]; [reflexivity |].
  destruct rest as [|d more]; [reflexivity |].
  change (hasCRLF (c :: d :: more))
    with ((Ascii.eqb c CR && Ascii.eqb d LF) || hasCRLF (d :: more)).
  inversion Hrest as [|? ? Hd _]; subst.
  now rewrite Hd, andb_false_r, IH.
Qed.

Lemma hasCRLF_prefix (p s : jsstring) :
  Forall (fun c => Ascii.eqb c CR = false) p ->
  hasCRLF s = false -> hasCRLF (p ++ s) = false.
Proof.
  induction 1 as [|c rest Hc Hrest IH]; intros Hs; [assumption |].
  specialize (IH Hs). simpl app.
  destruct (rest ++ s) as [|d more] eqn:E; [reflexivity |].
  change (hasCRLF (c :: d :: more))
    with ((Ascii.eqb c CR && Ascii.eqb d LF) || hasCRLF (d :: more)).
  now rewrite Hc, IH.
Qed.

(** *** Escaping and restoring line feeds *)

Lemma escapeNewlines_cons (c : ascii) (s : jsstring) :
  escapeNewlines (c :: s)
  = (if Ascii.eqb c LF then [BACKSLASH; "n"%char] else [c]) ++ escapeNewlines s.
Proof. reflexivity. Qed.

Lemma escapeNewlines_app (a b : jsstring) :
  escapeNewlines (a ++ b) = escapeNewlines a ++ escapeNewlines b.
Proof. apply flat_map_app. Qed.

(** A text without line feeds is left as it is. *)
Lemma escapeNewlines_id (s : jsstring) :
  Forall (fun c => Ascii.eqb c LF = false) s -> escapeNewlines s = s.
Proof.
  induction 1 as [|c rest Hc _ IH]; [reflexivity |].
  rewrite escapeNewlines_cons, Hc, IH. reflexivity.
Qed.

Lemma escapeNewlines_no_LF (s : jsstring) :
  Forall (fun c => Ascii.eqb c LF = false) (escapeNewlines s).
Proof.
  induction s as [|c rest IH]; [constructor |].
  rewrite escapeNewlines_cons. destruct (Ascii.eqb c LF) eqn:E.
  - repeat constructor. exact IH.
  - constructor; assumption.
Qed.

Lemma unescapeNewlines_pair (s : jsstring) :
  unescapeNewlines (BACKSLASH :: "n"%char :: s) = LF :: unescapeNewlines s.
Proof. reflexivity. Qed.

Lemma unescapeNewlines_other (c : ascii) (s : jsstring) :
  (forall d r, s = d :: r -> Ascii.eqb c BACKSLASH && Ascii.eqb d "n" = false) ->
  unescapeNewlines (c :: s) = c :: unescapeNewlines s.
Proof.
  intros H. destruct s as [|d r]; [reflexivity |].
  change (unescapeNewlines (c :: d :: r))
    with (if Ascii.eqb c BACKSLASH && Ascii.eqb d "n" then LF :: unescapeNewlines r
          else c :: unescapeNewlines (d :: r)).
  now rewrite (H d r eq_refl).
Qed.

(** Restoring undoes escaping on a text that holds no backslash directly
    followed by the letter n. *)
Lemma unescape_escape (s : jsstring) :
  hasEscapedNewline s = false -> unescapeNewlines (escapeNewlines s) = s.
Proof.
  induction s as [|c rest IH]; [reflexivity |].
  intros H.
  assert (Hrest : hasEscapedNewline rest = false).
  { destruct rest as [|d more]; [reflexivity |].
    change (hasEscapedNewline (c :: d :: more))
      with ((Ascii.eqb c BACKSLASH && Ascii.eqb d "n") || hasEscapedNewline (d :: more)) in H.
    apply orb_false_iff in H. tauto. }
  specialize (IH Hrest). rewrite escapeNewlines_cons.
  destruct (Ascii.eqb_spec c LF) as [-> | Hc].
  - simpl app. rewrite unescapeNewlines_pair, IH. reflexivity.
  - simpl app. rewrite unescapeNewlines_other; [now rewrite IH |].
    intros d r E. destruct rest as [|x more]; [discriminate |].
    rewrite escapeNewlines_cons in E.
    change (hasEscapedNewline (c :: x :: more))
      with ((Ascii.eqb c BACKSLASH && Ascii.eqb x "n") || hasEscapedNewline (x :: more)) in H.
    apply orb_false_iff in H. destruct H as [Hcx _].
    destruct (Ascii.eqb_spec x LF) as [-> | Hx].
    + injection E as <- _. now rewrite andb_false_r.
    + injection E as <- _. exact Hcx.
Qed.

(** *** Reading a timestamp in basic format *)

Lemma parseInt_twoDigits (n : Z) : 0 <= n <= 99 -> parseInt (twoDigits n) = n.
Proof.
  intros Hn. unfold parseInt, twoDigits. cbn [fold_left].
  assert (0 <= n / 10 < 10) by (Z.to_euclidean_division_equations; lia).
  assert (0 <= n mod 10 < 10) by (Z.to_euclidean_division_equations; lia).
  rewrite !digitValue_digitChar by assumption.
  Z.to_euclidean_division_equations; lia.
Qed.

Lemma parseInt_fourDigits (n : Z) : 0 <= n <= 9999 -> parseInt (fourDigits n) = n.
Proof.
  intros Hn. unfold parseInt, fourDigits. cbn [fold_left].
  assert (0 <= n / 1000 < 10) by (Z.to_euclidean_division_equations; lia).
  assert (0 <= n / 100 mod 10 < 10) by (Z.to_euclidean_division_equations; lia).
  assert (0 <= n / 10 mod 10 < 10) by (Z.to_euclidean_division_equations; lia).
  assert (0 <= n mod 10 < 10) by (Z.to_euclidean_division_equations; lia).
  rewrite !digitValue_digitChar by assumption.
  Z.to_euclidean_division_equations; lia.
Qed.

(** Basic format holds the six fields and nothing else: it reads back. *)
Lemma readBasic_basicFormat (f : Fields) :
  0 <= year f <= 9999 -> 0 <= month f <= 99 -> 0 <= day f <= 99 ->
  0 <= hours f <= 99 -> 0 <= minutes f <= 99 -> 0 <= seconds f <= 99 ->
  readBasic (basicFormat f) = Some f.
Proof.
  intros Hy Hm Hd Hh Hn Hs. destruct f as [y m d h n s].
  cbn [year month day hours minutes seconds] in *.
  unfold basicFormat. cbn [year month day hours minutes seconds].
  pose proof (fourDigits_digits_all y Hy) as Fy.
  pose proof (parseInt_fourDigits y Hy) as Py.
  pose proof (parseInt_twoDigits m Hm) as Pm.
  pose proof (parseInt_twoDigits d Hd) as Pd.
  pose proof (parseInt_twoDigits h Hh) as Ph.
  pose proof (parseInt_twoDigits n Hn) as Pn.
  pose proof (parseInt_twoDigits s Hs) as Ps.
  pose proof (twoDigits_digits_all m Hm) as Fm.
  pose proof (twoDigits_digits_all d Hd) as Fd.
  pose proof (twoDigits_digits_all h Hh) as Fh.
  pose proof (twoDigits_digits_all n Hn) as Fn.
  pose proof (twoDigits_digits_all s Hs) as Fs.
  unfold fourDigits, twoDigits in *. simpl app. unfold readBasic.
  cbn [forallb] in *. rewrite Ascii.eqb_refl.
  repeat match goal with
         | H : _ && _ = true |- _ => apply andb_true_iff in H; destruct H
         end.
  repeat match goal with
         | H : isDigit _ = true |- _ => rewrite H; clear H
         end.
  cbn [andb]. now rewrite Py, Pm, Pd, Ph, Pn, Ps.
Qed.

End Records.

(** ** The calendar file: [generateICS] *)

Module CalendarFile.
Import Js JsDate Consumer JsFacts DateFacts Records.

(** *** The characters of the generated fields *)

Lemma digits_noLF (s : jsstring) :
  Forall (fun c => isDigit c = true) s -> Forall noLF s.
Proof.
  apply Forall_impl. intros c Hc. now apply isDigit_not_sep in Hc.
Qed.

Lemma intToString_noLF (n : Z) : Forall noLF (intToString n).
Proof.
  unfold intToString. destruct (Z.ltb_spec n 0).
  - constructor; [reflexivity |]. apply digits_noLF, decimal_digits. lia.
  - apply digits_noLF, decimal_digits. lia.
Qed.

Lemma numberToString_noLF (x : option Z) : Forall noLF (numberToString x).
Proof.
  destruct x as [n |]; [apply intToString_noLF |]. repeat constructor.
Qed.

Lemma padStart_noLF (k : nat) (s : jsstring) :
  Forall noLF s -> Forall noLF (padStart k "0" s).
Proof.
  intros H. unfold padStart. apply Forall_app. split; [| assumption].
  induction (k - length s)%nat; simpl; constructor; [reflexivity | assumption].
Qed.

Lemma removeMillis_Forall (P : ascii -> Prop) (s : jsstring) :
  Forall P s -> Forall P (removeMillis s).
Proof.
  induction 1 as [|c rest Hc Hrest IH]; [constructor |].
  cbn [removeMillis]. destruct (millisAtHead (c :: rest)).
  - destruct rest as [|? [|? [|? more]]]; simpl; try constructor.
    repeat match goal with H : Forall P (_ :: _) |- _ => inversion H; clear H; subst end.
    assumption.
  - constructor; assumption.
Qed.

Lemma stripIso_Forall (P : ascii -> Prop) (s : jsstring) :
  Forall P s -> Forall P (Page.stripIso s).
Proof.
  intros H. unfold Page.stripIso. apply removeMillis_Forall.
  unfold removeDashColon. rewrite Forall_forall in *. intros c Hc.
  apply filter_In in Hc. now apply H.
Qed.

Lemma isoYear_noLF (y : Z) : Forall noLF (isoYear y).
Proof.
  unfold isoYear. destruct ((0 <=? y) && (y <=? 9999)) eqn:E.
  - apply padStart_noLF, digits_noLF, decimal_digits.
    apply andb_true_iff in E. lia.
  - constructor; [destruct (y <? 0); reflexivity |].
    apply padStart_noLF, digits_noLF, decimal_digits. lia.
Qed.

Lemma toISOString_noLF (d : Date) (iso : jsstring) :
  toISOString d = Some iso -> Forall noLF iso.
Proof.
  destruct d as [t |]; [| discriminate]. intros [= <-].
  repeat first [ apply Forall_nil
               | apply Forall_cons; [reflexivity |]
               | apply isoYear_noLF
               | apply padStart_noLF
               | apply intToString_noLF
               | apply Forall_app; split ].
Qed.

Section File.

Variable LocalTZA : Z -> Z.
Variables addWeeks addMonths addYears : Date -> Z -> Date.

Local Abbreviation getEventDates := (Page.getEventDates addWeeks addMonths addYears).
Local Abbreviation formatDate := (Page.formatDate LocalTZA).
Local Abbreviation icsLines := (Page.icsLines LocalTZA addWeeks addMonths addYears).
Local Abbreviation generateICS := (Page.generateICS LocalTZA addWeeks addMonths addYears).
Local Abbreviation legacyLines := (Legacy.icsLines LocalTZA addWeeks addMonths addYears).
Local Abbreviation legacyICS := (Legacy.generateICS LocalTZA addWeeks addMonths addYears).
Local Abbreviation LocalTime := (JsDate.LocalTime LocalTZA).

Lemma formatDate_noLF (d : Date) : Forall noLF (formatDate d).
Proof.
  unfold Page.formatDate.
  repeat first [ apply Forall_nil
               | apply Forall_cons; [reflexivity |]
               | apply padStart_noLF
               | apply numberToString_noLF
               | apply Forall_app; split ].
Qed.

(** The records the page joins, with the fields it fills in. *)
Lemma icsLines_envelope (data : Page.FormData) (clock : Page.Clock)
      (records : list jsstring) :
  icsLines data clock = Some records ->
  exists iso,
    toISOString (newDate (clock 0%nat)) = Some iso
    /\ records
       = envelope (intToString (clock 1%nat) ++ lit "@recal.app")
                  (Page.stripIso iso)
                  (formatDate (fst (getEventDates data (clock 2%nat))))
                  (formatDate (snd (getEventDates data (clock 2%nat))))
                  (Page.title data)
                  (escapeNewlines (Page.contentOrEmpty data)).
Proof.
  unfold Page.icsLines.
  destruct (toISOString (newDate (clock 0%nat))) as [iso |]; [| discriminate].
  cbn [option_map]. destruct (Page.getEventDates _ _ _ data (clock 2%nat)) as [sd ed].
  intros [= <-]. exists iso. split; reflexivity.
Qed.

Lemma legacyLines_envelope (old : Legacy.FormData) (clock : Page.Clock)
      (records : list jsstring) :
  legacyLines old clock = Some records ->
  exists iso,
    toISOString (newDate (clock 0%nat)) = Some iso
    /\ records
       = envelope (intToString (clock 1%nat) ++ lit "@recal.app")
                  (Page.stripIso iso)
                  (formatDate (fst (Legacy.eventDates addWeeks addMonths addYears
                                                      old (clock 2%nat))))
                  (formatDate (snd (Legacy.eventDates addWeeks addMonths addYears
                                                      old (clock 2%nat))))
                  (Legacy.title old)
                  (escapeNewlines (Legacy.content old)).
Proof.
  unfold Legacy.icsLines.
  destruct (toISOString (newDate (clock 0%nat))) as [iso |]; [| discriminate].
  cbn [option_map].
  destruct (Legacy.eventDates _ _ _ old (clock 2%nat)) as [sd ed].
  intros [= <-]. exists iso. split; reflexivity.
Qed.

Lemma envelope_joined (uid stamp starts ends ttl text : jsstring) :
  let records := envelope uid stamp starts ends ttl text in
  join CRLF records
  = flat_map (fun r => r ++ CRLF) (removelast records) ++ lit "END:VCALENDAR"
  /\ endsWith CRLF (join CRLF records) = false
  /\ endsWith (lit "END:VCALENDAR") (join CRLF records) = true.
Proof.
  intros records.
  assert (E : join CRLF records
              = flat_map (fun r => r ++ CRLF) (removelast records)
                ++ lit "END:VCALENDAR")
    by (apply join_removelast; discriminate).
  split; [exact E |]. rewrite E. split.
  - unfold endsWith. rewrite rev_app_distr. reflexivity.
  - apply endsWith_app.
Qed.

(** C9, as amended.  The document is the records joined by CRLF: each of
    the thirteen records before the last is followed by CRLF, and the document
    ends with the last record, END:VCALENDAR, with no CRLF behind it, in the
    current page and in the earlier one. *)
Theorem records_joined_by_CRLF
        (data : Page.FormData) (old : Legacy.FormData) (clock : Page.Clock) :
  (forall doc,
      generateICS data clock = Some doc ->
      exists records,
        icsLines data clock = Some records
        /\ length records = 14%nat
        /\ doc = flat_map (fun r => r ++ CRLF) (removelast records)
                 ++ lit "END:VCALENDAR"
        /\ endsWith CRLF doc = false)
  /\ (forall doc,
        legacyICS old clock = Some doc ->
        exists records,
          legacyLines old clock = Some records
          /\ length records = 14%nat
          /\ doc = flat_map (fun r => r ++ CRLF) (removelast records)
                   ++ lit "END:VCALENDAR"
          /\ endsWith CRLF doc = false).
Proof.
  split; intros doc.
  - unfold Page.generateICS.
    destruct (icsLines data clock) as [records |] eqn:E; [| discriminate].
    intros [= <-]. exists records. split; [reflexivity |].
    destruct (icsLines_envelope data clock records E) as (iso & _ & ->).
    split; [reflexivity |]. split; apply envelope_joined.
  - unfold Legacy.generateICS.
    destruct (legacyLines old clock) as [records |] eqn:E; [| discriminate].
    intros [= <-]. exists records. split; [reflexivity |].
    destruct (legacyLines_envelope old clock records E) as (iso & _ & ->).
    split; [reflexivity |]. split; apply envelope_joined.
Qed.

(** *** The three timestamps *)

Lemma formatDate_fields (t : Z) :
  1000 <= YearFromTime (LocalTime t) <= 9999 ->
  formatDate (Some t) = basicFormat (fieldsOf (LocalTime t)).
Proof.
  intros Hy. pose proof (fieldsOf_bounds (LocalTime t)) as Hb.
  unfold fieldsOf in Hb. cbn [month day hours minutes seconds] in Hb.
  unfold Page.formatDate, getFullYear, getMonth, getDate, getHours, getMinutes,
    getSeconds, numAdd. cbn [option_map].
  rewrite !number_pad2 by lia.
  unfold numberToString, intToString.
  destruct (Z.ltb_spec (YearFromTime (LocalTime t)) 0); [lia |].
  rewrite decimal_fourDigits by lia. reflexivity.
Qed.

Lemma removeDashColon_digits (s : jsstring) :
  Forall (fun c => isDigit c = true) s -> removeDashColon s = s.
Proof.
  induction 1 as [|c rest Hc _ IH]; [reflexivity |].
  unfold removeDashColon in *. simpl.
  destruct (isDigit_not_sep c Hc) as (-> & -> & _). simpl. now rewrite IH.
Qed.

Lemma removeMillis_skip (l r : jsstring) :
  Forall (fun c => Ascii.eqb c "." = false) l ->
  removeMillis (l ++ r) = l ++ removeMillis r.
Proof.
  induction 1 as [|c rest Hc _ IH]; [reflexivity |].
  simpl app. cbn [removeMillis millisAtHead]. rewrite Hc. cbn [andb]. now rewrite IH.
Qed.

Lemma digits_no_dot (s : jsstring) :
  Forall (fun c => isDigit c = true) s -> Forall (fun c => Ascii.eqb c "." = false) s.
Proof.
  apply Forall_impl. intros c Hc. now apply isDigit_not_sep in Hc.
Qed.

(** The text of [toISOString] without its hyphens, colons and milliseconds. *)
Lemma stripIso_shape (Y M D h n s ms : jsstring) :
  Forall (fun c => isDigit c = true) Y -> Forall (fun c => isDigit c = true) M ->
  Forall (fun c => isDigit c = true) D -> Forall (fun c => isDigit c = true) h ->
  Forall (fun c => isDigit c = true) n -> Forall (fun c => isDigit c = true) s ->
  Forall (fun c => isDigit c = true) ms -> length ms = 3%nat ->
  Page.stripIso (Y ++ lit "-" ++ M ++ lit "-" ++ D ++ lit "T" ++ h ++ lit ":" ++ n
                 ++ lit ":" ++ s ++ lit "." ++ ms ++ lit "Z")
  = Y ++ M ++ D ++ lit "T" ++ h ++ n ++ s ++ lit "Z".
Proof.
  intros FY FM FD Fh Fn Fs Fms Lms. unfold Page.stripIso.
  assert (E : removeDashColon (Y ++ lit "-" ++ M ++ lit "-" ++ D ++ lit "T" ++ h
                               ++ lit ":" ++ n ++ lit ":" ++ s ++ lit "." ++ ms ++ lit "Z")
              = (Y ++ M ++ D ++ lit "T" ++ h ++ n ++ s) ++ lit "." ++ ms ++ lit "Z").
  { pose proof removeDashColon_digits as R. unfold removeDashColon in *.
    rewrite !filter_app.
    rewrite (R Y), (R M), (R D), (R h), (R n), (R s), (R ms) by assumption.
    cbn [lit list_ascii_of_string filter Ascii.eqb Bool.eqb orb negb app].
    repeat (rewrite <- app_assoc || rewrite <- app_comm_cons). reflexivity. }
  rewrite E, removeMillis_skip.
  - destruct ms as [|a [|b [|c [|? ?]]]]; try discriminate Lms.
    inversion Fms as [|? ? Ha F1]; subst. inversion F1 as [|? ? Hb F2]; subst.
    inversion F2 as [|? ? Hc _]; subst.
    cbn [lit list_ascii_of_string app removeMillis millisAtHead threeDigitsAhead
         Ascii.eqb Bool.eqb].
    rewrite Ha, Hb, Hc. cbn [andb skipn].
    repeat (rewrite <- app_assoc || rewrite <- app_comm_cons). reflexivity.
  - repeat (apply Forall_app; split); try (now apply digits_no_dot).
    repeat constructor.
Qed.

Lemma stripIso_fields (t : Z) :
  0 <= YearFromTime t <= 9999 ->
  option_map Page.stripIso (toISOString (Some t))
  = Some (basicFormat (fieldsOf t) ++ lit "Z").
Proof.
  intros Hy. rewrite toISOString_fields by assumption. cbn [option_map]. f_equal.
  pose proof (fieldsOf_bounds t) as Hb.
  rewrite stripIso_shape.
  - unfold basicFormat.
    repeat (rewrite <- app_assoc || rewrite <- app_comm_cons). reflexivity.
  - apply fourDigits_digits. exact Hy.
  - apply twoDigits_digits. lia.
  - apply twoDigits_digits. lia.
  - apply twoDigits_digits. lia.
  - apply twoDigits_digits. lia.
  - apply twoDigits_digits. lia.
  - apply threeDigits_digits. unfold msFromTime.
    pose proof (Z.mod_pos_bound t 1000). lia.
  - reflexivity.
Qed.

Lemma newDate_some (clock t : Z) : newDate clock = Some t -> t = clock.
Proof.
  unfold newDate, TimeClip. destruct (Z.abs clock <=? maxTime); congruence.
Qed.

Lemma readBasic_fieldsOf (t : Z) :
  0 <= YearFromTime t <= 9999 ->
  readBasic (basicFormat (fieldsOf t)) = Some (fieldsOf t).
Proof.
  intros Hy. pose proof (fieldsOf_bounds t) as Hb.
  apply readBasic_basicFormat; try lia. exact Hy.
Qed.

(** C3, as amended.  In the generated file, DTSTART and DTEND hold the
    calendar fields of the start and of the end in local time, in basic
    format [YYYYMMDDTHHMMSS] and nothing behind it (no "Z", no offset),
    whenever the start, respectively the end, is a valid date whose local
    year has four digits (1000 to 9999); DTSTAMP holds the fields of the
    creation instant in UTC, in basic format followed by "Z", whenever its UTC
    year lies from 0 to 9999.  Each text reads back as those fields, which
    name the instant (in local time, respectively in UTC) without its
    milliseconds. *)
Theorem ics_timestamps (data : Page.FormData) (clock : Page.Clock)
        (records : list jsstring) :
  icsLines data clock = Some records ->
  (0 <= YearFromTime (clock 0%nat) <= 9999 ->
   nth 7 records [] = lit "DTSTAMP:" ++ basicFormat (fieldsOf (clock 0%nat)) ++ lit "Z"
   /\ readBasic (basicFormat (fieldsOf (clock 0%nat))) = Some (fieldsOf (clock 0%nat))
   /\ instantOf (fieldsOf (clock 0%nat)) = clock 0%nat - msFromTime (clock 0%nat))
  /\ (forall s,
        fst (getEventDates data (clock 2%nat)) = Some s ->
        1000 <= YearFromTime (LocalTime s) <= 9999 ->
        nth 8 records [] = lit "DTSTART:" ++ basicFormat (fieldsOf (LocalTime s))
        /\ readBasic (basicFormat (fieldsOf (LocalTime s))) = Some (fieldsOf (LocalTime s))
        /\ instantOf (fieldsOf (LocalTime s)) = LocalTime s - msFromTime (LocalTime s))
  /\ (forall e,
        snd (getEventDates data (clock 2%nat)) = Some e ->
        1000 <= YearFromTime (LocalTime e) <= 9999 ->
        nth 9 records [] = lit "DTEND:" ++ basicFormat (fieldsOf (LocalTime e))
        /\ readBasic (basicFormat (fieldsOf (LocalTime e))) = Some (fieldsOf (LocalTime e))
        /\ instantOf (fieldsOf (LocalTime e)) = LocalTime e - msFromTime (LocalTime e)).
Proof.
  intros Hrec.
  destruct (icsLines_envelope data clock records Hrec) as (iso & Hiso & ->).
  cbn [envelope nth]. split; [| split].
  - intros Hnow.
    assert (Hstamp : Page.stripIso iso = basicFormat (fieldsOf (clock 0%nat)) ++ lit "Z").
    { destruct (newDate (clock 0%nat)) as [t |] eqn:En; [| discriminate].
      apply newDate_some in En. subst t.
      pose proof (stripIso_fields (clock 0%nat) Hnow) as H.
      rewrite Hiso in H. now injection H. }
    rewrite Hstamp.
    split; [reflexivity |]. split; [now apply readBasic_fieldsOf | apply instantOf_fieldsOf].
  - intros s -> Hs. rewrite formatDate_fields by assumption.
    split; [reflexivity |].
    split; [apply readBasic_fieldsOf; lia | apply instantOf_fieldsOf].
  - intros e -> He. rewrite formatDate_fields by assumption.
    split; [reflexivity |].
    split; [apply readBasic_fieldsOf; lia | apply instantOf_fieldsOf].
Qed.

(** *** Reading the file back *)

Lemma readICS_envelope (uid stamp starts ends ttl text : jsstring) :
  Forall noLF uid -> Forall noLF stamp -> Forall noLF starts -> Forall noLF ends ->
  hasCRLF ttl = false -> Forall noLF text ->
  readICS (join CRLF (envelope uid stamp starts ends ttl text))
  = {| summary := Some ttl;
       description := Some (unescapeNewlines text);
       dtstart := Some starts;
       dtend := Some ends |}.
Proof.
  intros Fu Fst Fs Fe Ht Fx. unfold readICS.
  rewrite splitCRLF_join.
  - reflexivity.
  - discriminate.
  - unfold envelope.
    repeat (constructor;
            [ first [ reflexivity
                    | apply hasCRLF_no_LF, Forall_app; split;
                      [repeat constructor | assumption]
                    | apply hasCRLF_prefix; [repeat constructor | assumption] ] | ]).
    constructor.
Qed.

(** DTSTART and DTEND are read from the ninth and the tenth record,
    whatever the title and the body hold: the records before the title hold
    no CRLF. *)
Lemma readICS_dates (uid stamp starts ends ttl text : jsstring) :
  Forall noLF uid -> Forall noLF stamp -> Forall noLF starts -> Forall noLF ends ->
  dtstart (readICS (join CRLF (envelope uid stamp starts ends ttl text))) = Some starts
  /\ dtend (readICS (join CRLF (envelope uid stamp starts ends ttl text))) = Some ends.
Proof.
  intros Fu Fst Fs Fe. unfold readICS, envelope. cbn [dtstart dtend join].
  do 10 (rewrite splitCRLF_app;
         [| first [ reflexivity
                  | apply hasCRLF_no_LF, Forall_app; split;
                    [repeat constructor | assumption] ] ]).
  split; reflexivity.
Qed.

(** What a reader finds in a timestamp the page wrote for a valid date
    whose local year has four digits: the fields of its local time. *)
Lemma readBasic_formatDate (t : Z) :
  1000 <= YearFromTime (LocalTime t) <= 9999 ->
  readBasic (formatDate (Some t)) = Some (fieldsOf (LocalTime t)).
Proof.
  intros Hy. rewrite formatDate_fields by assumption.
  apply readBasic_fieldsOf. lia.
Qed.

(** C4, as amended.  Reading the generated file gives back the title from
    SUMMARY when the title holds no CRLF; then it gives back from DESCRIPTION
    the written body with every backslash-n restored to a line feed, which is
    the body itself when it holds no backslash directly followed by the
    letter n.  Whatever the title and the body, when the start (the end) is a
    valid date whose local year has four digits, reading DTSTART (DTEND) as a
    timestamp in basic format gives back the fields of its local time,
    exactly; they name its local time to the second, and so the instant itself
    to the second once the offset of the zone at that instant is taken off:
    the file carries no milliseconds.  The body is written with each line feed
    replaced by backslash-n and no other change. *)
Theorem ics_round_trip (data : Page.FormData) (clock : Page.Clock) (doc : jsstring) :
  generateICS data clock = Some doc ->
  (hasCRLF (Page.title data) = false ->
   summary (readICS doc) = Some (Page.title data)
   /\ description (readICS doc)
      = Some (unescapeNewlines (escapeNewlines (Page.contentOrEmpty data)))
   /\ (hasEscapedNewline (Page.contentOrEmpty data) = false ->
       description (readICS doc) = Some (Page.contentOrEmpty data)))
  /\ (forall s,
        fst (getEventDates data (clock 2%nat)) = Some s ->
        1000 <= YearFromTime (LocalTime s) <= 9999 ->
        exists text fields,
          dtstart (readICS doc) = Some text
          /\ readBasic text = Some fields
          /\ fields = fieldsOf (LocalTime s)
          /\ instantOf fields = LocalTime s - msFromTime (LocalTime s)
          /\ instantOf fields - LocalTZA s = s - msFromTime (LocalTime s))
  /\ (forall e,
        snd (getEventDates data (clock 2%nat)) = Some e ->
        1000 <= YearFromTime (LocalTime e) <= 9999 ->
        exists text fields,
          dtend (readICS doc) = Some text
          /\ readBasic text = Some fields
          /\ fields = fieldsOf (LocalTime e)
          /\ instantOf fields = LocalTime e - msFromTime (LocalTime e)
          /\ instantOf fields - LocalTZA e = e - msFromTime (LocalTime e))
  /\ (exists records,
         icsLines data clock = Some records
         /\ nth 11 records []
            = lit "DESCRIPTION:" ++ escapeNewlines (Page.contentOrEmpty data)).
Proof.
  intros Hdoc. unfold Page.generateICS in Hdoc.
  destruct (icsLines data clock) as [records |] eqn:E; [| discriminate].
  injection Hdoc as <-.
  destruct (icsLines_envelope data clock records E) as (iso & Hiso & ->).
  assert (Fu : Forall noLF (intToString (clock 1%nat) ++ lit "@recal.app"))
    by (apply Forall_app; split; [apply intToString_noLF | repeat constructor]).
  assert (Fst : Forall noLF (Page.stripIso iso))
    by (apply stripIso_Forall; eapply toISOString_noLF; exact Hiso).
  destruct (readICS_dates _ _ _ _ (Page.title data)
              (escapeNewlines (Page.contentOrEmpty data)) Fu Fst
              (formatDate_noLF (fst (getEventDates data (clock 2%nat))))
              (formatDate_noLF (snd (getEventDates data (clock 2%nat)))))
    as [Hstart Hend].
  split; [| split; [| split]].
  - intros Ht. rewrite readICS_envelope;
      [ | assumption | assumption | apply formatDate_noLF | apply formatDate_noLF
        | assumption | apply escapeNewlines_no_LF ].
    cbn [summary description].
    split; [reflexivity |]. split; [reflexivity |].
    intros Hb. now rewrite unescape_escape.
  - intros s Hs Hy. rewrite Hstart, Hs. eexists. eexists.
    split; [reflexivity |]. split; [now apply readBasic_formatDate |].
    split; [reflexivity |].
    rewrite instantOf_fieldsOf. split; [reflexivity |].
    unfold JsDate.LocalTime. lia.
  - intros e He Hy. rewrite Hend, He. eexists. eexists.
    split; [reflexivity |]. split; [now apply readBasic_formatDate |].
    split; [reflexivity |].
    rewrite instantOf_fieldsOf. split; [reflexivity |].
    unfold JsDate.LocalTime. lia.
  - eexists. split; reflexivity.
Qed.

End File.

(** The hypothesis of [records_joined_by_CRLF] is met by a download on
    1 January 2026. *)
Lemma records_joined_by_CRLF_witness :
  exists doc records,
    OnUTC.generateICS (OnUTC.form "Revisit" None "3weeks") OnUTC.newYear = Some doc
    /\ OnUTC.icsLines (OnUTC.form "Revisit" None "3weeks") OnUTC.newYear = Some records
    /\ doc = flat_map (fun r => r ++ CRLF) (removelast records) ++ lit "END:VCALENDAR".
Proof.
  destruct (proj1 (records_joined_by_CRLF
                     DateFnsUTC.LocalTZA DateFnsUTC.addWeeks DateFnsUTC.addMonths
                     DateFnsUTC.addYears
                     (OnUTC.form "Revisit" None "3weeks")
                     (OnUTC.oldForm "Revisit" (lit "why") "3weeks")
                     OnUTC.newYear) _ eq_refl)
    as (records & H1 & _ & H3 & _).
  eexists. exists records. split; [reflexivity |]. split; assumption.
Defined.

(** C9 as stated fails: the generated document does not end with CRLF; its
    last characters are those of END:VCALENDAR. *)
Lemma records_joined_by_CRLF_counterexample :
  option_map (endsWith CRLF)
             (OnUTC.generateICS (OnUTC.form "Revisit" None "3weeks") OnUTC.newYear)
  = Some false
  /\ option_map (endsWith (lit "END:VCALENDAR"))
                (OnUTC.generateICS (OnUTC.form "Revisit" None "3weeks") OnUTC.newYear)
     = Some true
  /\ option_map (endsWith CRLF)
                (OnUTC.legacyICS (OnUTC.oldForm "Revisit" (lit "why") "3weeks")
                                 OnUTC.newYear)
     = Some false.
Proof. repeat split; vm_compute; reflexivity. Qed.

(** The hypotheses of [ics_timestamps] are met by a download at midnight
    UTC on 1 January 2026 with the token "3weeks", on a host five and a half
    hours ahead of UTC: DTSTAMP holds the fields of UTC, DTSTART and DTEND
    those of local time. *)
Lemma ics_timestamps_witness :
  exists records,
    OnEast.icsLines (OnUTC.form "Revisit" None "3weeks") OnUTC.newYear = Some records
    /\ nth 7 records [] = lit "DTSTAMP:20260101T000000Z"
    /\ nth 8 records [] = lit "DTSTART:20260122T053000"
    /\ nth 9 records [] = lit "DTEND:20260122T060000".
Proof.
  eexists. split; [vm_compute; reflexivity |].
  assert (Y1 : YearFromTime (LocalTime OnEast.LocalTZA 1769040000123) = 2026)
    by (vm_compute; reflexivity).
  assert (Y2 : YearFromTime (LocalTime OnEast.LocalTZA 1769041800123) = 2026)
    by (vm_compute; reflexivity).
  assert (Y3 : YearFromTime (OnUTC.newYear 0%nat) = 2026) by (vm_compute; reflexivity).
  destruct (ics_timestamps
              OnEast.LocalTZA OnEast.addWeeks OnEast.addMonths OnEast.addYears
              (OnUTC.form "Revisit" None "3weeks") OnUTC.newYear _ eq_refl)
    as (Hstamp & Hstart & Hend).
  destruct (Hstamp ltac:(rewrite Y3; lia)) as (H7 & _).
  destruct (Hstart 1769040000123 eq_refl ltac:(rewrite Y1; lia)) as (H8 & _).
  destruct (Hend 1769041800123 eq_refl ltac:(rewrite Y2; lia)) as (H9 & _).
  split; [exact H7 | split; [exact H8 | exact H9]].
Defined.

(** C3 as stated fails, on a host in UTC.  With the token "8000years" on
    1 January 2026 the start lies in the year 10026 and DTSTART holds sixteen
    characters, not [YYYYMMDDTHHMMSS]; with the token "14282792weeks" on
    2 January 2026 at 23:45 the end is the Invalid Date and DTEND holds no
    digits at all; a start in the year 999 is written with a year of three
    digits; a creation instant in the year 10000 is stamped with a sign and a
    year of six digits, and one in the year before the year 0 with a year of
    six digits, its sign removed with the hyphens. *)
Lemma ics_timestamps_counterexample :
  option_map (fun records => nth 8 records [])
             (OnUTC.icsLines (OnUTC.form "Revisit" None "8000years") OnUTC.newYear)
  = Some (lit "DTSTART:100260101T000000")
  /\ readBasic (lit "100260101T000000") = None
  /\ option_map (fun records => nth 9 records [])
                (OnUTC.icsLines (OnUTC.form "Revisit" None "14282792weeks")
                                (fun _ => 1767397500000))
     = Some (lit "DTEND:NaNNaNNaNTNaNNaNNaN")
  /\ option_map (fun records => nth 8 records [])
                (OnUTC.icsLines (OnUTC.form "Revisit" None "1weeks")
                                (fun _ => -30627504000000))
     = Some (lit "DTSTART:9990622T000000")
  /\ option_map (fun records => nth 7 records [])
                (OnUTC.icsLines (OnUTC.form "Revisit" None "1weeks")
                                (fun _ => 253402300800000))
     = Some (lit "DTSTAMP:+0100000101T000000Z")
  /\ option_map (fun records => nth 7 records [])
                (OnUTC.icsLines (OnUTC.form "Revisit" None "1weeks")
                                (fun _ => -62198755200000))
     = Some (lit "DTSTAMP:0000010101T000000Z").
Proof. repeat split; vm_compute; reflexivity. Qed.

(** The hypotheses of [ics_round_trip] are met by a body of two lines,
    downloaded at midnight UTC on 1 January 2026 on a host five and a half
    hours ahead of UTC: the start reads back as 22 January 2026, 05:30:00. *)
Lemma ics_round_trip_witness :
  exists doc,
    OnEast.generateICS (OnUTC.form "Revisit" (Some (lit "a" ++ [LF] ++ lit "b")) "3weeks")
                       OnUTC.newYear = Some doc
    /\ summary (readICS doc) = Some (lit "Revisit")
    /\ description (readICS doc) = Some (lit "a" ++ [LF] ++ lit "b")
    /\ option_map readBasic (dtstart (readICS doc))
       = Some (Some {| year := 2026; month := 1; day := 22;
                       hours := 5; minutes := 30; seconds := 0 |}).
Proof.
  eexists. split; [reflexivity |].
  assert (Y1 : YearFromTime (LocalTime OnEast.LocalTZA 1769040000123) = 2026)
    by (vm_compute; reflexivity).
  destruct (ics_round_trip
              OnEast.LocalTZA OnEast.addWeeks OnEast.addMonths OnEast.addYears
              (OnUTC.form "Revisit" (Some (lit "a" ++ [LF] ++ lit "b")) "3weeks")
              OnUTC.newYear _ eq_refl)
    as (Htitle & Hstart & _).
  destruct (Htitle eq_refl) as (H1 & _ & H2).
  destruct (Hstart 1769040000123 eq_refl ltac:(rewrite Y1; lia))
    as (text & fields & Ht & Hr & Hf & _).
  split; [exact H1 |]. split; [exact (H2 eq_refl) |].
  rewrite Ht. cbn [option_map]. rewrite Hr, Hf. vm_compute. reflexivity.
Defined.

(** C4 as stated fails, on a host in UTC.  A body that is a backslash
    followed by the letter n is written as it is, so it reads back as a line
    feed, and the document is the very one a body of a single line feed
    produces; a title that holds a CRLF reads back cut at it, and what
    follows the CRLF can pass for the body.  With the token
    "8000years" the text of DTSTART is no timestamp in basic format, nor is it
    for a start in the year 999, and with the token "14282792weeks" on
    2 January 2026 at 23:45 neither is that of DTEND.  And the milliseconds of the start are not in the file: a start
    123 ms after midnight reads back as midnight. *)
Lemma ics_round_trip_counterexample :
  option_map (fun doc => description (readICS doc))
             (OnUTC.generateICS (OnUTC.form "Revisit" (Some [BACKSLASH; "n"%char]) "3weeks")
                                OnUTC.newYear)
  = Some (Some [LF])
  /\ OnUTC.generateICS (OnUTC.form "Revisit" (Some [BACKSLASH; "n"%char]) "3weeks")
                       OnUTC.newYear
     = OnUTC.generateICS (OnUTC.form "Revisit" (Some [LF]) "3weeks") OnUTC.newYear
  /\ option_map (fun doc => summary (readICS doc))
                (OnUTC.generateICS
                   {| Page.title := lit "a" ++ CRLF ++ lit "b"; Page.content := None;
                      Page.timeDelay := lit "3weeks" |}
                   OnUTC.newYear)
     = Some (Some (lit "a"))
  /\ option_map (fun doc => description (readICS doc))
                (OnUTC.generateICS
                   {| Page.title := lit "a" ++ CRLF ++ lit "DESCRIPTION:x";
                      Page.content := Some (lit "b");
                      Page.timeDelay := lit "3weeks" |}
                   OnUTC.newYear)
     = Some (Some (lit "x"))
  /\ option_map (fun doc => option_map readBasic (dtstart (readICS doc)))
                (OnUTC.generateICS (OnUTC.form "Revisit" None "8000years") OnUTC.newYear)
     = Some (Some None)
  /\ option_map (fun doc => option_map readBasic (dtstart (readICS doc)))
                (OnUTC.generateICS (OnUTC.form "Revisit" None "1weeks")
                                   (fun _ => -30627504000000))
     = Some (Some None)
  /\ option_map (fun doc => option_map readBasic (dtend (readICS doc)))
                (OnUTC.generateICS (OnUTC.form "Revisit" None "14282792weeks")
                                   (fun _ => 1767397500000))
     = Some (Some None)
  /\ fst (OnUTC.getEventDates (OnUTC.form "Revisit" None "3weeks") 1767225600123)
     = Some 1769040000123
  /\ option_map (fun doc => option_map (option_map instantOf)
                                       (option_map readBasic (dtstart (readICS doc))))
                (OnUTC.generateICS (OnUTC.form "Revisit" None "3weeks") OnUTC.newYear)
     = Some (Some (Some 1769040000000)).
Proof. repeat split; vm_compute; reflexivity. Qed.

End CalendarFile.

(** ** Query strings and the two deep links *)

Module Links.
Import Js JsDate JsUrl Consumer Reader JsFacts DateFacts CalendarFile.

(** *** Percent-encoding reads back *)









(** *** Cutting at the separators *)






Lemma utf8_ascii (s : jsstring) :
  Forall (fun c => isAscii c = true) s -> utf8 s = s.
Proof.
  induction 1 as [|c rest Hc _ IH]; [reflexivity |].
  unfold utf8, isAscii in *. cbn [flat_map]. now rewrite Hc, IH.
Qed.

Lemma isDigit_ascii (c : ascii) : isDigit c = true -> isAscii c = true.
Proof. each_char c; intros H; try discriminate H; reflexivity. Qed.

Lemma basicFormat_ascii (t : Z) :
  0 <= YearFromTime t <= 9999 ->
  Forall (fun c => isAscii c = true) (basicFormat (fieldsOf t)).
Proof.
  intros Hy. pose proof (fieldsOf_bounds t) as Hb. unfold basicFormat.
  repeat (apply Forall_app; split);
    try (repeat constructor; fail);
    (eapply Forall_impl; [exact isDigit_ascii |]);
    first [ apply fourDigits_digits; exact Hy | apply twoDigits_digits; lia ].
Qed.

Lemma extendedFormat_ascii (t : Z) :
  0 <= YearFromTime t <= 9999 ->
  Forall (fun c => isAscii c = true) (extendedFormat (fieldsOf t)).
Proof.
  intros Hy. pose proof (fieldsOf_bounds t) as Hb. unfold extendedFormat.
  repeat (apply Forall_app; split);
    try (repeat constructor; fail);
    (eapply Forall_impl; [exact isDigit_ascii |]);
    first [ apply fourDigits_digits; exact Hy | apply twoDigits_digits; lia ].
Qed.



(** *** The values read back as text, and the characters of a query *)










Section Deep.

Variable LocalTZA : Z -> Z.
Variables addWeeks addMonths addYears : Date -> Z -> Date.
Variable formatLong : Date -> option jsstring.
Variables calendarSign dateSign timerSign memoSign : jsstring.

Local Abbreviation getEventDates := (Page.getEventDates addWeeks addMonths addYears).
Local Abbreviation googleUrl := (Page.googleUrl addWeeks addMonths addYears).
Local Abbreviation outlookUrls := (Page.outlookUrls addWeeks addMonths addYears).
Local Abbreviation run :=
  (Page.run LocalTZA addWeeks addMonths addYears formatLong
            calendarSign dateSign timerSign memoSign).



End Deep.





End Links.

(** ** The token of a selection: [updateTimeDelay] and [parseTimeDelay] *)

Module Tokens.
Import Js JsDate JsFacts RegexFacts Picker.

Lemma recognized_unitWord (unit : jsstring) : Consumer.recognized unit -> unitWord unit.
Proof.
  intros [-> | [-> | ->]]; (split; [discriminate | split]);
    try (repeat constructor); intros c r [= <- <-]; reflexivity.
Qed.

Lemma parseInt_nonneg (s : jsstring) :
  Forall (fun c => isDigit c = true) s -> 0 <= parseInt s.
Proof.
  unfold parseInt. intros Hall.
  assert (G : forall a, 0 <= a ->
            0 <= fold_left (fun acc c => 10 * acc + digitValue c) s a);
    [| apply G; lia].
  induction Hall as [|c rest Hc Hrest IH]; intros a Ha; cbn [fold_left];
    [assumption |].
  apply IH.
  unfold isDigit, between, digitValue in *.
  apply andb_true_iff in Hc. destruct Hc as [H1 H2].
  apply Z.leb_le in H1. apply Z.leb_le in H2. lia.
Qed.

Lemma regexMatch_update (n : Z) (unit : jsstring) :
  0 <= n -> unitWord unit ->
  regexMatch (Page.updateTimeDelay n unit) = Some (decimal n, unit).
Proof.
  intros Hn (Hne & Hw & Hd).
  unfold Page.updateTimeDelay, intToString.
  destruct (Z.ltb_spec n 0); [lia |].
  replace (decimal n ++ unit) with ([] ++ decimal n ++ unit ++ [])
    by (now rewrite app_nil_r).
  apply regexMatch_token; try assumption.
  - constructor.
  - apply decimal_nonempty.
  - now apply decimal_digits.
  - discriminate.
Qed.

Lemma parse_update (n : Z) (unit : jsstring) :
  0 <= n -> unitWord unit ->
  Page.parseTimeDelay (Page.updateTimeDelay n unit) = (n, unit).
Proof.
  intros Hn Hu. unfold Page.parseTimeDelay.
  rewrite (regexMatch_update n unit Hn Hu). cbv zeta.
  now rewrite parseInt_decimal.
Qed.

(** The first split of a greedy run: the whole run. *)
Lemma plusSplits_first (p : ascii -> bool) (s ws r : jsstring)
      (more : list (jsstring * jsstring)) :
  plusSplits p s = (ws, r) :: more ->
  Forall (fun c => p c = true) ws
  /\ (exists c ws', ws = c :: ws' /\ exists r', s = c :: r')
  /\ s = ws ++ r
  /\ (forall c r', r = c :: r' -> p c = false).
Proof.
  revert ws r more. induction s as [|c rest IH]; intros ws r more H; [discriminate |].
  simpl in H. destruct (p c) eqn:Hc; [| discriminate].
  destruct (plusSplits p rest) as [|[ws0 r0] more0] eqn:E.
  - simpl in H. injection H as <- <- <-.
    repeat split.
    + repeat constructor. assumption.
    + exists c, []. split; [reflexivity | now exists rest].
    + intros c' r' ->. apply (proj1 (plusSplits_nil_iff p _) E c' r' eq_refl).
  - simpl in H. injection H as <- <- <-.
    destruct (IH _ _ _ eq_refl) as (Hall & _ & Hs & Hr).
    repeat split.
    + constructor; assumption.
    + exists c, ws0. split; [reflexivity | now exists rest].
    + simpl. now f_equal.
    + assumption.
Qed.

(** What the second group of a match looks like: it does not begin with a
    digit, unless the first group had to give its last digit back, and then
    it is that digit alone. *)
Lemma matchHere_shape (s g1 g2 : jsstring) :
  matchHere s = Some (g1, g2) ->
  g1 <> [] /\ Forall (fun c => isDigit c = true) g1
  /\ g2 <> [] /\ Forall (fun c => isWord c = true) g2
  /\ ((forall c r, g2 = c :: r -> isDigit c = false)
      \/ exists d, g2 = [d] /\ isDigit d = true).
Proof.
  revert g1 g2. induction s as [|c rest IH]; intros g1 g2 H; [discriminate |].
  rewrite matchHere_cons in H.
  destruct (isDigit c) eqn:Hc; [| discriminate].
  destruct (matchHere rest) as [[h1 h2]|] eqn:E.
  - injection H as <- <-.
    destruct (IH _ _ eq_refl) as (_ & Hd & Hrest).
    split; [discriminate |]. split; [now constructor | exact Hrest].
  - destruct (plusSplits isWord rest) as [|[ws r] more] eqn:Ew; [discriminate |].
    injection H as <- <-.
    destruct (plusSplits_first _ _ _ _ _ Ew) as (Hall & (w & ws' & -> & r1 & ->) & Hs & Hr).
    split; [discriminate |]. split; [now repeat constructor |].
    split; [discriminate |]. split; [assumption |].
    destruct (isDigit w) eqn:Hw.
    + right. exists w. split; [| assumption].
      destruct ws' as [|w2 ws2]; [reflexivity |].
      exfalso. apply (proj1 (matchHere_none_iff _) E).
      simpl in Hs. injection Hs as ->.
      exists w, w2, (ws2 ++ r). repeat split; [assumption |].
      inversion Hall as [|? ? _ Hall']; subst. now inversion Hall'.
    + left. intros c0 r0 [= <- <-]. assumption.
Qed.

Lemma regexMatch_shape (s g1 g2 : jsstring) :
  regexMatch s = Some (g1, g2) ->
  g1 <> [] /\ Forall (fun c => isDigit c = true) g1
  /\ g2 <> [] /\ Forall (fun c => isWord c = true) g2
  /\ ((forall c r, g2 = c :: r -> isDigit c = false)
      \/ exists d, g2 = [d] /\ isDigit d = true).
Proof.
  induction s as [|c rest IH]; simpl.
  - discriminate.
  - destruct (matchHere (c :: rest)) as [[h1 h2]|] eqn:E.
    + intros [= <- <-]. now apply (matchHere_shape (c :: rest)).
    + exact IH.
Qed.

(** A run of digits and nothing else: the last digit is the second group. *)
Lemma matchHere_digits (ds : jsstring) (d : ascii) :
  ds <> [] -> Forall (fun c => isDigit c = true) ds -> isDigit d = true ->
  matchHere (ds ++ [d]) = Some (ds, [d]).
Proof.
  intros Hne Hall Hd.
  induction ds as [|c rest IH]; [contradiction |].
  inversion Hall as [|? ? Hc Hrest]; subst.
  simpl app. rewrite matchHere_cons, Hc.
  destruct rest as [|c' rest'].
  - simpl app. rewrite matchHere_cons, Hd. simpl.
    now rewrite (isDigit_isWord d Hd).
  - rewrite IH; [reflexivity | discriminate | assumption].
Qed.

(** X1.  [parseTimeDelay] undoes [updateTimeDelay]: the token built from a
    count (a non-negative integer that a number holds exactly) and a unit
    (characters of [\w], the first no digit) parses back into that count
    and that unit.  So a quick pick, and the selection read back on mount,
    are what was stored. *)
Theorem token_round_trip (n : Z) (unit : jsstring) :
  0 <= n <= maxSafe -> unitWord unit ->
  Page.parseTimeDelay (Page.updateTimeDelay n unit) = (n, unit).
Proof.
  intros [Hn _] Hu. now apply parse_update.
Qed.

Lemma token_round_trip_witness :
  0 <= 12 <= maxSafe /\ unitWord (lit "months")
  /\ Page.parseTimeDelay (Page.updateTimeDelay 12 (lit "months")) = (12, lit "months").
Proof.
  assert (Hn : 0 <= 12 <= maxSafe) by (unfold maxSafe; lia).
  assert (Hu : unitWord (lit "months"))
    by (apply recognized_unitWord; right; left; reflexivity).
  split; [exact Hn |]. split; [exact Hu |].
  exact (token_round_trip 12 (lit "months") Hn Hu).
Defined.

(** X2.  Parsing is stable under one more trip through the token: whatever
    text [parseTimeDelay] is given (a stored selection, a recent pick), the
    token [updateTimeDelay] builds from the count and the unit it returns
    parses into that same count and unit, as long as the count is one a
    number holds exactly.  This covers the texts without a match (the
    defaults 1 and "weeks") and those where the count gives its last digit
    to the unit ("007" is 0 and "7"). *)
Theorem reparse_stable (td : jsstring) :
  fst (Page.parseTimeDelay td) <= maxSafe ->
  Page.parseTimeDelay
    (Page.updateTimeDelay (fst (Page.parseTimeDelay td)) (snd (Page.parseTimeDelay td)))
  = Page.parseTimeDelay td.
Proof.
  intros _. unfold Page.parseTimeDelay at 2 3 4.
  destruct (regexMatch td) as [[g1 g2]|] eqn:E; cbv zeta; cbn [fst snd].
  - destruct (regexMatch_shape _ _ _ E) as (_ & Hd & Hne & Hw & Hshape).
    pose proof (parseInt_nonneg g1 Hd) as Hn.
    destruct Hshape as [Hhead | (d & -> & Hdig)].
    + apply parse_update; [assumption |]. now repeat split.
    + unfold Page.parseTimeDelay, Page.updateTimeDelay, intToString.
      destruct (Z.ltb_spec (parseInt g1) 0); [lia |].
      assert (M : regexMatch (decimal (parseInt g1) ++ [d])
                  = Some (decimal (parseInt g1), [d])).
      { pose proof (matchHere_digits (decimal (parseInt g1)) d
                      (decimal_nonempty _) (decimal_digits _ Hn) Hdig) as M.
        destruct (decimal (parseInt g1) ++ [d]) as [|c r] eqn:Ed; [discriminate M |].
        simpl. now rewrite M. }
      rewrite M. cbv zeta. now rewrite parseInt_decimal.
  - reflexivity.
Qed.

Lemma reparse_stable_witness :
  fst (Page.parseTimeDelay (lit "007")) <= maxSafe
  /\ Page.parseTimeDelay (lit "007") = (0, lit "7")
  /\ Page.parseTimeDelay
       (Page.updateTimeDelay (fst (Page.parseTimeDelay (lit "007")))
                             (snd (Page.parseTimeDelay (lit "007"))))
     = Page.parseTimeDelay (lit "007").
Proof.
  assert (H : fst (Page.parseTimeDelay (lit "007")) <= maxSafe)
    by (apply Z.leb_le; reflexivity).
  split; [exact H |]. split; [reflexivity |].
  exact (reparse_stable (lit "007") H).
Defined.

(** The token of a count and a single digit parses back as well: the
    run of digits gives its last digit to the unit. *)
Lemma parse_update_digit (n : Z) (d : ascii) :
  0 <= n -> isDigit d = true ->
  Page.parseTimeDelay (Page.updateTimeDelay n [d]) = (n, [d]).
Proof.
  intros Hn Hd. unfold Page.parseTimeDelay, Page.updateTimeDelay, intToString.
  destruct (Z.ltb_spec n 0); [lia |].
  assert (M : regexMatch (decimal n ++ [d]) = Some (decimal n, [d])).
  { pose proof (matchHere_digits (decimal n) d
                  (decimal_nonempty _) (decimal_digits _ Hn) Hd) as M.
    destruct (decimal n ++ [d]) as [|c r] eqn:Ed; [discriminate M |].
    simpl. now rewrite M. }
  rewrite M. cbv zeta. now rewrite parseInt_decimal.
Qed.

Lemma parse_update_shown (n : Z) (unit : jsstring) :
  0 <= n -> Reader.shownUnit unit ->
  Page.parseTimeDelay (Page.updateTimeDelay n unit) = (n, unit).
Proof.
  intros Hn [Hu | (d & -> & Hd)]; [now apply parse_update | now apply parse_update_digit].
Qed.

(** Whatever text it is given, [parseTimeDelay] returns a count that is
    not negative and a unit of one of the two kinds. *)
Lemma parseTimeDelay_shown (td : jsstring) :
  0 <= fst (Page.parseTimeDelay td) /\ Reader.shownUnit (snd (Page.parseTimeDelay td)).
Proof.
  unfold Page.parseTimeDelay.
  destruct (regexMatch td) as [[g1 g2]|] eqn:E; cbv zeta; cbn [fst snd].
  - destruct (regexMatch_shape _ _ _ E) as (_ & Hd & Hne & Hw & Hshape).
    split; [now apply parseInt_nonneg |].
    destruct Hshape as [Hhead | Hdigit]; [left; now repeat split | now right].
  - split; [lia |]. left. apply recognized_unitWord. now left.
Qed.

End Tokens.

(** ** The selection across events *)

Module Selection.
Import Js JsDate JsFacts RegexFacts Picker Tokens.

Lemma at_In {A : Type} (a : list A) (idx : Z) (x : A) : at_ a idx = Some x -> In x a.
Proof.
  unfold at_. destruct (idx <? 0); [discriminate |]. apply nth_error_In.
Qed.

Lemma orFirst_In {A : Type} (a : list A) (idx : Z) (x : A) :
  orFirst a idx = Some x -> In x a.
Proof.
  unfold orFirst. destruct (at_ a idx) as [y|] eqn:E.
  - intros [= <-]. now apply at_In with idx.
  - apply at_In.
Qed.

Lemma In_firstn_of {A : Type} (n : nat) (l : list A) (x : A) :
  In x (firstn n l) -> In x l.
Proof.
  intros H. rewrite <- (firstn_skipn n l). apply in_or_app. now left.
Qed.

Lemma Forall_firstn_of {A : Type} (P : A -> Prop) (n : nat) (l : list A) :
  Forall P l -> Forall P (firstn n l).
Proof.
  rewrite !Forall_forall. intros H x Hx. apply H. now apply In_firstn_of with n.
Qed.

Lemma wheelToken_parse (td : jsstring) :
  wheelToken td ->
  exists n unit, 1 <= n <= 9 /\ Consumer.recognized unit
                 /\ Page.parseTimeDelay td = (n, unit)
                 /\ Page.updateTimeDelay n unit = td.
Proof.
  intros (n & unit & Hn & Hu & ->). exists n, unit.
  repeat split; try assumption; try lia.
  apply parse_update; [lia | now apply recognized_unitWord].
Qed.

Lemma nextRecents_In (t x : jsstring) (prev : list jsstring) :
  In x (Page.nextRecents t prev) -> x = t \/ In x prev.
Proof.
  rewrite Recents.nextRecents_cons. intros [<- | H]; [now left |].
  right. apply In_firstn_of in H. now apply Recents.In_others in H.
Qed.

Lemma steps_invariant_on {V E : Type} (step : V -> E -> V)
      (Q : E -> Prop) (P : V -> Prop) :
  (forall v e, Q e -> P v -> P (step v e)) ->
  forall es v, Forall Q es -> P v -> P (fold_left step es v).
Proof.
  intros Hstep es. induction es as [|e es IH]; intros v HQ HP; [exact HP |].
  inversion HQ; subst. simpl. apply IH; [assumption |]. now apply Hstep.
Qed.

Section Home.

Variable LocalTZA : Z -> Z.
Variables addWeeks addMonths addYears : Date -> Z -> Date.
Variable formatLong : Date -> option jsstring.
Variables calendarSign dateSign timerSign memoSign : jsstring.

Local Abbreviation calendar := (Page.calendar addWeeks addMonths addYears).
Local Abbreviation getEventDates := (Page.getEventDates addWeeks addMonths addYears).
Local Abbreviation run :=
  (Page.run LocalTZA addWeeks addMonths addYears formatLong
            calendarSign dateSign timerSign memoSign).
Local Abbreviation onUnitChange := (Picker.onUnitChange addWeeks addMonths addYears).
Local Abbreviation handleSubmit :=
  (Picker.handleSubmit LocalTZA addWeeks addMonths addYears formatLong
                       calendarSign dateSign timerSign memoSign).
Local Abbreviation step :=
  (Picker.step LocalTZA addWeeks addMonths addYears formatLong
               calendarSign dateSign timerSign memoSign).
Local Abbreviation steps :=
  (Picker.steps LocalTZA addWeeks addMonths addYears formatLong
                calendarSign dateSign timerSign memoSign).

(** What a submission leaves of a view. *)
Lemma handleSubmit_view (a : Page.Action) (title : jsstring) (content : option jsstring)
      (clock : Page.Clock) (v v' : View) (effects : list Page.Effect) :
  handleSubmit a title content clock v = Some (v', effects) ->
  timeDelay v' = timeDelay v
  /\ Page.selectedNumber (state v') = Page.selectedNumber (state v)
  /\ Page.selectedUnit (state v') = Page.selectedUnit (state v)
  /\ (Page.recentDelays (state v') = Page.recentDelays (state v)
      \/ Page.recentDelays (state v')
         = Page.nextRecents (timeDelay v) (Page.recentDelays (state v))).
Proof.
  unfold Picker.handleSubmit. destruct title as [|c r].
  - intros [= <- <-]. repeat split; now left.
  - destruct (Page.run _ _ _ _ _ _ _ _ _ _ _ _ _) as [[st' eff]|] eqn:E; [| discriminate].
    intros [= <- <-]. simpl.
    destruct (Recents.run_updates_recents _ _ _ _ _ _ _ _ _ _ _ _ _ _ _ E)
      as (Hr & Hn & Hu & _).
    simpl in Hr. repeat split; try assumption. now right.
Qed.

Lemma calendar_recognized (u : jsstring * (Date -> Z -> Date)) :
  In u calendar -> Consumer.recognized (fst u).
Proof.
  intros [<- | [<- | [<- | []]]]; unfold Consumer.recognized; simpl; tauto.
Qed.

Lemma recognized_calendar (unit : jsstring) :
  Consumer.recognized unit -> exists f, In (unit, f) calendar.
Proof.
  intros [-> | [-> | ->]]; eexists; simpl; eauto.
Qed.

Lemma step_sync (v : View) (e : Event) :
  timeDelay v = lastToken (state v) ->
  timeDelay (step v e) = lastToken (state (step v e)).
Proof.
  intros Hv. destruct e as [last saved | idx | idx | i | a title content clock]; simpl.
  - assert (H : timeDelay (restoreLast last v) = lastToken (state (restoreLast last v))).
    { unfold restoreLast. destruct last as [[|c r]|]; reflexivity. }
    unfold mount. destruct saved; simpl; assumption.
  - reflexivity.
  - unfold Picker.onUnitChange. destruct (orFirst _ idx) as [u|]; [reflexivity | assumption].
  - destruct (nth_error _ i) as [td|]; [| assumption].
    unfold onPick. destruct (Page.parseTimeDelay td) as [number unit]. reflexivity.
  - destruct (Picker.handleSubmit _ _ _ _ _ _ _ _ _ _ _ _ _ _) as [[v' eff]|] eqn:E;
      [| assumption].
    destruct (handleSubmit_view _ _ _ _ _ _ _ E) as (Ht & Hn & Hu & _).
    unfold lastToken in *. now rewrite Ht, Hn, Hu.
Qed.

Lemma step_wheeled (v : View) (e : Event) :
  ownStorage e -> Wheeled v -> Wheeled (step v e).
Proof.
  intros He (Hn & Hu & Ht & Hr).
  destruct e as [last saved | idx | idx | i | a title content clock]; simpl.
  - destruct He as [Hlast Hsaved].
    assert (H : Wheeled (restoreLast last v)).
    { unfold restoreLast. destruct last as [[|c r]|].
      - view_parts.
      - destruct (wheelToken_parse _ Hlast) as (n & unit & Hn' & Hu' & -> & _).
        view_parts.
      - view_parts. }
    unfold mount. destruct saved as [| | | arr]; try exact H.
    destruct H as (Hn' & Hu' & Ht' & _).
    split; [exact Hn' |]. split; [exact Hu' |]. split; [exact Ht' |].
    unfold loadRecents, setRecentDelays. cbn [state Page.recentDelays].
    now apply Forall_firstn_of.
  - unfold onNumberChange.
    assert (Hnum : 1 <= match at_ numbers idx with Some n => n | None => 1 end <= 9).
    { destruct (at_ numbers idx) as [n|] eqn:E; [| lia].
      apply at_In in E. simpl in E. lia. }
    view_parts.
  - unfold Picker.onUnitChange. destruct (orFirst _ idx) as [u|] eqn:E.
    + apply orFirst_In, calendar_recognized in E.
      view_parts.
    + view_parts.
  - destruct (nth_error _ i) as [td|] eqn:E; [| view_parts].
    apply nth_error_In in E. rewrite Forall_forall in Hr.
    destruct (wheelToken_parse _ (Hr _ E)) as (n & unit & Hn' & Hu' & Hp & _).
    unfold onPick. rewrite Hp.
    repeat split; simpl; try assumption; try lia.
    now apply Forall_forall.
  - destruct (Picker.handleSubmit _ _ _ _ _ _ _ _ _ _ _ _ _ _) as [[v' eff]|] eqn:E;
      [| view_parts].
    destruct (handleSubmit_view _ _ _ _ _ _ _ E) as (Ht' & Hn' & Hu' & Hr').
    unfold Wheeled. rewrite Ht', Hn', Hu'. unfold lastToken. rewrite Hn', Hu'.
    repeat split; try assumption; try lia.
    destruct Hr' as [-> | ->]; [assumption |].
    apply Forall_forall. intros x Hx.
    destruct (nextRecents_In _ _ _ Hx) as [-> | Hin].
    + exists (Page.selectedNumber (state v)), (Page.selectedUnit (state v)).
      view_parts || lia.
    + rewrite Forall_forall in Hr. now apply Hr.
Qed.

Lemma initial_wheeled : Wheeled initial.
Proof.
  repeat split; simpl; try lia.
  - now left.
  - constructor.
Qed.

Lemma step_distinct (v : View) (e : Event) :
  distinctStorage e ->
  NoDup (Page.recentDelays (state v))
  /\ (length (Page.recentDelays (state v)) <= 3)%nat ->
  NoDup (Page.recentDelays (state (step v e)))
  /\ (length (Page.recentDelays (state (step v e))) <= 3)%nat.
Proof.
  intros He [Hd Hl].
  destruct e as [last saved | idx | idx | i | a title content clock]; simpl.
  - assert (H : Page.recentDelays (state (restoreLast last v))
                = Page.recentDelays (state v)).
    { unfold restoreLast. destruct last as [[|c r]|]; reflexivity. }
    unfold mount. destruct saved as [| | | arr];
      try (unfold loadRecents; rewrite H; split; assumption).
    unfold loadRecents, setRecentDelays. cbn [state Page.recentDelays].
    split; [now apply Recents.NoDup_firstn_of | apply firstn_le_length].
  - split; assumption.
  - unfold Picker.onUnitChange. destruct (orFirst _ idx); split; assumption.
  - destruct (nth_error _ i) as [td|]; [| split; assumption].
    unfold onPick. destruct (Page.parseTimeDelay td). split; assumption.
  - destruct (Picker.handleSubmit _ _ _ _ _ _ _ _ _ _ _ _ _ _) as [[v' eff]|] eqn:E;
      [| split; assumption].
    destruct (handleSubmit_view _ _ _ _ _ _ _ E) as (_ & _ & _ & [-> | ->]).
    + split; assumption.
    + split; [now apply Recents.nextRecents_NoDup | apply Recents.nextRecents_length].
Qed.

(** X3.  The form and the two wheels never drift apart.  From the first
    render on, after any sequence of events (mounting on any content of the
    storage, turning either wheel to any index, clicking a recent pick,
    submitting to any of the four handlers, whether it throws or not) the
    field [timeDelay] of the form is the text of [selectedNumber] followed
    by [selectedUnit]: what the page shows as the current selection, what
    the second effect stores under [LAST_KEY], and what a submission
    resolves are one token. *)
Theorem selection_in_sync (es : list Event) :
  timeDelay (steps initial es) = lastToken (state (steps initial es))
  /\ lastToken (state (steps initial es))
     = Page.updateTimeDelay (Page.selectedNumber (state (steps initial es)))
                            (Page.selectedUnit (state (steps initial es))).
Proof.
  split; [| reflexivity].
  unfold Picker.steps.
  apply (steps_invariant_on step (fun _ => True)
           (fun v => timeDelay v = lastToken (state v))).
  - intros v e _. apply step_sync.
  - apply Forall_forall. intros; exact I.
  - reflexivity.
Qed.

(** X4.  The wheels never reach the fallback.  From the first render, as
    long as the storage holds nothing but tokens of the wheels (which is all
    the page writes there from such views), every sequence of events leaves
    a number from 1 to 9, one of the three units, their token in the form,
    and tokens of the wheels among the recent picks; and a submission then
    starts the event at the date-fns function of the selected unit applied to
    the selected number, for any title and body. *)
Theorem wheels_never_fall_back (es : list Event) :
  Forall ownStorage es ->
  Wheeled (steps initial es)
  /\ exists f,
       In (Page.selectedUnit (state (steps initial es)), f) calendar
       /\ forall title content clock,
            fst (getEventDates {| Page.title := title; Page.content := content;
                                  Page.timeDelay := timeDelay (steps initial es) |}
                               clock)
            = f (newDate clock) (Page.selectedNumber (state (steps initial es))).
Proof.
  intros Hes.
  assert (W : Wheeled (steps initial es)).
  { unfold Picker.steps.
    apply (steps_invariant_on step ownStorage Wheeled); try assumption.
    - intros v e. apply step_wheeled.
    - apply initial_wheeled. }
  split; [exact W |].
  destruct W as (Hn & Hu & Ht & _).
  destruct (recognized_calendar _ Hu) as [f Hf].
  exists f. split; [exact Hf |].
  intros title content clock.
  apply Resolver.canonical_token with (unit := Page.selectedUnit (state (steps initial es)));
    [lia | exact Ht | exact Hf].
Qed.

(** X5.  The recent picks stay a list of at most three distinct tokens
    through every sequence of events, as long as no array with a repeated
    entry comes in from the storage; so the buttons of the quick picks have
    distinct keys. *)
Theorem recent_picks_stay_distinct (es : list Event) :
  Forall distinctStorage es ->
  NoDup (Page.recentDelays (state (steps initial es)))
  /\ (length (Page.recentDelays (state (steps initial es))) <= 3)%nat.
Proof.
  intros Hes. unfold Picker.steps.
  apply (steps_invariant_on step distinctStorage
           (fun v => NoDup (Page.recentDelays (state v))
                     /\ (length (Page.recentDelays (state v)) <= 3)%nat));
    try assumption.
  - intros v e. apply step_distinct.
  - split; [constructor | simpl; lia].
Qed.

End Home.

(** X6.  The selection survives a reload.  What the second effect stores
    under [LAST_KEY] for a selection (a count a number holds exactly, a unit
    of characters of [\w] that does not begin with a digit) is read back by
    the mount effect as that number and that unit, and the form gets the
    same token again; the recent picks are left alone. *)
Theorem last_selection_restored (st : Page.State) (v : View) :
  0 <= Page.selectedNumber st <= maxSafe ->
  unitWord (Page.selectedUnit st) ->
  Page.selectedNumber (state (restoreLast (Some (lastToken st)) v)) = Page.selectedNumber st
  /\ Page.selectedUnit (state (restoreLast (Some (lastToken st)) v)) = Page.selectedUnit st
  /\ timeDelay (restoreLast (Some (lastToken st)) v) = lastToken st
  /\ Page.recentDelays (state (restoreLast (Some (lastToken st)) v))
     = Page.recentDelays (state v).
Proof.
  intros [Hn _] Hu.
  pose proof (parse_update _ _ Hn Hu) as Hp.
  unfold restoreLast, lastToken.
  fold (Page.updateTimeDelay (Page.selectedNumber st) (Page.selectedUnit st)).
  destruct (Page.updateTimeDelay (Page.selectedNumber st) (Page.selectedUnit st))
    as [|c r] eqn:E.
  - exfalso. unfold Page.updateTimeDelay, intToString in E.
    destruct (Page.selectedNumber st <? 0); [discriminate E |].
    apply app_eq_nil in E. now apply (decimal_nonempty (Page.selectedNumber st)).
  - rewrite Hp. repeat split. exact E.
Qed.

Lemma last_selection_restored_witness :
  exists st v,
    0 <= Page.selectedNumber st <= maxSafe
    /\ unitWord (Page.selectedUnit st)
    /\ state (restoreLast (Some (lastToken st)) v)
       = {| Page.selectedNumber := 7; Page.selectedUnit := lit "years";
            Page.recentDelays := [lit "2months"] |}.
Proof.
  exists {| Page.selectedNumber := 7; Page.selectedUnit := lit "years";
            Page.recentDelays := [] |}.
  exists {| state := {| Page.selectedNumber := 1; Page.selectedUnit := lit "weeks";
                        Page.recentDelays := [lit "2months"] |};
            timeDelay := lit "1weeks" |}.
  assert (Hn : 0 <= 7 <= maxSafe) by (unfold maxSafe; lia).
  assert (Hu : unitWord (lit "years"))
    by (apply recognized_unitWord; right; right; reflexivity).
  split; [exact Hn |]. split; [exact Hu |].
  pose proof (last_selection_restored
                {| Page.selectedNumber := 7; Page.selectedUnit := lit "years";
                   Page.recentDelays := [] |}
                {| state := {| Page.selectedNumber := 1; Page.selectedUnit := lit "weeks";
                               Page.recentDelays := [lit "2months"] |};
                   timeDelay := lit "1weeks" |} Hn Hu) as (H1 & H2 & _ & H4).
  destruct (state _) as [n u r]. simpl in H1, H2, H4. now subst.
Defined.

(** A session on a host in UTC: the wheels, a download, a quick pick and a
    mount on what the page stored. *)
Lemma wheels_never_fall_back_witness :
  exists es,
    Forall ownStorage es
    /\ Wheeled (Picker.steps DateFnsUTC.LocalTZA DateFnsUTC.addWeeks DateFnsUTC.addMonths
                             DateFnsUTC.addYears (fun _ => None) [] [] [] [] initial es)
    /\ state (Picker.steps DateFnsUTC.LocalTZA DateFnsUTC.addWeeks DateFnsUTC.addMonths
                           DateFnsUTC.addYears (fun _ => None) [] [] [] [] initial es)
       = {| Page.selectedNumber := 3; Page.selectedUnit := lit "years";
            Page.recentDelays := [lit "2weeks"; lit "3months"] |}.
Proof.
  exists [ NumberWheel 2; UnitWheel 1;
           Submit Page.DownloadICS (lit "Review") None OnUTC.newYear;
           NumberWheel 1; UnitWheel 0;
           Submit Page.AddToGoogleCalendar (lit "Review") None OnUTC.newYear;
           QuickPick 1%nat;
           Mount (Some (lit "3years")) (Strings [lit "2weeks"; lit "3months"]) ].
  assert (H : Forall ownStorage
                [ NumberWheel 2; UnitWheel 1;
                  Submit Page.DownloadICS (lit "Review") None OnUTC.newYear;
                  NumberWheel 1; UnitWheel 0;
                  Submit Page.AddToGoogleCalendar (lit "Review") None OnUTC.newYear;
                  QuickPick 1%nat;
                  Mount (Some (lit "3years")) (Strings [lit "2weeks"; lit "3months"]) ]).
  { repeat (constructor; [exact I |]).
    constructor; [| constructor]. split.
    - exists 3, (lit "years"). repeat split; try lia. right; right; reflexivity.
    - constructor; [exists 2, (lit "weeks") | constructor; [exists 3, (lit "months") | constructor]];
        repeat split; try lia; [left | right; left]; reflexivity. }
  split; [exact H |].
  pose proof (wheels_never_fall_back DateFnsUTC.LocalTZA DateFnsUTC.addWeeks
                DateFnsUTC.addMonths DateFnsUTC.addYears (fun _ => None) [] [] [] []
                _ H) as [W _].
  split; [exact W |]. vm_compute. reflexivity.
Defined.

Lemma recent_picks_stay_distinct_witness :
  exists es,
    Forall distinctStorage es
    /\ NoDup (Page.recentDelays
                (state (Picker.steps DateFnsUTC.LocalTZA DateFnsUTC.addWeeks
                                     DateFnsUTC.addMonths DateFnsUTC.addYears
                                     (fun _ => None) [] [] [] [] initial es)))
    /\ Page.recentDelays
         (state (Picker.steps DateFnsUTC.LocalTZA DateFnsUTC.addWeeks DateFnsUTC.addMonths
                              DateFnsUTC.addYears (fun _ => None) [] [] [] [] initial es))
       = [lit "1weeks"; lit "5years"; lit "2months"].
Proof.
  exists [ Mount None (Strings [lit "5years"; lit "2months"; lit "1weeks"; lit "9weeks"]);
           Submit Page.AddToOutlook (lit "Review") (Some (lit "notes")) OnUTC.newYear ].
  assert (H : Forall distinctStorage
                [ Mount None (Strings [lit "5years"; lit "2months"; lit "1weeks";
                                       lit "9weeks"]);
                  Submit Page.AddToOutlook (lit "Review") (Some (lit "notes"))
                         OnUTC.newYear ]).
  { constructor; [| constructor; [exact I | constructor]].
    simpl. repeat (constructor; [simpl; intuition discriminate |]). constructor. }
  split; [exact H |].
  pose proof (recent_picks_stay_distinct DateFnsUTC.LocalTZA DateFnsUTC.addWeeks
                DateFnsUTC.addMonths DateFnsUTC.addYears (fun _ => None) [] [] [] []
                _ H) as [D _].
  split; [exact D |]. vm_compute. reflexivity.
Defined.

End Selection.

(** ** The handlers on a date that cannot be held *)

Module Handlers.
Import Js JsDate JsFacts Consumer Picker Tokens.

Lemma toISOString_none (d : Date) : toISOString d = None <-> d = None.
Proof.
  destruct d as [t|]; simpl; split; intros H; congruence.
Qed.

Section Home.

Variable LocalTZA : Z -> Z.
Variables addWeeks addMonths addYears : Date -> Z -> Date.
Variable formatLong : Date -> option jsstring.
Variables calendarSign dateSign timerSign memoSign : jsstring.

Local Abbreviation getEventDates := (Page.getEventDates addWeeks addMonths addYears).
Local Abbreviation formatDate := (Page.formatDate LocalTZA).
Local Abbreviation icsLines := (Page.icsLines LocalTZA addWeeks addMonths addYears).
Local Abbreviation generateICS := (Page.generateICS LocalTZA addWeeks addMonths addYears).
Local Abbreviation downloadICS := (Page.downloadICS LocalTZA addWeeks addMonths addYears).
Local Abbreviation addToGoogleCalendar :=
  (Page.addToGoogleCalendar addWeeks addMonths addYears).
Local Abbreviation addToOutlook := (Page.addToOutlook addWeeks addMonths addYears).
Local Abbreviation handleSubmit :=
  (Picker.handleSubmit LocalTZA addWeeks addMonths addYears formatLong
                       calendarSign dateSign timerSign memoSign).

Lemma invalid_start_invalid_end (data : Page.FormData) (clock : Z) :
  fst (getEventDates data clock) = None -> snd (getEventDates data clock) = None.
Proof.
  intros H. rewrite Resolver.endDate_of_startDate, H. reflexivity.
Qed.

Lemma formatDate_invalid : formatDate None = lit "NaNNaNNaNTNaNNaNNaN".
Proof. reflexivity. Qed.

(** X7.  The two deep links and a date that cannot be held.  Each of
    [addToGoogleCalendar] and [addToOutlook] throws (the [RangeError] of
    [toISOString]) exactly when the end it resolved is the Invalid Date,
    which includes every case of an invalid start; it then opens no tab,
    shows no toast and leaves the recent picks alone.  In every other case
    it returns. *)
Theorem links_throw_iff_invalid_end (data : Page.FormData) (clock : Page.Clock)
        (st : Page.State) :
  (addToGoogleCalendar data clock st = None
   <-> snd (getEventDates data (clock 0%nat)) = None)
  /\ (addToOutlook data clock st = None
      <-> snd (getEventDates data (clock 0%nat)) = None)
  /\ (fst (getEventDates data (clock 0%nat)) = None
      -> snd (getEventDates data (clock 0%nat)) = None).
Proof.
  pose proof (invalid_start_invalid_end data (clock 0%nat)) as Hse.
  unfold Page.addToGoogleCalendar, Page.addToOutlook, Page.googleUrl, Page.outlookUrls,
    Page.formatGoogleDate, Page.formatOutlookDate.
  destruct (getEventDates data (clock 0%nat)) as [s e]. simpl in *.
  split; [| split; [| exact Hse]].
  - destruct s as [s|], e as [e|]; simpl; split; intros H;
      try discriminate H; try reflexivity.
    now discriminate Hse.
  - destruct s as [s|], e as [e|]; simpl; split; intros H;
      try discriminate H; try reflexivity.
    now discriminate Hse.
Qed.

(** X8.  The download and a date that cannot be held.  Whenever the clock
    shows a time a [Date] can hold, [downloadICS] returns, for every title,
    body and token: it downloads the file of [generateICS] under the name of
    the slug, shows its toast and stores the recent picks, in that order.  A
    start or an end that is the Invalid Date does not stop it: the file then
    carries the text "NaNNaNNaNTNaNNaNNaN" as its DTSTART or DTEND. *)
Theorem download_survives_invalid_date (data : Page.FormData) (clock : Page.Clock)
        (st : Page.State) :
  Z.abs (clock 0%nat) <= maxTime ->
  exists records,
    icsLines data clock = Some records
    /\ downloadICS data clock st
       = Some (fst (Page.updateRecents (Page.timeDelay data) st),
               [ Page.Download (Page.downloadName data) (join CRLF records);
                 Page.ToastSuccess (lit "Calendar file downloaded! Works with Apple Calendar, Outlook desktop, and other calendar apps.");
                 Page.StoreRecents
                   (Page.nextRecents (Page.timeDelay data) (Page.recentDelays st)) ])
    /\ (fst (getEventDates data (clock 2%nat)) = None ->
        nth 8 records [] = lit "DTSTART:NaNNaNNaNTNaNNaNNaN")
    /\ (snd (getEventDates data (clock 2%nat)) = None ->
        nth 9 records [] = lit "DTEND:NaNNaNNaNTNaNNaNNaN").
Proof.
  intros Hc.
  unfold Page.downloadICS, Page.generateICS, Page.icsLines.
  unfold newDate, TimeClip.
  destruct (Z.leb_spec (Z.abs (clock 0%nat)) maxTime) as [_ | Hgt]; [| lia].
  cbn [toISOString option_map].
  destruct (getEventDates data (clock 2%nat)) as [s e].
  eexists. split; [reflexivity |]. split; [reflexivity |].
  cbn [fst snd nth]. split; intros ->; reflexivity.
Qed.

End Home.

(** On a host in UTC, the token "14282792weeks" read 15 minutes before the
    last instant a [Date] can hold: the end is the Invalid Date. *)
Lemma download_survives_invalid_date_witness :
  Z.abs 1767397500000 <= maxTime
  /\ snd (OnUTC.getEventDates (OnUTC.form "Revisit" None "14282792weeks") 1767397500000)
     = None
  /\ exists records,
       OnUTC.icsLines (OnUTC.form "Revisit" None "14282792weeks")
                      (fun _ => 1767397500000) = Some records
       /\ nth 9 records [] = lit "DTEND:NaNNaNNaNTNaNNaNNaN".
Proof.
  assert (Hc : Z.abs 1767397500000 <= maxTime) by (apply Z.leb_le; reflexivity).
  assert (He : snd (OnUTC.getEventDates (OnUTC.form "Revisit" None "14282792weeks")
                                        1767397500000) = None)
    by (vm_compute; reflexivity).
  split; [exact Hc |]. split; [exact He |].
  destruct (download_survives_invalid_date
              DateFnsUTC.LocalTZA DateFnsUTC.addWeeks DateFnsUTC.addMonths
              DateFnsUTC.addYears
              (OnUTC.form "Revisit" None "14282792weeks")
              (fun _ => 1767397500000)
              {| Page.selectedNumber := 1; Page.selectedUnit := lit "weeks";
                 Page.recentDelays := [] |} Hc)
    as (records & Hl & _ & _ & Hend).
  exists records. split; [exact Hl | exact (Hend He)].
Defined.

End Handlers.

(** ** The earlier page and the current one *)

Module Versions.
Import Js JsDate JsFacts Consumer Records CalendarFile.

Section Home.

Variable LocalTZA : Z -> Z.
Variables addWeeks addMonths addYears : Date -> Z -> Date.

Local Abbreviation icsLines := (Page.icsLines LocalTZA addWeeks addMonths addYears).
Local Abbreviation generateICS := (Page.generateICS LocalTZA addWeeks addMonths addYears).
Local Abbreviation downloadICS := (Page.downloadICS LocalTZA addWeeks addMonths addYears).
Local Abbreviation legacyICS := (Legacy.generateICS LocalTZA addWeeks addMonths addYears).
Local Abbreviation onSubmit := (LegacyView.onSubmit LocalTZA addWeeks addMonths addYears).
Local Abbreviation previewDate := (LegacyView.previewDate addWeeks addMonths addYears).
Local Abbreviation eventDates := (Legacy.eventDates addWeeks addMonths addYears).

(** X9.  The current page writes the file the earlier page wrote.  On the
    same values of the form and the same readings of the clock,
    [generateICS] of the earlier page and of the current page give the same
    text (or both throw), and [onSubmit] of the earlier page downloads what
    [downloadICS] downloads, under the same name; the earlier page shows
    another toast and keeps no recent picks. *)
Theorem earlier_page_same_file (old : Legacy.FormData) (clock : Page.Clock)
        (st : Page.State) :
  legacyICS old clock = generateICS (LegacyView.asCurrent old) clock
  /\ onSubmit old clock
     = option_map
         (fun r => firstn 1 (snd r)
                   ++ [Page.ToastSuccess (lit "Calendar reminder created!")])
         (downloadICS (LegacyView.asCurrent old) clock st).
Proof.
  assert (E : legacyICS old clock = generateICS (LegacyView.asCurrent old) clock).
  { unfold Legacy.generateICS, Page.generateICS, Legacy.icsLines, Page.icsLines.
    rewrite (Resolver.eventDates_getEventDates addWeeks addMonths addYears old
               (LegacyView.asCurrent old) (clock 2%nat) eq_refl).
    reflexivity. }
  split; [exact E |].
  unfold LegacyView.onSubmit, Page.downloadICS. rewrite E.
  destruct (generateICS (LegacyView.asCurrent old) clock) as [body|]; reflexivity.
Qed.

(** X10.  The body cannot add a record to the file.  Whatever the body
    holds (line feeds, carriage returns, the text of a record), the file
    of a title without CRLF splits at its CRLFs into exactly the 14 records
    the page joined, the body inside the twelfth. *)
Theorem body_cannot_add_records (data : Page.FormData) (clock : Page.Clock)
        (doc : jsstring) :
  hasCRLF (Page.title data) = false ->
  generateICS data clock = Some doc ->
  exists records,
    icsLines data clock = Some records
    /\ splitCRLF doc = records
    /\ length records = 14%nat
    /\ nth 11 records []
       = lit "DESCRIPTION:" ++ escapeNewlines (Page.contentOrEmpty data).
Proof.
  intros Ht Hdoc. unfold Page.generateICS in Hdoc.
  destruct (icsLines data clock) as [records|] eqn:El; [| discriminate].
  injection Hdoc as <-.
  destruct (icsLines_envelope LocalTZA addWeeks addMonths addYears _ _ _ El)
    as (iso & Hiso & ->).
  eexists. split; [reflexivity |]. split; [| split; reflexivity].
  apply splitCRLF_join; [discriminate |].
  unfold envelope.
  repeat (constructor;
          [ first [ reflexivity
                  | apply hasCRLF_prefix; [repeat constructor | assumption]
                  | apply hasCRLF_no_LF, Forall_app; split; [repeat constructor |] ] | ]);
    try constructor.
  - apply Forall_app. split; [apply intToString_noLF | repeat constructor].
  - apply stripIso_Forall. now apply toISOString_noLF with (d := newDate (clock 0%nat)).
  - apply formatDate_noLF.
  - apply formatDate_noLF.
  - apply escapeNewlines_no_LF.
Qed.

(** X11.  The preview of the earlier page shows the start of the event it
    would generate: for a count a number holds exactly and one of the three
    units, [previewDate] and the start that [generateICS] resolves from the
    token of that selection are the same date, at the same reading of the
    clock. *)
Theorem preview_is_event_start (old : Legacy.FormData) (n : Z) (unit : jsstring)
        (clock : Z) :
  0 <= n <= Picker.maxSafe ->
  recognized unit ->
  Legacy.timeDelay old = Page.updateTimeDelay n unit ->
  previewDate n unit clock = fst (eventDates old clock).
Proof.
  intros [Hn _] Hu Ht.
  rewrite (Resolver.eventDates_getEventDates addWeeks addMonths addYears old
             (LegacyView.asCurrent old) clock eq_refl).
  destruct (Selection.recognized_calendar addWeeks addMonths addYears unit Hu) as [f Hf].
  rewrite (Resolver.canonical_token addWeeks addMonths addYears
             (LegacyView.asCurrent old) clock n unit f Hn Ht Hf).
  unfold LegacyView.previewDate.
  pose proof (Resolver.find_unit addWeeks addMonths addYears unit clock) as Hfind.
  change (Legacy.units addWeeks addMonths addYears clock)
    with (Page.units addWeeks addMonths addYears clock).
  destruct (find _ (Page.units addWeeks addMonths addYears clock)) as [u|];
    simpl in Hfind;
    destruct Hf as [[= <- <-] | [[= <- <-] | [[= <- <-] | []]]];
    simpl in Hfind; congruence.
Qed.

End Home.

Lemma body_cannot_add_records_witness :
  hasCRLF (lit "Revisit") = false
  /\ exists doc,
       OnUTC.generateICS
         {| Page.title := lit "Revisit";
            Page.content := Some (lit "a" ++ CRLF ++ lit "END:VEVENT" ++ [LF] ++ lit "b");
            Page.timeDelay := lit "3weeks" |} OnUTC.newYear = Some doc
       /\ length (splitCRLF doc) = 14%nat.
Proof.
  assert (Ht : hasCRLF (lit "Revisit") = false) by reflexivity.
  split; [exact Ht |].
  destruct (OnUTC.generateICS
              {| Page.title := lit "Revisit";
                 Page.content := Some (lit "a" ++ CRLF ++ lit "END:VEVENT" ++ [LF] ++ lit "b");
                 Page.timeDelay := lit "3weeks" |} OnUTC.newYear) as [doc|] eqn:E;
    [| vm_compute in E; discriminate E].
  exists doc. split; [reflexivity |].
  destruct (body_cannot_add_records
              DateFnsUTC.LocalTZA DateFnsUTC.addWeeks DateFnsUTC.addMonths
              DateFnsUTC.addYears
              {| Page.title := lit "Revisit";
                 Page.content := Some (lit "a" ++ CRLF ++ lit "END:VEVENT" ++ [LF] ++ lit "b");
                 Page.timeDelay := lit "3weeks" |}
              OnUTC.newYear doc Ht E) as (records & _ & -> & Hlen & _).
  exact Hlen.
Defined.

Lemma preview_is_event_start_witness :
  0 <= 3 <= Picker.maxSafe
  /\ recognized (lit "months")
  /\ LegacyView.previewDate DateFnsUTC.addWeeks DateFnsUTC.addMonths DateFnsUTC.addYears
       3 (lit "months") 1767225600000
     = fst (Legacy.eventDates DateFnsUTC.addWeeks DateFnsUTC.addMonths DateFnsUTC.addYears
              (OnUTC.oldForm "Revisit" (lit "notes") "3months") 1767225600000).
Proof.
  assert (Hn : 0 <= 3 <= Picker.maxSafe) by (unfold Picker.maxSafe; lia).
  assert (Hu : recognized (lit "months")) by (right; left; reflexivity).
  split; [exact Hn |]. split; [exact Hu |].
  exact (preview_is_event_start
           DateFnsUTC.addWeeks DateFnsUTC.addMonths DateFnsUTC.addYears
           (OnUTC.oldForm "Revisit" (lit "notes") "3months") 3 (lit "months")
           1767225600000 Hn Hu eq_refl).
Defined.

End Versions.

(** ** The name of the download, once more *)

Module Naming.
Import Js JsFacts Consumer Slug.

(** What a slug is, from the three steps that build it. *)
Lemma slug_shape (t : jsstring) :
  Forall (fun c => isSlugChar c = true) (Page.slug t)
  /\ hd "a"%char (Page.slug t) <> "-"%char
  /\ last (Page.slug t) "a"%char <> "-"%char
  /\ singleHyphens (Page.slug t) = true
  /\ (length (Page.slug t) <= 30)%nat
  /\ filter isLowerAlnum (Page.slug t)
     = filter isLowerAlnum (slice0 30 (toLowerCase t)).
Proof.
  unfold Page.slug, hyphenate.
  set (cut := slice0 30 (toLowerCase t)).
  destruct (collapseRuns_single false cut) as [Hs _].
  destruct (stripEdgeHyphens_edges _ Hs) as (Hh & Hl & Hss).
  split; [apply stripEdgeHyphens_chars, collapseRuns_chars |].
  split; [exact Hh |]. split; [exact Hl |]. split; [exact Hss |].
  split.
  - pose proof (stripEdgeHyphens_length (collapseRuns false cut)).
    pose proof (collapseRuns_length false cut).
    assert (length cut <= 30)%nat by apply firstn_le_length.
    lia.
  - now rewrite stripEdgeHyphens_keeps, collapseRuns_keeps.
Qed.

Lemma lowerChar_slug (c : ascii) : isSlugChar c = true -> lowerChar c = c.
Proof. each_char c; intros H; try discriminate H; reflexivity. Qed.

Lemma toLowerCase_slug (s : jsstring) :
  Forall (fun c => isSlugChar c = true) s -> toLowerCase s = s.
Proof.
  unfold toLowerCase. induction 1 as [|c rest Hc Hrest IH]; [reflexivity |].
  simpl. now rewrite lowerChar_slug, IH.
Qed.

Lemma slugChar_cases (c : ascii) :
  isSlugChar c = true -> isLowerAlnum c = true \/ (isLowerAlnum c = false /\ c = "-"%char).
Proof.
  unfold isSlugChar. destruct (isLowerAlnum c); [now left |].
  simpl. intros H. right. split; [reflexivity | now apply Ascii.eqb_eq].
Qed.

Lemma collapseRuns_slug (s : jsstring) :
  Forall (fun c => isSlugChar c = true) s -> singleHyphens s = true ->
  collapseRuns false s = s
  /\ (hd "a"%char s <> "-"%char -> collapseRuns true s = s).
Proof.
  induction 1 as [|c rest Hc Hrest IH]; intros Hs; [split; reflexivity |].
  pose proof (singleHyphens_tail _ _ Hs) as Hs'.
  destruct (IH Hs') as [IH1 IH2].
  destruct (slugChar_cases c Hc) as [Ha | [_ ->]].
  - simpl. rewrite Ha. split; [| intros _]; now rewrite IH1.
  - split.
    + change (collapseRuns false ("-"%char :: rest))
        with ("-"%char :: collapseRuns true rest).
      rewrite IH2; [reflexivity |]. now apply singleHyphens_second.
    + intros Hhd. now contradiction Hhd.
Qed.

Lemma dropLastHyphen_slug (s : jsstring) :
  last s "a"%char <> "-"%char -> dropLastHyphen s = s.
Proof.
  induction s as [|c rest IH]; intros Hl; [reflexivity |].
  destruct rest as [|d more].
  - simpl in *. destruct (Ascii.eqb c "-") eqn:E; [| reflexivity].
    apply Ascii.eqb_eq in E. contradiction.
  - change (dropLastHyphen (c :: d :: more)) with (c :: dropLastHyphen (d :: more)).
    rewrite IH; [reflexivity | exact Hl].
Qed.

Lemma stripEdgeHyphens_slug (s : jsstring) :
  hd "a"%char s <> "-"%char -> last s "a"%char <> "-"%char -> stripEdgeHyphens s = s.
Proof.
  intros Hh Hl. destruct s as [|c rest]; [reflexivity |].
  unfold stripEdgeHyphens. destruct (Ascii.eqb c "-") eqn:E.
  - apply Ascii.eqb_eq in E. simpl in Hh. contradiction.
  - now apply dropLastHyphen_slug.
Qed.

Lemma filter_nil_iff {A : Type} (p : A -> bool) (l : list A) :
  filter p l = [] <-> Forall (fun x => p x = false) l.
Proof.
  induction l as [|x l IH]; simpl.
  - split; [constructor | reflexivity].
  - destruct (p x) eqn:E.
    + split; [discriminate |]. intros H. inversion H; congruence.
    + rewrite IH. split; [now constructor | now inversion 1].
Qed.

(** X12.  A slug is its own slug: lowering, cutting at 30, hyphenating and
    trimming the result of [slug] once more changes nothing, so a title that
    already is a slug names its own file. *)
Theorem slug_idempotent (t : jsstring) :
  Page.slug (Page.slug t) = Page.slug t
  /\ Page.downloadName {| Page.title := Page.slug t; Page.content := None;
                          Page.timeDelay := [] |}
     = Page.downloadName {| Page.title := t; Page.content := None;
                            Page.timeDelay := [] |}.
Proof.
  destruct (slug_shape t) as (Hc & Hh & Hl & Hs & Hlen & _).
  assert (E : Page.slug (Page.slug t) = Page.slug t).
  { unfold Page.slug at 1. rewrite (toLowerCase_slug _ Hc).
    unfold slice0. rewrite (firstn_all2 _ Hlen).
    unfold hyphenate. rewrite (proj1 (collapseRuns_slug _ Hc Hs)).
    now apply stripEdgeHyphens_slug. }
  split; [exact E |]. unfold Page.downloadName. simpl. now rewrite E.
Qed.

(** X13.  A title without a letter or digit in its first 30 characters has
    the empty slug, and only such a title has: the download is then named
    "recal-.ics". *)
Theorem slug_empty_iff (data : Page.FormData) :
  (Page.slug (Page.title data) = []
   <-> Forall (fun c => isLowerAlnum c = false)
              (slice0 30 (toLowerCase (Page.title data))))
  /\ (Page.slug (Page.title data) = []
      -> Page.downloadName data = lit "recal-.ics").
Proof.
  destruct (slug_shape (Page.title data)) as (Hc & Hh & _ & _ & _ & Hk).
  split.
  - rewrite <- filter_nil_iff, <- Hk. split; [intros ->; reflexivity |].
    intros Hf. destruct (Page.slug (Page.title data)) as [|c r]; [reflexivity |].
    exfalso. inversion Hc as [|? ? Hc1 _]; subst.
    simpl in Hf. destruct (slugChar_cases c Hc1) as [Ha | [_ ->]].
    + rewrite Ha in Hf. discriminate Hf.
    + now apply Hh.
  - unfold Page.downloadName. now intros ->.
Qed.

End Naming.

(** ** Submissions and the quick picks they leave *)

Module QuickPicks.
Import Js JsDate JsFacts Picker Tokens.

Lemma others_twice (t : jsstring) (l : list jsstring) :
  filter (fun v => negb (str_eqb v t))
         (t :: firstn 2 (filter (fun v => negb (str_eqb v t)) l))
  = firstn 2 (filter (fun v => negb (str_eqb v t)) l).
Proof.
  cbn [filter]. rewrite str_eqb_refl. cbn [negb].
  apply Recents.others_absent. intros Hin.
  apply Selection.In_firstn_of, Recents.In_others in Hin. now destruct Hin.
Qed.

(** X14.  Submitting the same token again changes nothing: the second
    [updateRecents] leaves the list (and what it stores under
    [RECENTS_KEY]) as the first one left it, whatever the list was before,
    a list with repeated entries included; the token stands once, in
    front. *)
Theorem resubmission_changes_nothing (t : jsstring) (st : Page.State) :
  Page.updateRecents t (fst (Page.updateRecents t st)) = Page.updateRecents t st
  /\ exists others,
       Page.recentDelays (fst (Page.updateRecents t st)) = t :: others
       /\ ~ In t others.
Proof.
  unfold Page.updateRecents. cbn [fst Page.recentDelays Page.selectedNumber
                                  Page.selectedUnit].
  assert (E : Page.nextRecents t (Page.nextRecents t (Page.recentDelays st))
              = Page.nextRecents t (Page.recentDelays st)).
  { rewrite (Recents.nextRecents_cons t (Page.recentDelays st)).
    rewrite Recents.nextRecents_cons, others_twice.
    f_equal. apply firstn_all2, firstn_le_length. }
  split; [now rewrite E |].
  rewrite Recents.nextRecents_cons. eexists. split; [reflexivity |].
  intros Hin. apply Selection.In_firstn_of, Recents.In_others in Hin. now destruct Hin.
Qed.

Section Home.

Variable LocalTZA : Z -> Z.
Variables addWeeks addMonths addYears : Date -> Z -> Date.
Variable formatLong : Date -> option jsstring.
Variables calendarSign dateSign timerSign memoSign : jsstring.

Local Abbreviation handleSubmit :=
  (Picker.handleSubmit LocalTZA addWeeks addMonths addYears formatLong
                       calendarSign dateSign timerSign memoSign).

(** X15.  The first quick pick recalls the submission.  Take a view
    whose form holds the token of its selection, with a count from 0 to
    [Number.MAX_SAFE_INTEGER] and a unit that is word characters not beginning
    with a digit, or one digit alone (the units [parseTimeDelay] can return,
    see [Tokens.parseTimeDelay_shown]).  After a handler has run on a form
    with a title, the first of the recent picks is the token that was
    submitted; its button is labelled with the count and the unit of that
    selection, and clicking it later, from whatever view, selects that count
    and that unit again and puts the same token into the form. *)
Theorem quick_pick_recalls_submission (a : Page.Action) (title : jsstring)
        (content : option jsstring) (clock : Page.Clock) (v v' w : View)
        (effects : list Page.Effect) :
  title <> [] ->
  timeDelay v = lastToken (state v) ->
  0 <= Page.selectedNumber (state v) <= maxSafe ->
  Reader.shownUnit (Page.selectedUnit (state v)) ->
  handleSubmit a title content clock v = Some (v', effects) ->
  exists td,
    nth_error (Page.recentDelays (state v')) 0 = Some td
    /\ td = timeDelay v
    /\ pickLabel td
       = intToString (Page.selectedNumber (state v)) ++ lit " "
         ++ Page.selectedUnit (state v)
    /\ Page.selectedNumber (state (onPick td w)) = Page.selectedNumber (state v)
    /\ Page.selectedUnit (state (onPick td w)) = Page.selectedUnit (state v)
    /\ timeDelay (onPick td w) = timeDelay v.
Proof.
  intros Hne Hsync [Hn _] Hu Hrun.
  unfold Picker.handleSubmit in Hrun.
  destruct title as [|c r]; [contradiction |].
  destruct (Page.run _ _ _ _ _ _ _ _ _ _ _ _ _) as [[st' eff]|] eqn:E; [| discriminate].
  injection Hrun as <- <-.
  destruct (Recents.run_updates_recents _ _ _ _ _ _ _ _ _ _ _ _ _ _ _ E) as (Hr & _).
  cbn [Page.timeDelay] in Hr. rewrite Recents.nextRecents_cons in Hr.
  exists (timeDelay v). cbn [state]. rewrite Hr.
  split; [reflexivity |]. split; [reflexivity |].
  pose proof (parse_update_shown _ _ Hn Hu) as Hp.
  unfold pickLabel, onPick. rewrite Hsync. unfold lastToken.
  fold (Page.updateTimeDelay (Page.selectedNumber (state v))
                             (Page.selectedUnit (state v))).
  rewrite Hp. repeat split.
Qed.

End Home.

(** The hypotheses of [quick_pick_recalls_submission] are met by the view
    the mount effect leaves when the storage holds "007": the count is 0, the
    unit "7" and the token "07", which is the first recent pick after a
    submission; its button reads "0 7". *)
Lemma quick_pick_recalls_submission_witness :
  exists v' effects,
    state (restoreLast (Some (lit "007")) initial)
    = {| Page.selectedNumber := 0; Page.selectedUnit := lit "7";
         Page.recentDelays := [] |}
    /\ Picker.handleSubmit DateFnsUTC.LocalTZA DateFnsUTC.addWeeks DateFnsUTC.addMonths
         DateFnsUTC.addYears (fun _ => None) [] [] [] []
         Page.AddToOutlook (lit "Review") None OnUTC.newYear
         (restoreLast (Some (lit "007")) initial) = Some (v', effects)
    /\ nth_error (Page.recentDelays (state v')) 0 = Some (lit "07")
    /\ pickLabel (lit "07") = lit "0 7".
Proof.
  destruct (Picker.handleSubmit DateFnsUTC.LocalTZA DateFnsUTC.addWeeks
              DateFnsUTC.addMonths DateFnsUTC.addYears (fun _ => None) [] [] [] []
              Page.AddToOutlook (lit "Review") None OnUTC.newYear
              (restoreLast (Some (lit "007")) initial))
    as [[v' effects]|] eqn:E; [| vm_compute in E; discriminate E].
  exists v', effects. split; [reflexivity |]. split; [reflexivity |].
  assert (Hne : lit "Review" <> []) by discriminate.
  assert (Hsync : timeDelay (restoreLast (Some (lit "007")) initial)
                  = lastToken (state (restoreLast (Some (lit "007")) initial)))
    by reflexivity.
  assert (Hn : 0 <= Page.selectedNumber (state (restoreLast (Some (lit "007")) initial))
               <= maxSafe)
    by (split; apply Z.leb_le; reflexivity).
  assert (Hu : Reader.shownUnit
                 (Page.selectedUnit (state (restoreLast (Some (lit "007")) initial))))
    by (right; exists "7"%char; split; reflexivity).
  destruct (quick_pick_recalls_submission
              DateFnsUTC.LocalTZA DateFnsUTC.addWeeks DateFnsUTC.addMonths
              DateFnsUTC.addYears (fun _ => None) [] [] [] []
              Page.AddToOutlook (lit "Review") None OnUTC.newYear
              (restoreLast (Some (lit "007")) initial) v' initial
              effects Hne Hsync Hn Hu E)
    as (td & H0 & -> & Hl & _).
  split; [exact H0 | exact Hl].
Defined.

End QuickPicks.

(** ** The wheels and the selection they show *)

Module Wheels.
Import Js JsDate JsFacts Picker.

Section Home.

Variables addWeeks addMonths addYears : Date -> Z -> Date.

Local Abbreviation onUnitChange := (Picker.onUnitChange addWeeks addMonths addYears).
Local Abbreviation unitIndex := (Picker.unitIndex addWeeks addMonths addYears).

(** X16.  The wheels stand where the selection is.  For a view the wheels
    can have produced, the index each wheel is given as [selectedIndex] is
    an index of its options, and [onChange] at that index leaves the view
    as it is; and turning the wheel of numbers to an index from 0 to 8
    makes that index its [selectedIndex].  An index outside the options
    selects 1, respectively "weeks". *)
Theorem wheels_show_selection (v : View) :
  Wheeled v ->
  0 <= numberIndex v < 9
  /\ onNumberChange (numberIndex v) v = v
  /\ 0 <= unitIndex v < 3
  /\ onUnitChange (unitIndex v) v = Some v
  /\ (forall idx, 0 <= idx < 9 -> numberIndex (onNumberChange idx v) = idx)
  /\ (forall idx, idx < 0 \/ 9 <= idx ->
        Page.selectedNumber (state (onNumberChange idx v)) = 1)
  /\ (forall idx, idx < 0 \/ 3 <= idx ->
        option_map (fun v' => Page.selectedUnit (state v')) (onUnitChange idx v)
        = Some (lit "weeks")).
Proof.
  intros (Hn & Hu & Ht & _).
  destruct v as [[n u r] t]. cbn [state timeDelay Page.selectedNumber Page.selectedUnit] in *.
  unfold lastToken in Ht. cbn [Page.selectedNumber Page.selectedUnit] in Ht. subst t.
  unfold numberIndex, unitIndex, onNumberChange, Picker.onUnitChange.
  cbn [state timeDelay Page.selectedNumber Page.selectedUnit].
  assert (Hcases : n = 1 \/ n = 2 \/ n = 3 \/ n = 4 \/ n = 5 \/ n = 6 \/ n = 7
                   \/ n = 8 \/ n = 9) by lia.
  split; [| split; [| split; [| split; [| split; [| split]]]]].
  - repeat (destruct Hcases as [-> | Hcases]; [vm_compute; split; congruence |]).
    subst n. vm_compute; split; congruence.
  - repeat (destruct Hcases as [-> | Hcases]; [reflexivity |]).
    subst n. reflexivity.
  - destruct Hu as [-> | [-> | ->]]; vm_compute; split; congruence.
  - destruct Hu as [-> | [-> | ->]]; reflexivity.
  - intros idx Hidx.
    assert (Hi : idx = 0 \/ idx = 1 \/ idx = 2 \/ idx = 3 \/ idx = 4 \/ idx = 5
                 \/ idx = 6 \/ idx = 7 \/ idx = 8) by lia.
    repeat (destruct Hi as [-> | Hi]; [reflexivity |]).
    subst idx. reflexivity.
  - intros idx Hidx. unfold at_.
    destruct (Z.ltb_spec idx 0); [reflexivity |].
    destruct Hidx as [Hidx | Hidx]; [lia |].
    assert (E : nth_error numbers (Z.to_nat idx) = None)
      by (apply nth_error_None; simpl; lia).
    now rewrite E.
  - intros idx Hidx. unfold orFirst, at_.
    destruct (Z.ltb_spec idx 0); [reflexivity |].
    destruct Hidx as [Hidx | Hidx]; [lia |].
    assert (E : nth_error (Page.calendar addWeeks addMonths addYears) (Z.to_nat idx)
                = None)
      by (apply nth_error_None; simpl; lia).
    now rewrite E.
Qed.

End Home.

Lemma wheels_show_selection_witness :
  Wheeled initial
  /\ numberIndex initial = 0
  /\ onNumberChange (numberIndex initial) initial = initial.
Proof.
  assert (W : Wheeled initial).
  { repeat split; simpl; try lia; [now left | constructor]. }
  split; [exact W |]. split; [reflexivity |].
  exact (proj1 (proj2 (wheels_show_selection
                         DateFnsUTC.addWeeks DateFnsUTC.addMonths DateFnsUTC.addYears
                         initial W))).
Defined.

End Wheels.
